(** * ProteinFeatureAnalyzer: backbone micro-environments and beta-sheet graphs

    A shallow embedding of
    - [features/geometry.py] (neighbour search, residue frames, Euler angles,
      backbone torsions, random unit vectors and rotations),
    - [features/secondary_structures.py] (DSSP parsing, segmentation, sheet
      graphs),
    - [features/BackboneMicroEnvironmentFeature.py] (the per-pair extraction
      loop),
    together with the properties stated about them.

    Conventions.  Python exceptions are values of [exn] carried by the error
    monad [py].  Python [str] is [string]; a one-character string stands for
    an indexed character [l[i]].  Python [int] is [Z].  Python floats that are
    only parsed and compared are binary64 [float]s; the trigonometric frame
    mathematics of numpy is carried out over the real numbers [R]. *)

From Stdlib Require Import ZArith List String Ascii Reals Lra Lia RNsatz.
From Stdlib Require Floats.
From stdpp Require Import base option list gmap strings.

Local Open Scope string_scope.
Local Open Scope Z_scope.

(** ** Python exceptions and the error monad *)

Inductive exn : Type :=
| KeyError
| IndexError
| ValueError
| NameError (name : string)
| Exception (msg : string).

Inductive py (A : Type) : Type :=
| Ok (a : A)
| Raise (e : exn).
Arguments Ok {A} a.
Arguments Raise {A} e.

#[global] Instance py_ret : MRet py := fun _ a => Ok a.
#[global] Instance py_bind : MBind py := fun _ _ f m =>
  match m with Ok a => f a | Raise e => Raise e end.

#[global] Instance py_fmap : FMap py := fun _ _ f m =>
  match m with Ok a => Ok (f a) | Raise e => Raise e end.

Definition raises {A} (m : py A) : bool :=
  match m with Ok _ => false | Raise _ => true end.

(** [l[i]] for a list and a non-negative index. *)
Definition py_index {A} (l : list A) (i : nat) : py A :=
  match l !! i with Some x => Ok x | None => Raise IndexError end.

(** [d[k]] for a dictionary. *)
Definition py_getitem `{Countable K} {V} (d : gmap K V) (k : K) : py V :=
  match d !! k with Some v => Ok v | None => Raise KeyError end.

(** ** The Bio.PDB hierarchy, as far as the sources use it

    A residue id is the triple (hetero flag, sequence number, insertion code);
    a residue knows the id of its parent chain ([get_parent().get_id()]).
    The type of coordinates is a parameter. *)

Module PDB.

Record Atom (Coord : Type) : Type := mkAtom {
  atom_id : string;
  atom_coord : Coord
}.
Arguments mkAtom {Coord}.
Arguments atom_id {Coord}.
Arguments atom_coord {Coord}.

Record Residue (Coord : Type) : Type := mkResidue {
  res_chain : string;                 (* residue.get_parent().get_id() *)
  res_id : string * Z * string;       (* residue.get_id() *)
  res_atoms : list (Atom Coord)
}.
Arguments mkResidue {Coord}.
Arguments res_chain {Coord}.
Arguments res_id {Coord}.
Arguments res_atoms {Coord}.

Record Chain (Coord : Type) : Type := mkChain {
  chain_id : string;
  chain_residues : list (Residue Coord)
}.
Arguments mkChain {Coord}.
Arguments chain_id {Coord}.
Arguments chain_residues {Coord}.

Definition Model (Coord : Type) : Type := list (Chain Coord).

Section Accessors.
Context {Coord : Type}.

Definition flag (r : Residue Coord) : string := (res_id r).1.1.
Definition resseq (r : Residue Coord) : Z := (res_id r).1.2.
Definition icode (r : Residue Coord) : string := (res_id r).2.

(** The full identity of a residue inside one model. *)
Definition full_id (r : Residue Coord) : string * (string * Z * string) :=
  (res_chain r, res_id r).

Definition same_residue (r1 r2 : Residue Coord) : bool :=
  bool_decide (full_id r1 = full_id r2).

(** [model.get_residues()] *)
Definition get_residues (model : Model Coord) : list (Residue Coord) :=
  concat (map chain_residues model).

(** [residue[name]] *)
Definition residue_getitem (r : Residue Coord) (name : string) : py (Atom Coord) :=
  match find (fun a => bool_decide (atom_id a = name)) (res_atoms r) with
  | Some a => Ok a
  | None => Raise KeyError
  end.

(** [chain[n]] for an integer [n]: Bio.PDB translates the integer into the
    residue id [(' ', n, ' ')]. *)
Definition chain_getitem (c : Chain Coord) (n : Z) : py (Residue Coord) :=
  match find (fun r => bool_decide (res_id r = (" ", n, " "))) (chain_residues c) with
  | Some r => Ok r
  | None => Raise KeyError
  end.

(** [model[chain_id]] *)
Definition model_getitem (m : Model Coord) (cid : string) : py (Chain Coord) :=
  match find (fun c => bool_decide (chain_id c = cid)) m with
  | Some c => Ok c
  | None => Raise KeyError
  end.

(** [flag == 'W' or flag.startswith('H_')] *)
Definition is_hetero_flag (f : string) : bool :=
  bool_decide (f = "W") || String.prefix "H_" f.
End Accessors.

End PDB.

(** ** geometry.py: the neighbour search *)

Module NeighborFinder.
Import PDB.

Section Generic.
Context {Coord : Type}.

(** [scipy.spatial.KDTree(data).query(x, k=4)[1]]: the indices of the four
    points of [data] nearest to [x], by increasing distance; where [data]
    has fewer than four points the missing places hold [len(data)]. *)
Variable kd_query : list Coord -> Coord -> list nat.

(** An atom of [ca_list] together with its [get_parent()]. *)
Definition ca_of_residue (r : Residue Coord) : list (Residue Coord * Atom Coord) :=
  map (fun a => (r, a)) (filter (fun a => atom_id a = "CA") (res_atoms r)).

Definition ca_list_of (model : Model Coord) : list (Residue Coord * Atom Coord) :=
  concat (map (fun r => if is_hetero_flag (flag r) then [] else ca_of_residue r)
              (get_residues model)).

(** The test of lines 87-89. *)
Definition bonded (res1 res2 : Residue Coord) : bool :=
  bool_decide (res_chain res1 = res_chain res2)
  && (bool_decide (resseq res1 + 1 = resseq res2)
      || bool_decide (resseq res1 - 1 = resseq res2)).

(** The loop [for j in range(1, 4)].  Its state is the variable [res2];
    the [continue] is the last statement of the body, so both branches of
    the test go on to the next [j] with [res2] already assigned. *)
Fixpoint inspect (ca_list : list (Residue Coord * Atom Coord)) (indices : list nat)
    (res1 : Residue Coord) (js : list nat) (res2 : option (Residue Coord))
    : py (option (Residue Coord)) :=
  match js with
  | [] => Ok res2
  | j :: js' =>
      k ← py_index indices j;
      a ← py_index ca_list k;
      let res2 := Some a.1 in
      if bonded res1 a.1
      then inspect ca_list indices res1 js' res2     (* continue *)
      else inspect ca_list indices res1 js' res2
  end.

(** The body of [for i in range(len(ca_list))]. *)
Definition query_one (ca_list : list (Residue Coord * Atom Coord))
    (ca_coords : list Coord) (i : nat) : py (Residue Coord * Residue Coord) :=
  a ← py_index ca_list i;
  let res1 := a.1 in
  x ← py_index ca_coords i;
  let indices := kd_query ca_coords x in
  res2 ← inspect ca_list indices res1 [1; 2; 3]%nat None;
  match res2 with
  | Some r => Ok (res1, r)
  | None => Raise (NameError "res2")
  end.

Fixpoint query_all (ca_list : list (Residue Coord * Atom Coord))
    (ca_coords : list Coord) (idxs : list nat)
    (nearest_nb_list : list (Residue Coord * Residue Coord))
    : py (list (Residue Coord * Residue Coord)) :=
  match idxs with
  | [] => Ok nearest_nb_list
  | i :: idxs' =>
      p ← query_one ca_list ca_coords i;
      query_all ca_list ca_coords idxs' (nearest_nb_list ++ [p])
  end.

(** The residues inspected for the query residue [i], in the order of
    inspection: those at [indices[1]], [indices[2]], [indices[3]]. *)
Definition candidates (ca_list : list (Residue Coord * Atom Coord))
    (ca_coords : list Coord) (i : nat) : list (Residue Coord) :=
  match ca_coords !! i with
  | Some x =>
      omap (fun j => k ← kd_query ca_coords x !! j; a ← ca_list !! k; Some a.1)
           [1; 2; 3]%nat
  | None => []
  end.

Definition get_nearest_nonbonded_residues (model : Model Coord)
    : py (list (Residue Coord * Residue Coord)) :=
  let ca_list := ca_list_of model in
  let ca_coords := map (fun a => atom_coord a.2) ca_list in
  match ca_coords with
  | [] => Raise ValueError          (* KDTree refuses an empty point set *)
  | _ => query_all ca_list ca_coords (seq 0 (length ca_list)) []
  end.
End Generic.

End NeighborFinder.

(** A brute-force instance of the spatial index over integer coordinates:
    the indices are ordered by increasing squared Euclidean distance to the
    query point (which is the order by distance), the lower index first among
    equidistant points, and padded with [len(data)]. *)
Module BruteForce.

Definition Z3 : Type := Z * Z * Z.

Definition sqdist (p q : Z3) : Z :=
  (p.1.1 - q.1.1) ^ 2 + (p.1.2 - q.1.2) ^ 2 + (p.2 - q.2) ^ 2.

Fixpoint insert_by (d : nat -> Z) (i : nat) (l : list nat) : list nat :=
  match l with
  | [] => [i]
  | j :: l' => if d i <=? d j then i :: j :: l' else j :: insert_by d i l'
  end.

Definition kd_query (data : list Z3) (x : Z3) : list nat :=
  let d i := match data !! i with Some p => sqdist p x | None => 0 end in
  let sorted := foldr (insert_by d) [] (seq 0 (length data)) in
  take 4 (sorted ++ replicate 4 (length data)).

End BruteForce.

(** ** geometry.py: frames and Euler angles over the reals *)

Module FrameMath.
Import PDB.
Local Open Scope R_scope.

Definition V3 : Type := R * R * R.
(** A 3x3 matrix is the triple of its rows; [m[i][j]] is [entry m i j]. *)
Definition M33 : Type := V3 * V3 * V3.

Definition vx (v : V3) : R := v.1.1.
Definition vy (v : V3) : R := v.1.2.
Definition vz (v : V3) : R := v.2.

Definition row0 (m : M33) : V3 := m.1.1.
Definition row1 (m : M33) : V3 := m.1.2.
Definition row2 (m : M33) : V3 := m.2.

Definition m00 (m : M33) := vx (row0 m).
Definition m01 (m : M33) := vy (row0 m).
Definition m02 (m : M33) := vz (row0 m).
Definition m10 (m : M33) := vx (row1 m).
Definition m11 (m : M33) := vy (row1 m).
Definition m12 (m : M33) := vz (row1 m).
Definition m20 (m : M33) := vx (row2 m).
Definition m21 (m : M33) := vy (row2 m).
Definition m22 (m : M33) := vz (row2 m).

Definition vsub (a b : V3) : V3 := (vx a - vx b, vy a - vy b, vz a - vz b).
Definition vdiv (a : V3) (s : R) : V3 := (vx a / s, vy a / s, vz a / s).
Definition dot (a b : V3) : R := vx a * vx b + vy a * vy b + vz a * vz b.

(** [np.cross] *)
Definition cross (a b : V3) : V3 :=
  (vy a * vz b - vz a * vy b,
   vz a * vx b - vx a * vz b,
   vx a * vy b - vy a * vx b).

(** [np.linalg.norm] *)
Definition norm (v : V3) : R := sqrt (dot v v).

Definition normalize (v : V3) : V3 :=
  let norm := norm v in
  if Req_dec_T norm 0 then v else vdiv v norm.


Definition transpose (m : M33) : M33 :=
  ((m00 m, m10 m, m20 m),
   (m01 m, m11 m, m21 m),
   (m02 m, m12 m, m22 m)).

Definition col0 (m : M33) : V3 := row0 (transpose m).
Definition col1 (m : M33) : V3 := row1 (transpose m).
Definition col2 (m : M33) : V3 := row2 (transpose m).

(** [np.matmul] / [np.dot] of two 3x3 matrices, and of a matrix and a vector. *)
Definition matmul (a b : M33) : M33 :=
  ((dot (row0 a) (col0 b), dot (row0 a) (col1 b), dot (row0 a) (col2 b)),
   (dot (row1 a) (col0 b), dot (row1 a) (col1 b), dot (row1 a) (col2 b)),
   (dot (row2 a) (col0 b), dot (row2 a) (col1 b), dot (row2 a) (col2 b))).

Definition matvec (a : M33) (v : V3) : V3 :=
  (dot (row0 a) v, dot (row1 a) v, dot (row2 a) v).

Definition identity : M33 := ((1, 0, 0), (0, 1, 0), (0, 0, 1)).

Definition det (m : M33) : R := dot (row0 m) (cross (row1 m) (row2 m)).

(** [residue[name].get_coord()] *)
Definition get_coord (residue : Residue V3) (name : string) : py V3 :=
  a ← residue_getitem residue name; Ok (atom_coord a).

Definition get_residue_stub_matrix (residue : Residue V3) : py (M33 * V3) :=
  n ← get_coord residue "N";
  ca ← get_coord residue "CA";
  c ← get_coord residue "C";
  let x := normalize (vsub n ca) in
  let z := normalize (cross x (vsub c ca)) in
  let y := cross z x in
  Ok (transpose (x, y, z), ca).

(** [np.arctan2 y x] on real arguments. *)
Definition arctan2 (y x : R) : R :=
  if Rlt_dec 0 x then atan (y / x)
  else if Rlt_dec x 0 then
    (if Rle_dec 0 y then atan (y / x) + PI else atan (y / x) - PI)
  else if Rlt_dec 0 y then PI / 2
  else if Rlt_dec y 0 then - (PI / 2)
  else 0.

Definition rotation_matrix_to_euler_angles (m : M33) : R * R * R :=
  let theta_x := arctan2 (m21 m) (m22 m) in
  let theta_y := arctan2 (- m20 m) (sqrt (m21 m ^ 2 + m22 m ^ 2)) in
  let theta_z := arctan2 (m10 m) (m00 m) in
  (theta_x, theta_y, theta_z).

Definition rot_X (theta_x : R) : M33 :=
  let cx := cos theta_x in let sx := sin theta_x in
  ((1, 0, 0), (0, cx, - sx), (0, sx, cx)).
Definition rot_Y (theta_y : R) : M33 :=
  let cy := cos theta_y in let sy := sin theta_y in
  ((cy, 0, sy), (0, 1, 0), (- sy, 0, cy)).
Definition rot_Z (theta_z : R) : M33 :=
  let cz := cos theta_z in let sz := sin theta_z in
  ((cz, - sz, 0), (sz, cz, 0), (0, 0, 1)).

Definition euler_angles_to_rotation_matrix (theta_x theta_y theta_z : R) : M33 :=
  let X := rot_X theta_x in
  let Y := rot_Y theta_y in
  let Z := rot_Z theta_z in
  matmul Z (matmul Y X).

(** A rotation matrix: orthogonal with determinant one. *)
Definition is_rotation (m : M33) : Prop :=
  matmul m (transpose m) = identity /\ det m = 1.

End FrameMath.

(** ** geometry.py: backbone torsions *)

Module Torsion.
Import PDB FrameMath.

Section Dihedral.
(** [Bio.PDB.calc_dihedral], a function of the Bio.PDB library. *)
Variable calc_dihedral : V3 -> V3 -> V3 -> V3 -> R.

(** [residue[name].get_vector()] *)
Definition get_vector (residue : Residue V3) (name : string) : py V3 :=
  get_coord residue name.

Definition get_phi (chain : Chain V3) (residue : Residue V3) : py R :=
  let res_id := res_id residue in
  prev_res ← chain_getitem chain (res_id.1.2 - 1)%Z;
  let prev_flag := flag prev_res in
  if is_hetero_flag prev_flag then Raise (Exception "Hetero residue type!") else
  c_prev ← get_vector prev_res "C";
  n ← get_vector residue "N";
  ca ← get_vector residue "CA";
  c ← get_vector residue "C";
  Ok (calc_dihedral c_prev n ca c).

Definition get_psi (chain : Chain V3) (residue : Residue V3) : py R :=
  let res_id := res_id residue in
  next_res ← chain_getitem chain (res_id.1.2 + 1)%Z;
  let next_flag := flag next_res in
  if is_hetero_flag next_flag then Raise (Exception "Hetero residue type!") else
  n ← get_vector residue "N";
  ca ← get_vector residue "CA";
  c ← get_vector residue "C";
  n_next ← get_vector next_res "N";
  Ok (calc_dihedral n ca c n_next).
End Dihedral.

End Torsion.

(** ** BackboneMicroEnvironmentFeature.py: the extraction loop *)

Module BackboneMicroEnvironmentFeature.
Import PDB FrameMath Torsion.

Record feature_dict : Type := mkFeature {
  phi1 : R; psi1 : R; phi2 : R; psi2 : R;
  shift : V3;
  theta_x : R; theta_y : R; theta_z : R
}.

Section Extract.
Variable calc_dihedral : V3 -> V3 -> V3 -> V3 -> R.
Variable kd_query : list V3 -> V3 -> list nat.

(** [residue.get_parent()]: the chain of the model that holds the residue.
    Every residue handed to the loop comes from the model; for a residue
    of no chain of the model the parent is taken to be an empty chain. *)
Definition get_parent (model : Model V3) (residue : Residue V3) : Chain V3 :=
  match find (fun c => bool_decide (chain_id c = res_chain residue)) model with
  | Some c => c
  | None => mkChain (res_chain residue) []
  end.

(** The four assignments inside [try]. *)
Definition torsions (model : Model V3) (res1 res2 : Residue V3)
    : py (R * R * R * R) :=
  phi1 ← get_phi calc_dihedral (get_parent model res1) res1;
  psi1 ← get_psi calc_dihedral (get_parent model res1) res1;
  phi2 ← get_phi calc_dihedral (get_parent model res2) res2;
  psi2 ← get_psi calc_dihedral (get_parent model res2) res2;
  Ok (phi1, psi1, phi2, psi2).

(** One turn of [for res1, res2 in nearest_nb_list], on the state
    [self.feature_list]. *)
Definition encode_pair (model : Model V3) (feature_list : list feature_dict)
    (pair : Residue V3 * Residue V3) : py (list feature_dict) :=
  let '(res1, res2) := pair in
  match torsions model res1 res2 with
  | Raise _ => Ok feature_list                       (* except: continue *)
  | Ok (phi1, psi1, phi2, psi2) =>
      '(s_matrix, origin) ← get_residue_stub_matrix res1;
      ca2 ← get_coord res2 "CA";
      ca1 ← get_coord res1 "CA";
      let shift_global := vsub ca2 ca1 in
      let shift := matvec (transpose s_matrix) shift_global in
      '(s_matrix2, origin2) ← get_residue_stub_matrix res2;
      let rot_matrix := matmul (transpose s_matrix) s_matrix2 in
      let '(theta_x, theta_y, theta_z) := rotation_matrix_to_euler_angles rot_matrix in
      Ok (feature_list ++
            [mkFeature phi1 psi1 phi2 psi2 shift theta_x theta_y theta_z])%list
  end.

Fixpoint encode_pairs (model : Model V3) (nearest_nb_list : list (Residue V3 * Residue V3))
    (feature_list : list feature_dict) : py (list feature_dict) :=
  match nearest_nb_list with
  | [] => Ok feature_list
  | p :: rest =>
      feature_list' ← encode_pair model feature_list p;
      encode_pairs model rest feature_list'
  end.

(** [extract_from_one_file] on a loaded structure (a list of models). *)
Fixpoint extract_from_structure (structure : list (Model V3))
    (feature_list : list feature_dict) : py (list feature_dict) :=
  match structure with
  | [] => Ok feature_list
  | model :: rest =>
      nearest_nb_list ←
        NeighborFinder.get_nearest_nonbonded_residues kd_query model;
      feature_list' ← encode_pairs model nearest_nb_list feature_list;
      extract_from_structure rest feature_list'
  end.

(** The adjacent position [n] of a chain offers no residue to a torsion:
    every residue stored there under a blank insertion code is a solvent or
    hetero residue (in particular when there is none at all). *)
Definition adjacent_unavailable (chain : Chain V3) (n : Z) : Prop :=
  forall r, In r (chain_residues chain) -> resseq r = n -> icode r = " " ->
            is_hetero_flag (flag r) = true.

(** Some residue needed for phi or psi of one of the two residues is
    unavailable. *)
Definition geometry_unavailable (model : Model V3) (pair : Residue V3 * Residue V3) : Prop :=
  adjacent_unavailable (get_parent model pair.1) (resseq pair.1 - 1)%Z \/
  adjacent_unavailable (get_parent model pair.1) (resseq pair.1 + 1)%Z \/
  adjacent_unavailable (get_parent model pair.2) (resseq pair.2 - 1)%Z \/
  adjacent_unavailable (get_parent model pair.2) (resseq pair.2 + 1)%Z.
End Extract.

End BackboneMicroEnvironmentFeature.

(** ** Python string operations used by the DSSP parser (ASCII text) *)

Module PyStr.

(** [str.isspace] on an ASCII character. *)
Definition is_space (c : ascii) : bool :=
  let n := nat_of_ascii c in
  ((9 <=? n) && (n <=? 13) || (28 <=? n) && (n <=? 32))%nat.

Fixpoint lstrip (s : string) : string :=
  match s with
  | String c s' => if is_space c then lstrip s' else s
  | EmptyString => EmptyString
  end.

Fixpoint rstrip (s : string) : string :=
  match s with
  | String c s' =>
      match rstrip s' with
      | EmptyString => if is_space c then EmptyString else String c EmptyString
      | t => String c t
      end
  | EmptyString => EmptyString
  end.

(** [s.strip()] *)
Definition strip (s : string) : string := rstrip (lstrip s).

(** [s.split(sep)] for a one-character separator. *)
Fixpoint split_on (sep : ascii) (s : string) : list string :=
  match s with
  | EmptyString => [EmptyString]
  | String c s' =>
      if bool_decide (c = sep) then EmptyString :: split_on sep s'
      else match split_on sep s' with
           | h :: t => String c h :: t
           | [] => [String c EmptyString]
           end
  end.

(** [s.split()]: the maximal runs of non-space characters; [cur] is the run
    being read. *)
Fixpoint split_ws_from (cur : string) (s : string) : list string :=
  match s with
  | EmptyString => if bool_decide (cur = EmptyString) then [] else [cur]
  | String c s' =>
      if is_space c
      then (if bool_decide (cur = EmptyString) then split_ws_from EmptyString s'
            else cur :: split_ws_from EmptyString s')
      else split_ws_from (cur ++ String c EmptyString) s'
  end.
Definition split_ws (s : string) : list string := split_ws_from EmptyString s.

(** [s[i]], a one-character string. *)
Definition char_at (s : string) (i : nat) : py string :=
  match String.get i s with
  | Some c => Ok (String c EmptyString)
  | None => Raise IndexError
  end.

(** [s[a:b]] for [0 <= a <= b]. *)
Definition slice (s : string) (a b : nat) : string := String.substring a (b - a) s.

Definition digit_of (c : ascii) : option Z :=
  let n := nat_of_ascii c in
  if ((48 <=? n) && (n <=? 57))%nat then Some (Z.of_nat n - 48) else None.

(** Decimal digits, single underscores allowed between two digits. *)
Fixpoint parse_digits (s : string) (acc : Z) (after_digit : bool) : option Z :=
  match s with
  | EmptyString => if after_digit then Some acc else None
  | String c s' =>
      match digit_of c with
      | Some d => parse_digits s' (10 * acc + d) true
      | None =>
          if bool_decide (c = "_"%char) && after_digit
          then parse_digits s' acc false
          else None
      end
  end.

(** [int(s)] *)
Definition py_int (s : string) : py Z :=
  let t := strip s in
  let r :=
    match t with
    | String "+"%char u => parse_digits u 0 false
    | String "-"%char u => Z.opp <$> parse_digits u 0 false
    | _ => parse_digits t 0 false
    end in
  match r with Some n => Ok n | None => Raise ValueError end.

End PyStr.

(** [float(s)] on plain decimal numerals: an optional sign, digits, an
    optional point and digits, at most fifteen digits in all.  The digits read
    as an integer and the power of ten are both exact binary64 values, so the
    correctly rounded quotient is the binary64 value nearest to the numeral,
    which is what [float] returns.  Other spellings that [float] accepts
    (exponents, [inf], [nan], underscores) are outside this instance, which
    answers [ValueError] for them. *)
Module PyFloat.
Import PyStr.
Import PrimFloat.

Definition float_of_Z (n : Z) : float := of_uint63 (Uint63.of_Z n).

Definition all_digits (s : string) : bool :=
  forallb (fun c => bool_decide (is_Some (digit_of c))) (list_ascii_of_string s).

Definition digits_value (s : string) : Z :=
  fold_left (fun acc c => 10 * acc + default 0 (digit_of c)) (list_ascii_of_string s) 0.

Definition unsigned_decimal (s : string) : py float :=
  match split_on "."%char s with
  | [ip] =>
      if all_digits ip && (1 <=? String.length ip)%nat && (String.length ip <=? 15)%nat
      then Ok (float_of_Z (digits_value ip))
      else Raise ValueError
  | [ip; fp] =>
      let n := (String.length ip + String.length fp)%nat in
      if all_digits ip && all_digits fp && (1 <=? n)%nat && (n <=? 15)%nat
      then Ok (float_of_Z (digits_value (ip ++ fp)) / float_of_Z (10 ^ Z.of_nat (String.length fp)))%float
      else Raise ValueError
  | _ => Raise ValueError
  end.

Definition py_float (s : string) : py float :=
  match strip s with
  | String "+"%char u => unsigned_decimal u
  | String "-"%char u => x ← unsigned_decimal u; Ok (- x)%float
  | t => unsigned_decimal t
  end.

End PyFloat.

(** ** secondary_structures.py *)

Module SecondaryStructures.
Import PDB PyStr.
Import PrimFloat.

(** One value of [dssp_dict]. *)
Record dssp_record : Type := mkRecord {
  seq_num : Z;
  ss : string;
  bbl1 : string;
  bbl2 : string;
  bp1 : Z;
  bp2 : Z;
  bsl : string;
  nh_to_o1 : Z * float;
  o_to_nh1 : Z * float;
  nh_to_o2 : Z * float;
  o_to_nh2 : Z * float
}.

Abbreviation dssp_key := (string * Z)%type.

(** The names bound at the top level of the module: its five imports, its two
    functions and its six classes. *)
Definition module_globals : list string :=
  ["subprocess"; "np"; "PDB"; "nx"; "geometry";
   "make_dssp_dict"; "pack_dssp_dict_into_ss_list";
   "SecondaryStructure"; "AlphaHelix"; "BetaStrand"; "BetaSheet"; "Loop"].

(** Evaluating a global name that is not a builtin. *)
Definition global_name (name : string) : py unit :=
  if bool_decide (name ∈ module_globals) then Ok tt else Raise (NameError name).

(** The row that ends the header: its second word is [RESIDUE]. *)
Definition is_header (l : string) : Prop := split_ws l !! 1%nat = Some "RESIDUE".

Section Parser.
(** [float(s)], the conversion of the Python runtime. *)
Variable py_float : string -> py float.

(** The header rows: [while len(lines[i].split()) < 2 or
    lines[i].split()[1] != 'RESIDUE': i += 1]; the result is
    [lines[i + 1:]]. *)
Fixpoint skip_header (lines : list string) : py (list string) :=
  match lines with
  | [] => Raise IndexError
  | l :: rest =>
      if (length (split_ws l) <? 2)%nat
         || negb (bool_decide (split_ws l !! 1%nat = Some "RESIDUE"))
      then skip_header rest
      else Ok rest
  end.

(** One hydrogen-bond field [(int(f[0]), float(f[1]))]. *)
Definition hbond_field (f : list string) : py (Z * float) :=
  s0 ← py_index f 0;
  offset ← py_int s0;
  s1 ← py_index f 1;
  energy ← py_float s1;
  Ok (offset, energy).

(** One data row: [None] where the loop takes [continue]. *)
Definition parse_row (l : string) : py (option (dssp_key * dssp_record)) :=
  if bool_decide (String.length (strip l) = 0%nat) then Ok None else
  c9 ← char_at l 9;
  if bool_decide (c9 = " ") then Ok None else
  seq_num ← py_int (slice l 0 5);
  res_id ← py_int (slice l 5 10);
  chain_id ← char_at l 11;
  ss ← char_at l 16;
  bbl1 ← char_at l 23;
  bbl2 ← char_at l 24;
  bp1 ← py_int (slice l 26 29);
  bp2 ← py_int (slice l 30 33);
  bsl ← char_at l 33;
  let nh_to_o1 := split_on ","%char (slice l 39 50) in
  let o_to_nh1 := split_on ","%char (slice l 50 61) in
  let nh_to_o2 := split_on ","%char (slice l 61 72) in
  let o_to_nh2 := split_on ","%char (slice l 72 83) in
  h1 ← hbond_field nh_to_o1;
  h2 ← hbond_field o_to_nh1;
  h3 ← hbond_field nh_to_o2;
  h4 ← hbond_field o_to_nh2;
  Ok (Some ((chain_id, res_id),
            mkRecord seq_num ss bbl1 bbl2 bp1 bp2 bsl h1 h2 h3 h4)).

(** [for l in lines[i + 1:]] on the state [(dssp_dict, key_map)]. *)
Fixpoint parse_rows (ls : list string)
    (dssp_dict : gmap dssp_key dssp_record) (key_map : gmap Z dssp_key)
    : py (gmap dssp_key dssp_record * gmap Z dssp_key) :=
  match ls with
  | [] => Ok (dssp_dict, key_map)
  | l :: ls' =>
      row ← parse_row l;
      match row with
      | None => parse_rows ls' dssp_dict key_map
      | Some (key, rec) =>
          let key_map := <[seq_num rec := key]> key_map in
          let dssp_dict := <[key := rec]> dssp_dict in
          parse_rows ls' dssp_dict key_map
      end
  end.

(** [make_dssp_dict] from the two texts returned by [p.communicate()]. *)
Definition make_dssp_dict (out err : string)
    : py (gmap dssp_key dssp_record * gmap Z dssp_key) :=
  (if bool_decide (strip err ≠ "")
   then
     global_name "warnings";;                          (* warnings.warn(err) *)
     if bool_decide (strip out = "")
     then Raise (Exception "DSSP failed to produce an output")
     else Ok tt
   else Ok tt);;
  let lines := split_on "010"%char out in
  rows ← skip_header lines;
  parse_rows rows ∅ ∅.

(** The data rows of a text that the loop parses, in order. *)
Fixpoint parsed_rows (ls : list string) : list (dssp_key * dssp_record) :=
  match ls with
  | [] => []
  | l :: ls' =>
      match parse_row l with
      | Ok (Some kr) => kr :: parsed_rows ls'
      | _ => parsed_rows ls'
      end
  end.

Definition data_rows (out : string) : list (dssp_key * dssp_record) :=
  match skip_header (split_on "010"%char out) with
  | Ok rows => parsed_rows rows
  | Raise _ => []
  end.
End Parser.

Section Segments.
Context {Coord : Type}.

Inductive SecondaryStructure : Type :=
| AlphaHelix (residue_list : list (Residue Coord))
| BetaStrand (residue_list : list (Residue Coord)) (sheet_id : string)
| Loop (residue_list : list (Residue Coord)) (type : string).

Definition residue_list (s : SecondaryStructure) : list (Residue Coord) :=
  match s with
  | AlphaHelix l => l
  | BetaStrand l _ => l
  | Loop l _ => l
  end.

(** [isinstance(ss, BetaStrand) and ss.sheet_id == sheet_id] *)
Definition is_strand_of (sheet_id : string) (s : SecondaryStructure) : bool :=
  match s with
  | BetaStrand _ id => bool_decide (id = sheet_id)
  | _ => false
  end.

(** The dictionary [ss_map] as first bound. *)
Definition ss_map_init : gmap string string :=
  list_to_map [("H", "H"); ("B", "B"); ("E", "E"); ("G", "G"); ("I", "I"); ("T", "T")].

(** [m.setdefault(k, d)]: the value and the dictionary afterwards. *)
Definition setdefault (m : gmap string string) (k d : string)
    : string * gmap string string :=
  match m !! k with
  | Some v => (v, m)
  | None => (d, <[k := d]> m)
  end.

(** [same_ss], on the shared dictionary [ss_map]. *)
Definition same_ss (ss_map : gmap string string)
    (dssp_dict : gmap dssp_key dssp_record) (key1 key2 : dssp_key)
    : py (bool * gmap string string) :=
  d1 ← py_getitem dssp_dict key1;
  let '(c1, ss_map) := setdefault ss_map (ss d1) " " in
  d2 ← py_getitem dssp_dict key2;
  let '(c2, ss_map) := setdefault ss_map (ss d2) " " in
  if bool_decide (c1 = c2)
  then
    d1' ← py_getitem dssp_dict key1;
    d2' ← py_getitem dssp_dict key2;
    Ok (bool_decide (bsl d1' = bsl d2'), ss_map)
  else Ok (false, ss_map).

(** The segment appended for the run [ss_residue_list] that starts at the
    residue number [start_r_id]. *)
Definition make_segment (ss_map : gmap string string)
    (dssp_dict : gmap dssp_key dssp_record) (c_id : string) (start_r_id : Z)
    (start_ss : string) (ss_residue_list : list (Residue Coord))
    : py (SecondaryStructure * gmap string string) :=
  if bool_decide ("H" = start_ss) then Ok (AlphaHelix ss_residue_list, ss_map)
  else if bool_decide ("E" = start_ss) || bool_decide ("B" = start_ss) then
    d ← py_getitem dssp_dict (c_id, start_r_id);
    Ok (BetaStrand ss_residue_list (bsl d), ss_map)
  else
    let '(t, ss_map) := setdefault ss_map start_ss " " in
    Ok (Loop ss_residue_list t, ss_map).

(** The two loops over one chain.  The outer function stands at
    [residue_list[start:]]; the inner one at [residue_list[stop:]] with the
    residues of [start..stop-1] in [run].  The state is [ss_list] and the
    shared [ss_map]. *)
Fixpoint segment_chain (dssp_dict : gmap dssp_key dssp_record) (c_id : string)
    (from_start : list (Residue Coord))
    (ss_map : gmap string string) (ss_list : list SecondaryStructure)
    {struct from_start}
    : py (list SecondaryStructure * gmap string string) :=
  match from_start with
  | [] => Ok (ss_list, ss_map)
  | start_r :: after_start =>
      let start_r_id := resseq start_r in
      d ← py_getitem dssp_dict (c_id, start_r_id);
      let start_ss := ss d in
      (fix scan (from_stop : list (Residue Coord)) (run : list (Residue Coord))
           (ss_map : gmap string string) {struct from_stop}
           : py (list SecondaryStructure * gmap string string) :=
         match from_stop with
         | [] =>
             '(seg, ss_map) ← make_segment ss_map dssp_dict c_id start_r_id start_ss run;
             Ok (ss_list ++ [seg], ss_map)%list
         | stop_r :: after_stop =>
             let stop_r_id := resseq stop_r in
             '(same, ss_map) ← same_ss ss_map dssp_dict (c_id, start_r_id) (c_id, stop_r_id);
             if (same : bool) then scan after_stop (run ++ [stop_r])%list ss_map
             else
               '(seg, ss_map) ← make_segment ss_map dssp_dict c_id start_r_id start_ss run;
               segment_chain dssp_dict c_id from_stop ss_map (ss_list ++ [seg])%list
         end) after_start [start_r] ss_map
  end.

(** [for chain in model] *)
Fixpoint segment_model (dssp_dict : gmap dssp_key dssp_record)
    (chains : list (Chain Coord))
    (ss_map : gmap string string) (ss_list : list SecondaryStructure)
    : py (list SecondaryStructure * gmap string string) :=
  match chains with
  | [] => Ok (ss_list, ss_map)
  | chain :: rest =>
      '(ss_list, ss_map) ←
        segment_chain dssp_dict (chain_id chain) (chain_residues chain) ss_map ss_list;
      segment_model dssp_dict rest ss_map ss_list
  end.

(** ** The sheet graph: a [networkx.MultiDiGraph]

    Nodes are kept in insertion order without repetition, edges in
    insertion order with repetition; two residues are the same node when
    they have the same full id. *)
Record MultiDiGraph : Type := mkGraph {
  nodes : list (Residue Coord);
  edges : list (Residue Coord * Residue Coord * string)
}.

Definition empty_graph : MultiDiGraph := mkGraph [] [].

(** [res in l] *)
Definition residue_in (res : Residue Coord) (l : list (Residue Coord)) : bool :=
  existsb (same_residue res) l.

Definition add_node (n : Residue Coord) (ns : list (Residue Coord))
    : list (Residue Coord) :=
  if residue_in n ns then ns else (ns ++ [n])%list.

(** [graph.add_edge(u, v, edge_type=t)]: both ends become nodes. *)
Definition add_edge (u v : Residue Coord) (edge_type : string) (g : MultiDiGraph)
    : MultiDiGraph :=
  mkGraph (add_node v (add_node u (nodes g))) (edges g ++ [(u, v, edge_type)])%list.

Definition HB_ENERGY_LIMIT : float := (-1.5)%float.

(** [for i in range(len(l) - 1): add_edge(l[i], l[i + 1], 'pp_bond')] *)
Fixpoint add_pp_bonds (l : list (Residue Coord)) (g : MultiDiGraph) : MultiDiGraph :=
  match l with
  | a :: (b :: _) as l' => add_pp_bonds l' (add_edge a b "pp_bond" g)
  | _ => g
  end.

Fixpoint add_strands (strand_list : list SecondaryStructure) (g : MultiDiGraph)
    : MultiDiGraph :=
  match strand_list with
  | [] => g
  | strand :: rest => add_strands rest (add_pp_bonds (residue_list strand) g)
  end.

(** [model[key[0]][key[1]]] *)
Definition model_residue (model : Model Coord) (key : dssp_key) : py (Residue Coord) :=
  chain ← model_getitem model key.1;
  chain_getitem chain key.2.

(** One of the four [if d[kind][1] < HB_ENERGY_LIMIT] blocks. *)
Definition add_hbond (key_map : gmap Z dssp_key) (model : Model Coord)
    (residues : list (Residue Coord)) (res : Residue Coord) (d : dssp_record)
    (hb : Z * float) (kind : string) (g : MultiDiGraph) : py MultiDiGraph :=
  if ltb hb.2 HB_ENERGY_LIMIT then
    key ← py_getitem key_map (seq_num d + hb.1);
    res2 ← model_residue model key;
    if residue_in res2 residues
    then Ok (add_edge res res2 kind g)
    else Ok g
  else Ok g.

(** The body of [for res in residues]. *)
Definition add_hbonds_of (dssp_dict : gmap dssp_key dssp_record)
    (key_map : gmap Z dssp_key) (model : Model Coord)
    (residues : list (Residue Coord)) (res : Residue Coord) (g : MultiDiGraph)
    : py MultiDiGraph :=
  d ← py_getitem dssp_dict (res_chain res, resseq res);
  g ← add_hbond key_map model residues res d (nh_to_o1 d) "nh_to_o1" g;
  g ← add_hbond key_map model residues res d (o_to_nh1 d) "o_to_nh1" g;
  g ← add_hbond key_map model residues res d (nh_to_o2 d) "nh_to_o2" g;
  add_hbond key_map model residues res d (o_to_nh2 d) "o_to_nh2" g.

Fixpoint add_hbonds (dssp_dict : gmap dssp_key dssp_record)
    (key_map : gmap Z dssp_key) (model : Model Coord)
    (residues : list (Residue Coord)) (todo : list (Residue Coord))
    (g : MultiDiGraph) : py MultiDiGraph :=
  match todo with
  | [] => Ok g
  | res :: rest =>
      g ← add_hbonds_of dssp_dict key_map model residues res g;
      add_hbonds dssp_dict key_map model residues rest g
  end.

(** [[res for strand in strand_list for res in strand.residue_list]] *)
Definition sheet_residues (strand_list : list SecondaryStructure)
    : list (Residue Coord) :=
  concat (map residue_list strand_list).

(** [BetaSheet.init_sheet_graph] *)
Definition init_sheet_graph (strand_list : list SecondaryStructure)
    (dssp_dict : gmap dssp_key dssp_record) (key_map : gmap Z dssp_key)
    (model : Model Coord) : py MultiDiGraph :=
  let graph := add_strands strand_list empty_graph in
  let residues := sheet_residues strand_list in
  add_hbonds dssp_dict key_map model residues residues graph.

Record BetaSheet : Type := mkSheet {
  sheet_id : string;
  strand_list : list SecondaryStructure;
  graph : MultiDiGraph
}.

(** [BetaSheet(sheet_id, strand_list, dssp_dict, key_map, model)] *)
Definition new_BetaSheet (sheet_id : string) (strand_list : list SecondaryStructure)
    (dssp_dict : gmap dssp_key dssp_record) (key_map : gmap Z dssp_key)
    (model : Model Coord) : py BetaSheet :=
  graph ← init_sheet_graph strand_list dssp_dict key_map model;
  Ok (mkSheet sheet_id strand_list graph).

(** [sheet_id_set] after the loop over [ss_list]. *)
Fixpoint sheet_ids (ss_list : list SecondaryStructure) (sheet_id_set : gset string)
    : gset string :=
  match ss_list with
  | [] => sheet_id_set
  | BetaStrand _ id :: rest => sheet_ids rest ({[id]} ∪ sheet_id_set)
  | _ :: rest => sheet_ids rest sheet_id_set
  end.

(** [for sheet_id in sheet_id_set] *)
Fixpoint build_sheets (ss_list : list SecondaryStructure)
    (dssp_dict : gmap dssp_key dssp_record) (key_map : gmap Z dssp_key)
    (model : Model Coord) (ids : list string) (sheet_list : list BetaSheet)
    : py (list BetaSheet) :=
  match ids with
  | [] => Ok sheet_list
  | sheet_id :: rest =>
      sheet ← new_BetaSheet sheet_id (List.filter (is_strand_of sheet_id) ss_list)
                             dssp_dict key_map model;
      build_sheets ss_list dssp_dict key_map model rest (sheet_list ++ [sheet])%list
  end.

Definition pack_dssp_dict_into_ss_list (model : Model Coord)
    (dssp_dict : gmap dssp_key dssp_record) (key_map : gmap Z dssp_key)
    : py (list SecondaryStructure * list BetaSheet) :=
  '(ss_list, _) ← segment_model dssp_dict model ss_map_init [];
  sheet_list ← build_sheets ss_list dssp_dict key_map model
                 (elements (sheet_ids ss_list ∅)) [];
  Ok (ss_list, sheet_list).
(** The four hydrogen-bond keys of a record, and [d[kind]] for them. *)
Definition hbond_kinds : list string :=
  ["nh_to_o1"; "o_to_nh1"; "nh_to_o2"; "o_to_nh2"].

Definition hbond_of (d : dssp_record) (kind : string) : option (Z * float) :=
  if bool_decide (kind = "nh_to_o1") then Some (nh_to_o1 d)
  else if bool_decide (kind = "o_to_nh1") then Some (o_to_nh1 d)
  else if bool_decide (kind = "nh_to_o2") then Some (nh_to_o2 d)
  else if bool_decide (kind = "o_to_nh2") then Some (o_to_nh2 d)
  else None.

(** The descriptor [kind] of [res] passes the energy gate and resolves, through
    its own sequence number plus the offset, to the residue [res2] of the
    model, which is one of [residues]. *)
Definition gated_hbond (dssp_dict : gmap dssp_key dssp_record)
    (key_map : gmap Z dssp_key) (model : Model Coord)
    (residues : list (Residue Coord)) (res res2 : Residue Coord) (kind : string)
    : Prop :=
  exists d hb key,
    dssp_dict !! (res_chain res, resseq res) = Some d /\
    hbond_of d kind = Some hb /\
    ltb hb.2 HB_ENERGY_LIMIT = true /\
    key_map !! (seq_num d + hb.1) = Some key /\
    model_residue model key = Ok res2 /\
    residue_in res2 residues = true.

(** [r] is an end of the edge [e]. *)
Definition endpoint (r : Residue Coord) (e : Residue Coord * Residue Coord * string)
    : Prop :=
  same_residue r e.1.1 = true \/ same_residue r e.1.2 = true.

(** [r] is a node of [g]. *)
Definition is_node (g : MultiDiGraph) (r : Residue Coord) : Prop :=
  residue_in r (nodes g) = true.

(** [ss_map.setdefault(s, ' ')] on the dictionary as first bound. *)
Definition mapped_class (s : string) : string := default " " (ss_map_init !! s).

(** The symbols for which a [BetaStrand] is built. *)
Definition strand_classed (d : dssp_record) : bool :=
  bool_decide ("E" = ss d) || bool_decide ("B" = ss d).

(** A state of the shared dictionary [ss_map]: the first bindings are there,
    and every binding gives the mapped class of its key. *)
Definition ss_map_state (m : gmap string string) : Prop :=
  ss_map_init ⊆ m /\ forall k v, m !! k = Some v -> v = mapped_class k.

(** What [same_ss] compares: the mapped class and the sheet label. *)
Definition segment_key (d : dssp_record) : string * string :=
  (mapped_class (ss d), bsl d).

(** A segment as [pack_dssp_dict_into_ss_list] builds it in the chain [c_id]:
    it is not empty, the record of its first residue decides its class (a
    helix for H, a strand with the sheet label for E and B, else a loop with
    the mapped class), and every further residue has the mapped class and
    sheet label of the first. *)
Definition segment_of_run (dssp_dict : gmap dssp_key dssp_record) (c_id : string)
    (s : SecondaryStructure) : Prop :=
  exists first rest d,
    residue_list s = first :: rest /\
    dssp_dict !! (c_id, resseq first) = Some d /\
    Forall (fun r => exists d', dssp_dict !! (c_id, resseq r) = Some d' /\
                                segment_key d' = segment_key d) rest /\
    match s with
    | AlphaHelix _ => ss d = "H"
    | BetaStrand _ id => (ss d = "E" \/ ss d = "B") /\ id = bsl d
    | Loop _ t => ss d <> "H" /\ ss d <> "E" /\ ss d <> "B" /\ t = mapped_class (ss d)
    end.

(** The first residues of two segments are told apart by [same_ss]. *)
Definition segments_differ (dssp_dict : gmap dssp_key dssp_record) (c_id : string)
    (s1 s2 : SecondaryStructure) : Prop :=
  exists r1 r2 d1 d2,
    head (residue_list s1) = Some r1 /\ head (residue_list s2) = Some r2 /\
    dssp_dict !! (c_id, resseq r1) = Some d1 /\
    dssp_dict !! (c_id, resseq r2) = Some d2 /\
    segment_key d1 <> segment_key d2.

(** Every descriptor of [res] that passes the energy gate resolves: [res] has
    a record, and for each of its four descriptors with an energy below the
    limit the partner's sequence number is a key of [key_map] whose value
    names a residue of the model. *)
Definition hbonds_resolve (dssp_dict : gmap dssp_key dssp_record)
    (key_map : gmap Z dssp_key) (model : Model Coord) (res : Residue Coord) : Prop :=
  exists d, dssp_dict !! (res_chain res, resseq res) = Some d /\
    forall kind hb, hbond_of d kind = Some hb -> ltb hb.2 HB_ENERGY_LIMIT = true ->
      exists key res2, key_map !! (seq_num d + hb.1) = Some key /\
                       model_residue model key = Ok res2.
End Segments.

End SecondaryStructures.

(** ** The brute-force index over the real numbers

    [BruteForce.kd_query] for the coordinates of [FrameMath]: the indices by
    increasing squared distance, padded with [len(data)]. *)

Module BruteForceR.
Import FrameMath.
Local Open Scope R_scope.

Definition sqdist (p q : V3) : R := dot (vsub p q) (vsub p q).

Fixpoint insert_by (d : nat -> R) (i : nat) (l : list nat) : list nat :=
  match l with
  | [] => [i]
  | j :: l' => if Rle_dec (d i) (d j) then i :: j :: l' else j :: insert_by d i l'
  end.

Definition kd_query (data : list V3) (x : V3) : list nat :=
  let d i := match data !! i with Some p => sqdist p x | None => 0 end in
  let sorted := foldr (insert_by d) [] (seq 0 (length data)) in
  take 4 (sorted ++ replicate 4 (length data)).

End BruteForceR.

(** ** geometry.py: random unit vectors and rotations

    The random source is the sequence of the vectors that the successive calls
    of [np.random.normal(size=3)] return; a function hands back the draws it
    has not used.  [None] stands for a loop that is still drawing when the
    given draws are used up. *)

Module RandomGeometry.
Import FrameMath.
Local Open Scope R_scope.

(** [while True: v = np.random.normal(size=dim); if norm(v) > 0: break] and
    [return normalize(v)]. *)
Fixpoint random_unit_vector (draws : list V3) : option (V3 * list V3) :=
  match draws with
  | [] => None
  | v :: rest =>
      if Rlt_dec 0 (norm v) then Some (normalize v, rest)
      else random_unit_vector rest
  end.

(** [while np.linalg.norm(x - t) == 0: t = random_unit_vector()].  A draw of
    norm zero is passed over inside [random_unit_vector], which leaves [t] as
    it is. *)
Fixpoint redraw_t (x t : V3) (draws : list V3) : option (V3 * list V3) :=
  if Req_dec_T (norm (vsub x t)) 0 then
    match draws with
    | [] => None
    | v :: rest =>
        if Rlt_dec 0 (norm v) then redraw_t x (normalize v) rest
        else redraw_t x t rest
    end
  else Some (t, draws).

Definition random_rotation_matrix (draws : list V3) : option (M33 * list V3) :=
  '(x, draws) ← random_unit_vector draws;
  '(t, draws) ← random_unit_vector draws;
  '(t, draws) ← redraw_t x t draws;
  let y := normalize (cross x t) in
  let z := cross x y in
  Some ((x, y, z), draws).

Definition random_euler_angles (draws : list V3) : option (R * R * R * list V3) :=
  '(m, draws) ← random_rotation_matrix draws;
  Some (rotation_matrix_to_euler_angles m, draws).

End RandomGeometry.

(** ** Concrete structures *)

Module Examples.
Import PDB.

(** A residue of chain [c] with number [n], insertion code [ic] and a single
    CA atom at [(x, 0, 0)]. *)
Definition ca_residue (c : string) (n : Z) (ic : string) (x : Z)
    : Residue BruteForce.Z3 :=
  mkResidue c (" ", n, ic) [mkAtom "CA" (x, 0, 0)].

(** Chain A, residues 1 to 4; residue 2 lies far from the other three.  All
    distances from one centre to the others differ, so the order of the
    neighbours does not depend on how the index breaks ties. *)
Definition far_r1 := ca_residue "A" 1 " " 0.
Definition far_r2 := ca_residue "A" 2 " " 20.
Definition far_r3 := ca_residue "A" 3 " " 1.
Definition far_r4 := ca_residue "A" 4 " " 3.
Definition far_model : Model BruteForce.Z3 :=
  [mkChain "A" [far_r1; far_r2; far_r3; far_r4]].

(** Chain A, residues 4, 5, 6 and 6A close together, residue 9 far away;
    again all distances from one centre differ. *)
Definition ins_r4 := ca_residue "A" 4 " " (-4).
Definition ins_r5 := ca_residue "A" 5 " " 0.
Definition ins_r6 := ca_residue "A" 6 " " 1.
Definition ins_r6A := ca_residue "A" 6 "A" 3.
Definition ins_r9 := ca_residue "A" 9 " " 50.
Definition ins_model : Model BruteForce.Z3 :=
  [mkChain "A" [ins_r4; ins_r5; ins_r6; ins_r6A; ins_r9]].

Definition quarter_turn : FrameMath.M33 :=
  ((0, -1, 0), (1, 0, 0), (0, 0, 1))%R.

(** A chain of two residues; residue 1 has no predecessor. *)
Definition end_r1 : Residue FrameMath.V3 :=
  mkResidue "A" (" ", 1, " ")
    [mkAtom "N" (1, 0, 0)%R; mkAtom "CA" (0, 0, 0)%R; mkAtom "C" (0, 1, 0)%R].
Definition end_r2 : Residue FrameMath.V3 :=
  mkResidue "A" (" ", 2, " ")
    [mkAtom "N" (1, 0, 5)%R; mkAtom "CA" (0, 0, 5)%R; mkAtom "C" (0, 1, 5)%R].
Definition end_model : Model FrameMath.V3 := [mkChain "A" [end_r1; end_r2]].
Definition zero_dihedral (a b c d : FrameMath.V3) : R := 0%R.

(** The text of a structural assignment for a hairpin of five residues:
    strands 1-2 and 4-5 of sheet A joined by the turn residue 3, followed by a
    chain-break row.  The hydrogen bond of residue 2 has energy -1.5, the one
    of residue 4 has energy -1.51. *)
Definition hairpin_lines : list string :=
  ["==== Secondary Structure Definition ==== ";
   "  #  RESIDUE AA STRUCTURE BP1 BP2  ACC     N-H-->O    O-->H-N    N-H-->O    O-->H-N";
   "    1    1 A K  E      a    5   0A 100      4,-2.0     4,-1.8      0,0.0      0,0.0";
   "    2    2 A V  E      a    4   0A  50      2,-1.5      0,0.0      0,0.0      0,0.0";
   "    3    3 A G  T           0   0  120       0,0.0      0,0.0      0,0.0      0,0.0";
   "    4    4 A T  E      a    2   0A  60       0,0.0   -2,-1.51      0,0.0      0,0.0";
   "    5    5 A Y  E      a    1   0A  90     -4,-2.3      0,0.0      0,0.0    -2,-2.0";
   "    6        !              0   0    0      0, 0.0     0, 0.0     0, 0.0     0, 0.0";
   ""].
Definition hairpin_out : string := String.concat (String "010"%char "") hairpin_lines.

(** The hairpin as a loaded model; the secondary-structure code reads no
    coordinates. *)
Definition hairpin_residue (n : Z) : Residue unit :=
  mkResidue "A" (" ", n, " ") [mkAtom "N" tt; mkAtom "CA" tt; mkAtom "C" tt].
Definition hairpin_model : Model unit :=
  [mkChain "A" (map hairpin_residue [1; 2; 3; 4; 5])].

(** The two dictionaries parsed from a text ([∅] where the parser raises). *)
Definition dssp_dict_of (out : string) : gmap (string * Z) SecondaryStructures.dssp_record :=
  match SecondaryStructures.make_dssp_dict PyFloat.py_float out "" with
  | Ok (d, _) => d
  | Raise _ => ∅
  end.
Definition key_map_of (out : string) : gmap Z (string * Z) :=
  match SecondaryStructures.make_dssp_dict PyFloat.py_float out "" with
  | Ok (_, k) => k
  | Raise _ => ∅
  end.

Definition hairpin_strands : list (@SecondaryStructures.SecondaryStructure unit) :=
  [SecondaryStructures.BetaStrand [hairpin_residue 1; hairpin_residue 2] "A";
   SecondaryStructures.BetaStrand [hairpin_residue 4; hairpin_residue 5] "A"].

(** Two helix residues; the rows carry different sheet labels. *)
Definition helix_lines : list string :=
  ["  #  RESIDUE AA STRUCTURE BP1 BP2  ACC     N-H-->O    O-->H-N    N-H-->O    O-->H-N";
   "    1    1 A A  H           0   0A  10       0,0.0      0,0.0      0,0.0      0,0.0";
   "    2    2 A L  H           0   0   12       0,0.0      0,0.0      0,0.0      0,0.0"].
Definition helix_out : string := String.concat (String "010"%char "") helix_lines.
Definition helix_model : Model unit :=
  [mkChain "A" (map hairpin_residue [1; 2])].

(** An isolated bridge residue of sheet A between two loop residues; its
    hydrogen bonds are weaker than the limit. *)
Definition bridge_lines : list string :=
  ["  #  RESIDUE AA STRUCTURE BP1 BP2  ACC     N-H-->O    O-->H-N    N-H-->O    O-->H-N";
   "    1    1 A G              0   0   80       0,0.0      0,0.0      0,0.0      0,0.0";
   "    2    2 A V  B      a    9   0A  30      7,-0.9     7,-1.2      0,0.0      0,0.0";
   "    3    3 A S              0   0   70       0,0.0      0,0.0      0,0.0      0,0.0"].
Definition bridge_out : string := String.concat (String "010"%char "") bridge_lines.
Definition bridge_model : Model unit :=
  [mkChain "A" (map hairpin_residue [1; 2; 3])].


(** A chain of four residues, each with N, CA and C; the frames of residues 2
    and 3 are not degenerate. *)
Definition mid_residue (n : Z) (x : R) : Residue FrameMath.V3 :=
  mkResidue "A" (" ", n, " ")
    [mkAtom "N" (x + 1, 0, 0)%R; mkAtom "CA" (x, 0, 0)%R; mkAtom "C" (x, 1, 0)%R].
Definition mid_model : Model FrameMath.V3 :=
  [mkChain "A" [mid_residue 1 0; mid_residue 2 4; mid_residue 3 8; mid_residue 4 12]].

(** A chain whose residue 1 is a hetero residue (a selenomethionine) with the
    three backbone atoms, followed by residue 2. *)
Definition het_r1 : Residue FrameMath.V3 :=
  mkResidue "A" ("H_MSE", 1, " ")
    [mkAtom "N" (1, 0, 0)%R; mkAtom "CA" (0, 0, 0)%R; mkAtom "C" (0, 1, 0)%R].
Definition het_chain : Chain FrameMath.V3 := mkChain "A" [het_r1; end_r2].

End Examples.

(** * Properties *)

(** ** The error monad *)

Lemma py_bind_Ok {A B} (m : py A) (f : A -> py B) (b : B) :
  m ≫= f = Ok b -> exists a, m = Ok a /\ f a = Ok b.
Proof. destruct m as [a|e]; [by exists a | done]. Qed.

Lemma py_bind_Raise {A B} (m : py A) (f : A -> py B) (e : exn) :
  m = Raise e -> m ≫= f = Raise e.
Proof. by intros ->. Qed.

Lemma py_index_Ok {A} (l : list A) (i : nat) (x : A) :
  py_index l i = Ok x <-> l !! i = Some x.
Proof. unfold py_index. destruct (l !! i); split; congruence. Qed.

Lemma py_getitem_Ok `{Countable K} {V} (d : gmap K V) (k : K) (v : V) :
  py_getitem d k = Ok v <-> d !! k = Some v.
Proof. unfold py_getitem. destruct (d !! k); split; congruence. Qed.

Lemma py_bind_Raise_inv {A B} (m : py A) (f : A -> py B) (e : exn) :
  m ≫= f = Raise e -> m = Raise e \/ exists a, m = Ok a /\ f a = Raise e.
Proof. destruct m as [a|e']; simpl; [eauto | intros H; left; congruence]. Qed.

Ltac bind_inv H :=
  let a := fresh "a" in
  let Ha := fresh "H" a in
  apply py_bind_Ok in H as (a & Ha & H).

(** ** The neighbour search *)

Module NeighborFinderFacts.
Import PDB NeighborFinder Examples.

Section Generic.
Context {Coord : Type}.
Variable kd_query : list Coord -> Coord -> list nat.

(** The state of the inner loop after its last turn is the residue at the
    last inspected index, whatever the bond test said. *)
Lemma inspect_keeps_last (ca_list : list (Residue Coord * Atom Coord))
    (indices : list nat) (res1 : Residue Coord) (js : list nat)
    (res2 r : option (Residue Coord)) :
  inspect ca_list indices res1 js res2 = Ok r ->
  r = match last js with
      | Some j => k ← indices !! j; a ← ca_list !! k; Some a.1
      | None => res2
      end.
Proof.
  revert res2. induction js as [|j js IH]; intros res2 H; simpl in H.
  - by inversion H.
  - apply py_bind_Ok in H as (k & Hk%py_index_Ok & H).
    apply py_bind_Ok in H as (a & Ha%py_index_Ok & H). cbv zeta in H.
    assert (H' : inspect ca_list indices res1 js (Some a.1) = Ok r)
      by (by destruct (bonded res1 a.1)).
    apply IH in H'. rewrite H'.
    destruct js as [|j' js'].
    + simpl. by rewrite Hk; simpl; rewrite Ha.
    + change (last (j :: j' :: js')) with (last (j' :: js')).
      destruct (last (j' :: js')) eqn:E; [reflexivity|].
      by apply last_None in E.
Qed.

(** Each emitted pair joins the query residue to its third candidate. *)
Lemma query_one_third (ca_list : list (Residue Coord * Atom Coord))
    (ca_coords : list Coord) (i : nat) (res1 res2 : Residue Coord) :
  query_one kd_query ca_list ca_coords i = Ok (res1, res2) ->
  exists x k a, ca_coords !! i = Some x /\ kd_query ca_coords x !! 3%nat = Some k /\
                ca_list !! k = Some a /\ res2 = a.1.
Proof.
  unfold query_one. intros H.
  apply py_bind_Ok in H as (a0 & _ & H).
  apply py_bind_Ok in H as (x & Hx%py_index_Ok & H).
  apply py_bind_Ok in H as (r & Hi & H).
  apply inspect_keeps_last in Hi. simpl in Hi.
  destruct r as [r|]; [|done]. inversion H; subst.
  destruct (kd_query ca_coords x !! 3%nat) as [k|] eqn:Hk; simpl in Hi; [|done].
  destruct (ca_list !! k) as [a|] eqn:Ha; simpl in Hi; [|done].
  exists x, k, a. inversion Hi. auto.
Qed.

Lemma query_all_spec (ca_list : list (Residue Coord * Atom Coord))
    (ca_coords : list Coord) (idxs : list nat)
    (acc l : list (Residue Coord * Residue Coord)) :
  query_all kd_query ca_list ca_coords idxs acc = Ok l ->
  exists new, l = (acc ++ new)%list /\
              Forall2 (fun i p => query_one kd_query ca_list ca_coords i = Ok p) idxs new.
Proof.
  revert acc. induction idxs as [|i idxs IH]; intros acc H; simpl in H.
  - inversion H; subst. exists []. by rewrite app_nil_r.
  - apply py_bind_Ok in H as (p & Hp & H).
    apply IH in H as (new & -> & Hnew).
    exists (p :: new). rewrite <- app_assoc. split; [done|]. by constructor.
Qed.

(** Whenever the function returns, it returns one pair for each centre, in
    order, bonded or not. *)
Lemma get_nearest_nonbonded_residues_one_pair_each (model : Model Coord)
    (l : list (Residue Coord * Residue Coord)) :
  get_nearest_nonbonded_residues kd_query model = Ok l ->
  length l = length (ca_list_of model) /\
  forall (i : nat) p, l !! i = Some p ->
    query_one kd_query (ca_list_of model)
      (map (fun a => atom_coord a.2) (ca_list_of model)) i = Ok p.
Proof.
  unfold get_nearest_nonbonded_residues.
  destruct (map _ (ca_list_of model)) as [|c cs] eqn:Hc; [done|].
  rewrite <- Hc. clear Hc c cs. intros H.
  apply query_all_spec in H as (new & -> & Hnew). simpl.
  split.
  - apply Forall2_length in Hnew. by rewrite length_seq in Hnew.
  - intros i p Hi.
    destruct (Forall2_lookup_r _ _ _ _ _ Hnew Hi) as (j & Hj & Hq).
    apply lookup_seq in Hj as [-> _]. done.
Qed.
End Generic.

(** C1: the claim that no returned pair joins two residues of one chain with
    consecutive numbers fails on the model [far_model]: the third nearest
    centre of residue 1 is residue 2 of the same chain, and the pair
    (residue 1, residue 2) is returned. *)
Theorem C1_bonded_pair_returned :
  exists l, get_nearest_nonbonded_residues BruteForce.kd_query far_model = Ok l /\
            In (far_r1, far_r2) l /\
            res_chain far_r1 = res_chain far_r2 /\
            resseq far_r2 - resseq far_r1 = 1.
Proof.
  eexists. split; [vm_compute; reflexivity|].
  split; [left; reflexivity|]. split; reflexivity.
Qed.

(** C2: the claim that the last candidate that passed the bond test is kept,
    and that a pair is emitted only when some candidate passed, fails.  In
    [far_model] residue 1 inspects residues 3, 4, 2; residues 3 and 4 pass,
    residue 2 is bonded, and residue 2 is kept.  In [ins_model] all three
    candidates of residue 5 are bonded to it, and a pair is emitted for
    residue 5 all the same. *)
Theorem C2_last_inspected_kept_even_if_bonded :
  let ca_list := ca_list_of far_model in
  let ca_coords := map (fun a => atom_coord a.2) ca_list in
  let ca_list' := ca_list_of ins_model in
  let ca_coords' := map (fun a => atom_coord a.2) ca_list' in
  (candidates BruteForce.kd_query ca_list ca_coords 0 = [far_r3; far_r4; far_r2] /\
   map (bonded far_r1) [far_r3; far_r4; far_r2] = [false; false; true] /\
   query_one BruteForce.kd_query ca_list ca_coords 0 = Ok (far_r1, far_r2)) /\
  (candidates BruteForce.kd_query ca_list' ca_coords' 1 = [ins_r6; ins_r6A; ins_r4] /\
   map (bonded ins_r5) [ins_r6; ins_r6A; ins_r4] = [true; true; true] /\
   exists l, get_nearest_nonbonded_residues BruteForce.kd_query ins_model = Ok l /\
             In (ins_r5, ins_r4) l).
Proof.
  repeat split; try (vm_compute; reflexivity).
  eexists. split; [vm_compute; reflexivity|]. right; left; reflexivity.
Qed.

End NeighborFinderFacts.

(** ** Frames and Euler angles *)

Module FrameMathFacts.
Import PDB FrameMath Examples.
Local Open Scope R_scope.

Ltac v3_destruct :=
  repeat match goal with
         | v : V3 |- _ => destruct v as [[? ?] ?]
         end;
  unfold norm, dot, cross, vsub, vdiv, vx, vy, vz in *; simpl in *.

Ltac v3_eq := f_equal; [f_equal|].

Lemma dot_self_nonneg (v : V3) : 0 <= dot v v.
Proof. v3_destruct. nra. Qed.

Lemma dot_self_zero (v : V3) : dot v v = 0 -> v = (0, 0, 0).
Proof.
  v3_destruct. intros H.
  assert (r = 0) by nra. assert (r0 = 0) by nra. assert (r1 = 0) by nra.
  by subst.
Qed.

Lemma norm_pos (v : V3) : v <> (0, 0, 0) -> 0 < norm v.
Proof.
  intros Hv. unfold norm. apply sqrt_lt_R0.
  pose proof (dot_self_nonneg v) as [H|H]; [done|].
  symmetry in H. by apply dot_self_zero in H.
Qed.

Lemma norm_sqr (v : V3) : norm v * norm v = dot v v.
Proof. unfold norm. apply sqrt_sqrt, dot_self_nonneg. Qed.

Lemma normalize_nonzero (v : V3) :
  v <> (0, 0, 0) -> normalize v = vdiv v (norm v).
Proof.
  intros Hv. unfold normalize.
  destruct (Req_dec_T (norm v) 0) as [E|_]; [|done].
  pose proof (norm_pos v Hv). lra.
Qed.

Lemma dot_vdiv (v : V3) (s : R) :
  s <> 0 -> dot (vdiv v s) (vdiv v s) = dot v v / (s * s).
Proof. intros Hs. v3_destruct. by field. Qed.

Lemma normalize_unit (v : V3) :
  v <> (0, 0, 0) -> dot (normalize v) (normalize v) = 1.
Proof.
  intros Hv. rewrite (normalize_nonzero v Hv).
  pose proof (norm_pos v Hv) as Hn.
  rewrite dot_vdiv by lra. rewrite norm_sqr.
  field. rewrite <- norm_sqr. nra.
Qed.

Lemma dot_cross_left (a b : V3) : dot a (cross a b) = 0.
Proof. v3_destruct. ring. Qed.


Lemma dot_comm (a b : V3) : dot a b = dot b a.
Proof. v3_destruct. ring. Qed.

Lemma dot_vdiv_r (a b : V3) (s : R) : s <> 0 -> dot a (vdiv b s) = dot a b / s.
Proof. intros Hs. v3_destruct. by field. Qed.



(** Lagrange's identity. *)
Lemma dot_cross_cross (a b : V3) :
  dot (cross a b) (cross a b) = dot a a * dot b b - dot a b * dot a b.
Proof. v3_destruct. ring. Qed.



Lemma det_transpose_rows (x y z : V3) :
  det (transpose (x, y, z)) = dot x (cross y z).
Proof.
  destruct x as [[? ?] ?], y as [[? ?] ?], z as [[? ?] ?].
  unfold det, transpose, row0, row1, row2, m00, m01, m02, m10, m11, m12,
    m20, m21, m22, dot, cross, vx, vy, vz; simpl. ring.
Qed.

Lemma transpose_cols (x y z : V3) :
  col0 (transpose (x, y, z)) = x /\ col1 (transpose (x, y, z)) = y /\
  col2 (transpose (x, y, z)) = z.
Proof. by destruct x as [[? ?] ?], y as [[? ?] ?], z as [[? ?] ?]. Qed.



Lemma sqrt_one_plus_sq (x y : R) :
  x <> 0 -> sqrt (1 + (y / x)²) = sqrt (x * x + y * y) / Rabs x.
Proof.
  intros Hx.
  replace (1 + (y / x)²) with ((x * x + y * y) / (x * x))
    by (unfold Rsqr; by field).
  rewrite sqrt_div_alt by nra.
  f_equal. change (x * x) with (Rsqr x). apply sqrt_Rsqr_abs.
Qed.

(** The cosine and sine of [arctan2 y x] are [x / r] and [y / r]. *)
Lemma arctan2_cos_sin (y x : R) :
  let r := sqrt (x * x + y * y) in
  0 < r ->
  cos (arctan2 y x) = x / r /\ sin (arctan2 y x) = y / r.
Proof.
  intros r Hr. unfold arctan2.
  destruct (Rlt_dec 0 x) as [Hx|Hx].
  - rewrite cos_atan, sin_atan, sqrt_one_plus_sq by lra.
    rewrite Rabs_pos_eq by lra. fold r. split; field; lra.
  - destruct (Rlt_dec x 0) as [Hx'|Hx'].
    + assert (E : sqrt (1 + (y / x)²) = r / - x).
      { rewrite sqrt_one_plus_sq by lra. rewrite Rabs_left by lra. done. }
      destruct (Rle_dec 0 y) as [Hy|Hy].
      * rewrite neg_cos, neg_sin, cos_atan, sin_atan, E. split; field; lra.
      * unfold Rminus. rewrite cos_plus, sin_plus, cos_neg, sin_neg, cos_PI, sin_PI.
        rewrite cos_atan, sin_atan, E. split; field; lra.
    + assert (x = 0) by lra. subst x.
      assert (Er : r = Rabs y).
      { unfold r. replace (0 * 0 + y * y) with (Rsqr y) by (unfold Rsqr; ring).
        apply sqrt_Rsqr_abs. }
      destruct (Rlt_dec 0 y) as [Hy|Hy].
      * rewrite cos_PI2, sin_PI2, Er, Rabs_pos_eq by lra. split; field; lra.
      * destruct (Rlt_dec y 0) as [Hy'|Hy'].
        -- rewrite cos_neg, sin_neg, cos_PI2, sin_PI2, Er, Rabs_left by lra.
           split; field; lra.
        -- assert (y = 0) by lra. subst y. rewrite Rabs_R0 in Er. lra.
Qed.


Lemma unit_triple_cross (A B C : V3) :
  dot A A = 1 -> dot B B = 1 -> dot C C = 1 -> dot B C = 0 ->
  dot A (cross B C) = 1 -> A = cross B C.
Proof.
  intros HA HB HC HBC Hdet.
  assert (H0 : dot (vsub A (cross B C)) (vsub A (cross B C)) = 0).
  { replace (dot (vsub A (cross B C)) (vsub A (cross B C)))
      with (dot A A - 2 * dot A (cross B C) + dot (cross B C) (cross B C))
      by (destruct A as [[? ?] ?], B as [[? ?] ?], C as [[? ?] ?];
          unfold dot, cross, vsub, vx, vy, vz; simpl; ring).
    rewrite dot_cross_cross, HA, HB, HC, HBC, Hdet. ring. }
  apply dot_self_zero in H0.
  destruct A as [[a1 a2] a3], (cross B C) as [[p1 p2] p3].
  unfold vsub, vx, vy, vz in H0; simpl in H0.
  assert (a1 - p1 = 0) by congruence.
  assert (a2 - p2 = 0) by congruence.
  assert (a3 - p3 = 0) by congruence.
  v3_eq; lra.
Qed.

(** The polynomial identities behind the round trip; [U] is the inverse of
    [C], the cosine of the second angle. *)
Lemma rebuild_entries (a b c d e f g h i C U : R) :
  U * C = 1 -> C * C = h * h + i * i ->
  a * a + b * b + c * c = 1 -> d * d + e * e + f * f = 1 -> g * g + h * h + i * i = 1 ->
  a * d + b * e + c * f = 0 -> a * g + b * h + c * i = 0 -> d * g + e * h + f * i = 0 ->
  a = e * i - f * h -> b = f * g - d * i -> c = d * h - e * g ->
  d = h * c - i * b -> e = i * a - g * c -> f = g * b - h * a ->
  a * U * (- g) * (h * U) - d * U * (i * U) = b /\
  a * U * (- g) * (i * U) + d * U * (h * U) = c /\
  d * U * (- g) * (h * U) + a * U * (i * U) = e /\
  d * U * (- g) * (i * U) - a * U * (h * U) = f /\
  a * a + d * d = C * C.
Proof. intros. repeat split; nsatz. Qed.

Ltac rows_of H :=
  cbv [matmul identity row0 row1 row2 col0 col1 col2 transpose
       m00 m01 m02 m10 m11 m12 m20 m21 m22 vx vy vz fst snd] in H.

(** C3: for a rotation matrix that is not at gimbal lock (its entries [2][1]
    and [2][2] are not both zero), [euler_angles_to_rotation_matrix] applied
    to the angles of [rotation_matrix_to_euler_angles] gives the matrix back,
    and it is the product Rz · Ry · Rx.  Over the real numbers the round trip
    is exact, hence within every tolerance. *)
Theorem C3_euler_round_trip (m : M33) :
  is_rotation m ->
  ~ (m21 m = 0 /\ m22 m = 0) ->
  let angles := rotation_matrix_to_euler_angles m in
  let m' := euler_angles_to_rotation_matrix angles.1.1 angles.1.2 angles.2 in
  m' = m /\
  m' = matmul (rot_Z angles.2) (matmul (rot_Y angles.1.2) (rot_X angles.1.1)).
Proof.
  intros [Horth Hdet] Hlock angles m'. split; [|reflexivity].
  destruct m as [[[[a b] c] [[d e] f]] [[g h] i]].
  unfold m21, m22, vx, vy, vz, row2 in Hlock; simpl in Hlock.
  (* the rows are orthonormal and right-handed *)
  assert (Hr0 : dot (a, b, c) (a, b, c) = 1) by
    (rows_of Horth; congruence).
  assert (Hr1 : dot (d, e, f) (d, e, f) = 1) by
    (rows_of Horth; congruence).
  assert (Hr2 : dot (g, h, i) (g, h, i) = 1) by
    (rows_of Horth; congruence).
  assert (H01 : dot (a, b, c) (d, e, f) = 0) by
    (rows_of Horth; congruence).
  assert (H02 : dot (a, b, c) (g, h, i) = 0) by
    (rows_of Horth; congruence).
  assert (H12 : dot (d, e, f) (g, h, i) = 0) by
    (rows_of Horth; congruence).
  assert (Hd : dot (a, b, c) (cross (d, e, f) (g, h, i)) = 1) by exact Hdet.
  assert (Hd' : dot (d, e, f) (cross (g, h, i) (a, b, c)) = 1).
  { rewrite <- Hd. unfold dot, cross, vx, vy, vz; simpl. ring. }
  pose proof (unit_triple_cross _ _ _ Hr0 Hr1 Hr2 H12 Hd) as Hc0.
  assert (H20 : dot (g, h, i) (a, b, c) = 0) by (by rewrite dot_comm).
  pose proof (unit_triple_cross _ _ _ Hr1 Hr2 Hr0 H20 Hd') as Hc1.
  unfold cross, vx, vy, vz in Hc0, Hc1; simpl in Hc0, Hc1.
  unfold dot, vx, vy, vz in Hr0, Hr1, Hr2, H01, H02, H12; simpl in *.
  assert (Ea : a = e * i - f * h) by congruence.
  assert (Eb : b = f * g - d * i) by congruence.
  assert (Ec : c = d * h - e * g) by congruence.
  assert (Ed : d = h * c - i * b) by congruence.
  assert (Ee : e = i * a - g * c) by congruence.
  assert (Ef : f = g * b - h * a) by congruence.
  clear Hc0 Hc1 Hd Hd' H20 Hdet Horth.
  (* the cosine of the second angle *)
  set (C := sqrt (h ^ 2 + i ^ 2)).
  assert (Hhi : 0 < h ^ 2 + i ^ 2).
  { destruct (Req_dec h 0) as [->|Hh].
    - destruct (Req_dec i 0) as [->|Hi]; [tauto | nra].
    - nra. }
  assert (HC : 0 < C) by (by apply sqrt_lt_R0).
  assert (HCC : C * C = h * h + i * i).
  { unfold C. rewrite sqrt_sqrt by lra. ring. }
  destruct (rebuild_entries a b c d e f g h i C (/ C))
    as (Rb & Rc & Re & Rf & Had); try done.
  { field. lra. }
  (* the three angles *)
  destruct (arctan2_cos_sin h i) as [Hcx Hsx].
  { replace (i * i + h * h) with (h ^ 2 + i ^ 2) by ring. exact HC. }
  replace (i * i + h * h) with (h ^ 2 + i ^ 2) in Hcx, Hsx by ring. fold C in Hcx, Hsx.
  assert (E1 : sqrt (C * C + - g * - g) = 1).
  { replace (C * C + - g * - g) with 1 by nra. apply sqrt_1. }
  destruct (arctan2_cos_sin (- g) C) as [Hcy Hsy]; [rewrite E1; lra|].
  rewrite E1 in Hcy, Hsy.
  assert (E2 : sqrt (a * a + d * d) = C).
  { rewrite Had. apply sqrt_square. lra. }
  destruct (arctan2_cos_sin d a) as [Hcz Hsz]; [rewrite E2; lra|].
  rewrite E2 in Hcz, Hsz.
  subst m' angles.
  unfold rotation_matrix_to_euler_angles, euler_angles_to_rotation_matrix.
  unfold m00, m10, m20, m21, m22, row0, row1, row2, vx, vy, vz. simpl.
  change (sqrt (h * (h * 1) + i * (i * 1))) with C.
  unfold rot_X, rot_Y, rot_Z. rewrite Hcx, Hsx, Hcy, Hsy, Hcz, Hsz.
  unfold matmul, col0, col1, col2, transpose, row0, row1, row2,
    m00, m01, m02, m10, m11, m12, m20, m21, m22, dot, vx, vy, vz. simpl.
  unfold Rdiv in *.
  f_equal; [f_equal|]; (f_equal; [f_equal|]).
  - field; lra.
  - etransitivity; [|exact Rb]. field; lra.
  - etransitivity; [|exact Rc]. field; lra.
  - field; lra.
  - etransitivity; [|exact Re]. field; lra.
  - etransitivity; [|exact Rf]. field; lra.
  - field; lra.
  - field; lra.
  - field; lra.
Qed.




(** The round trip of the quarter turn about the z axis. *)
Lemma C3_euler_round_trip_witness :
  let angles := rotation_matrix_to_euler_angles quarter_turn in
  let m' := euler_angles_to_rotation_matrix angles.1.1 angles.1.2 angles.2 in
  m' = quarter_turn /\
  m' = matmul (rot_Z angles.2) (matmul (rot_Y angles.1.2) (rot_X angles.1.1)).
Proof.
  apply (C3_euler_round_trip quarter_turn).
  - split.
    + unfold quarter_turn, matmul, identity, col0, col1, col2, transpose,
        row0, row1, row2, m00, m01, m02, m10, m11, m12, m20, m21, m22,
        dot, vx, vy, vz; simpl.
      f_equal; [f_equal|]; (f_equal; [f_equal|]); ring.
    + unfold quarter_turn, det, row0, row1, row2, dot, cross, vx, vy, vz; simpl. ring.
  - unfold quarter_turn, m21, m22, row2, vy, vz; simpl. lra.
Defined.
End FrameMathFacts.

(** ** The extraction loop *)

Module EncoderFacts.
Import PDB FrameMath Torsion BackboneMicroEnvironmentFeature Examples.


Section Encoder.
Variable calc_dihedral : V3 -> V3 -> V3 -> V3 -> R.

Lemma chain_getitem_unavailable (chain : Chain V3) (n : Z) :
  adjacent_unavailable chain n -> chain_getitem chain n = Raise KeyError.
Proof.
  intros Hun. unfold chain_getitem.
  destruct (find _ _) as [r|] eqn:Hf; [|done].
  apply find_some in Hf as [Hin Hid]. apply bool_decide_eq_true in Hid.
  specialize (Hun r Hin). unfold resseq, icode, flag in Hun. rewrite Hid in Hun.
  by specialize (Hun eq_refl eq_refl).
Qed.

Lemma get_phi_unavailable (chain : Chain V3) (r : Residue V3) :
  adjacent_unavailable chain (resseq r - 1) ->
  get_phi calc_dihedral chain r = Raise KeyError.
Proof.
  intros H. unfold get_phi. fold (resseq r).
  by rewrite (chain_getitem_unavailable _ _ H).
Qed.

Lemma get_psi_unavailable (chain : Chain V3) (r : Residue V3) :
  adjacent_unavailable chain (resseq r + 1) ->
  get_psi calc_dihedral chain r = Raise KeyError.
Proof.
  intros H. unfold get_psi. fold (resseq r).
  by rewrite (chain_getitem_unavailable _ _ H).
Qed.

Lemma torsions_unavailable (model : Model V3) (res1 res2 : Residue V3) :
  geometry_unavailable model (res1, res2) ->
  exists e, torsions calc_dihedral model res1 res2 = Raise e.
Proof.
  unfold geometry_unavailable, torsions. simpl.
  intros [H|[H|[H|H]]].
  - rewrite (get_phi_unavailable _ _ H). by eexists.
  - destruct (get_phi _ _ res1); [|by eexists]. simpl.
    rewrite (get_psi_unavailable _ _ H). by eexists.
  - destruct (get_phi _ _ res1); [|by eexists]. simpl.
    destruct (get_psi _ _ res1); [|by eexists]. simpl.
    rewrite (get_phi_unavailable _ _ H). by eexists.
  - destruct (get_phi _ _ res1); [|by eexists]. simpl.
    destruct (get_psi _ _ res1); [|by eexists]. simpl.
    destruct (get_phi _ _ res2); [|by eexists]. simpl.
    rewrite (get_psi_unavailable _ _ H). by eexists.
Qed.

(** A pair whose torsions cannot be computed leaves the records as they are. *)
Lemma encode_pair_skip (model : Model V3) (fl : list feature_dict)
    (pair : Residue V3 * Residue V3) :
  geometry_unavailable model pair -> encode_pair calc_dihedral model fl pair = Ok fl.
Proof.
  destruct pair as [res1 res2]. intros [e He]%torsions_unavailable.
  unfold encode_pair. by rewrite He.
Qed.

(** A residue whose phi was computed has its three backbone atoms. *)
Lemma get_phi_atoms (chain : Chain V3) (r : Residue V3) (phi : R) :
  get_phi calc_dihedral chain r = Ok phi ->
  exists n ca c, get_coord r "N" = Ok n /\ get_coord r "CA" = Ok ca /\
                 get_coord r "C" = Ok c.
Proof.
  unfold get_phi, get_vector. intros H.
  apply py_bind_Ok in H as (prev & _ & H).
  destruct (is_hetero_flag (flag prev)); [done|].
  apply py_bind_Ok in H as (c_prev & _ & H).
  apply py_bind_Ok in H as (n & Hn & H).
  apply py_bind_Ok in H as (ca & Hca & H).
  apply py_bind_Ok in H as (c & Hc & H).
  by exists n, ca, c.
Qed.

Lemma stub_matrix_Ok (r : Residue V3) (n ca c : V3) :
  get_coord r "N" = Ok n -> get_coord r "CA" = Ok ca -> get_coord r "C" = Ok c ->
  exists s, get_residue_stub_matrix r = Ok (s, ca).
Proof.
  intros Hn Hca Hc. unfold get_residue_stub_matrix. rewrite Hn, Hca, Hc. simpl.
  by eexists.
Qed.

(** A turn of the loop never raises; it keeps the records or appends one. *)
Lemma encode_pair_total (model : Model V3) (fl : list feature_dict)
    (pair : Residue V3 * Residue V3) :
  exists fl', encode_pair calc_dihedral model fl pair = Ok fl' /\
              (fl' = fl \/ exists rec, fl' = fl ++ [rec])%list.
Proof.
  destruct pair as [res1 res2]. unfold encode_pair.
  destruct (torsions _ _ _ _) as [[[[p1 s1] p2] s2]|e] eqn:Ht; [|eauto].
  unfold torsions in Ht.
  apply py_bind_Ok in Ht as (phi1 & H1 & Ht).
  apply py_bind_Ok in Ht as (psi1 & _ & Ht).
  apply py_bind_Ok in Ht as (phi2 & H2 & Ht).
  apply get_phi_atoms in H1 as (n1 & ca1 & c1 & Hn1 & Hca1 & Hc1).
  apply get_phi_atoms in H2 as (n2 & ca2 & c2 & Hn2 & Hca2 & Hc2).
  destruct (stub_matrix_Ok _ _ _ _ Hn1 Hca1 Hc1) as [S1 HS1].
  destruct (stub_matrix_Ok _ _ _ _ Hn2 Hca2 Hc2) as [S2 HS2].
  rewrite HS1. simpl. rewrite Hca2, Hca1. simpl. rewrite HS2. simpl.
  eexists. split; [reflexivity|]. right. by eexists.
Qed.

Lemma encode_pairs_app (model : Model V3) (l1 l2 : list (Residue V3 * Residue V3))
    (fl : list feature_dict) :
  encode_pairs calc_dihedral model (l1 ++ l2) fl =
  encode_pairs calc_dihedral model l1 fl ≫= encode_pairs calc_dihedral model l2.
Proof.
  revert fl. induction l1 as [|p l1 IH]; intros fl; simpl; [done|].
  destruct (encode_pair _ _ _ _) as [fl'|e]; simpl; [apply IH|done].
Qed.

(** The loop never raises, and the records it starts from stay in front. *)
Lemma encode_pairs_total (model : Model V3) (l : list (Residue V3 * Residue V3))
    (fl : list feature_dict) :
  exists fl', encode_pairs calc_dihedral model l fl = Ok fl' /\ fl `prefix_of` fl'.
Proof.
  revert fl. induction l as [|p l IH]; intros fl; simpl.
  - by exists fl.
  - destruct (encode_pair_total model fl p) as (fl1 & -> & Hfl1). simpl.
    destruct (IH fl1) as (fl2 & -> & Hpre). exists fl2. split; [done|].
    destruct Hfl1 as [->|[rec ->]]; [done|].
    etrans; [|exact Hpre]. by apply prefix_app_r.
Qed.

(** C9: when a residue needed for phi or psi of one of the two residues of a
    pair is missing or is a solvent or hetero residue, the loop of
    [extract_from_one_file] emits no record for that pair and goes on: the
    records emitted before the pair are unchanged, the pairs after it are
    processed from them, the result is that of the batch without the pair,
    and no exception leaves the loop. *)
Theorem C9_unavailable_pair_skipped (model : Model V3)
    (before after : list (Residue V3 * Residue V3))
    (pair : Residue V3 * Residue V3) (feature_list : list feature_dict) :
  geometry_unavailable model pair ->
  exists emitted final,
    encode_pairs calc_dihedral model before feature_list = Ok emitted /\
    encode_pair calc_dihedral model emitted pair = Ok emitted /\
    encode_pairs calc_dihedral model (before ++ pair :: after) feature_list = Ok final /\
    encode_pairs calc_dihedral model after emitted = Ok final /\
    encode_pairs calc_dihedral model (before ++ after) feature_list = Ok final /\
    emitted `prefix_of` final.
Proof.
  intros Hun.
  destruct (encode_pairs_total model before feature_list) as (emitted & Hb & _).
  destruct (encode_pairs_total model after emitted) as (final & Ha & Hpre).
  exists emitted, final.
  pose proof (encode_pair_skip model emitted pair Hun) as Hskip.
  repeat split; try done.
  - rewrite encode_pairs_app, Hb. simpl. by rewrite Hskip.
  - by rewrite encode_pairs_app, Hb.
Qed.
End Encoder.

(** Residue 1 of [end_model] is a chain terminus. *)
Lemma C9_unavailable_pair_skipped_witness :
  geometry_unavailable end_model (end_r1, end_r2) /\
  exists emitted final,
    encode_pairs zero_dihedral end_model [] [] = Ok emitted /\
    encode_pair zero_dihedral end_model emitted (end_r1, end_r2) = Ok emitted /\
    encode_pairs zero_dihedral end_model ([] ++ (end_r1, end_r2) :: []) [] = Ok final /\
    encode_pairs zero_dihedral end_model [] emitted = Ok final /\
    encode_pairs zero_dihedral end_model ([] ++ []) [] = Ok final /\
    emitted `prefix_of` final.
Proof.
  assert (H : geometry_unavailable end_model (end_r1, end_r2)).
  { left. intros r Hin Hr. simpl in Hin, Hr.
    destruct Hin as [<-|[<-|[]]]; vm_compute in Hr; discriminate. }
  split; [exact H|].
  exact (C9_unavailable_pair_skipped zero_dihedral end_model [] [] (end_r1, end_r2) [] H).
Defined.
End EncoderFacts.

(** ** The assignment parser *)

Module ParserFacts.
Import PDB PyStr SecondaryStructures Examples.

Section Parser.
Variable py_float : string -> py PrimFloat.float.

(** Any diagnostic text stops [make_dssp_dict] at [warnings.warn]. *)
Lemma make_dssp_dict_diagnostic (out err : string) :
  strip err <> "" ->
  make_dssp_dict py_float out err = Raise (NameError "warnings").
Proof.
  intros Herr. unfold make_dssp_dict.
  rewrite bool_decide_eq_true_2 by done. reflexivity.
Qed.

(** The invariant of the loop over the data rows: every record of
    [dssp_dict] is reached from its own sequence number through [key_map],
    and the rows still to come carry other sequence numbers. *)
Lemma parse_rows_inverse (ls : list string)
    (dssp_dict dssp_dict' : gmap dssp_key dssp_record)
    (key_map key_map' : gmap Z dssp_key) :
  parse_rows py_float ls dssp_dict key_map = Ok (dssp_dict', key_map') ->
  NoDup (map (fun kr => seq_num kr.2) (parsed_rows py_float ls)) ->
  (forall k rec, dssp_dict !! k = Some rec ->
     key_map !! seq_num rec = Some k /\
     seq_num rec ∉ map (fun kr => seq_num kr.2) (parsed_rows py_float ls)) ->
  forall k rec, dssp_dict' !! k = Some rec -> key_map' !! seq_num rec = Some k.
Proof.
  revert dssp_dict key_map.
  induction ls as [|l ls IH]; intros dssp_dict key_map Hrun Hnd Hinv; simpl in *.
  - inversion Hrun; subst. intros k rec Hk. by apply Hinv.
  - apply py_bind_Ok in Hrun as (row & Hrow & Hrun). rewrite Hrow in Hnd, Hinv.
    destruct row as [[key rec0]|].
    + simpl in Hnd. apply NoDup_cons in Hnd as [Hfresh Hnd].
      eapply IH; [exact Hrun | exact Hnd |].
      intros k rec Hk.
      destruct (decide (key = k)) as [->|Hne].
      * rewrite lookup_insert_eq in Hk. inversion Hk; subst rec0.
        by rewrite lookup_insert_eq.
      * rewrite lookup_insert_ne in Hk by done.
        destruct (Hinv k rec Hk) as [Hkm Hnot]. simpl in Hnot.
        apply not_elem_of_cons in Hnot as [Hs Hnot].
        by rewrite lookup_insert_ne.
    + eapply IH; [exact Hrun | exact Hnd | exact Hinv].
Qed.

(** C10: when the data rows parsed from an assignment text carry pairwise
    distinct sequence numbers, the two dictionaries returned by
    [make_dssp_dict] satisfy [key_map[dssp_dict[k]['seq_num']] = k] for every
    key [k] of [dssp_dict]. *)
Theorem C10_key_map_inverts_dssp_dict (out err : string)
    (dssp_dict : gmap dssp_key dssp_record) (key_map : gmap Z dssp_key) :
  make_dssp_dict py_float out err = Ok (dssp_dict, key_map) ->
  NoDup (map (fun kr => seq_num kr.2) (data_rows py_float out)) ->
  forall k rec, dssp_dict !! k = Some rec -> key_map !! seq_num rec = Some k.
Proof.
  unfold make_dssp_dict, data_rows. intros Hrun Hnd.
  apply py_bind_Ok in Hrun as (u & _ & Hrun).
  apply py_bind_Ok in Hrun as (rows & Hrows & Hrun).
  rewrite Hrows in Hnd.
  eapply parse_rows_inverse; [exact Hrun | exact Hnd |].
  intros k rec Hk. by rewrite lookup_empty in Hk.
Qed.
End Parser.

(** The hairpin text parses when there is no diagnostic. *)
Lemma hairpin_parses : raises (make_dssp_dict PyFloat.py_float hairpin_out "") = false.
Proof. vm_compute. reflexivity. Qed.

Lemma hairpin_seq_nums :
  map (fun kr => seq_num kr.2) (data_rows PyFloat.py_float hairpin_out) = [1; 2; 3; 4; 5].
Proof. vm_compute. reflexivity. Qed.

(** The hairpin text has the sequence numbers 1 to 5. *)
Lemma C10_key_map_inverts_dssp_dict_witness :
  exists dssp_dict key_map,
    make_dssp_dict PyFloat.py_float hairpin_out "" = Ok (dssp_dict, key_map) /\
    forall k rec, dssp_dict !! k = Some rec -> key_map !! seq_num rec = Some k.
Proof.
  pose proof hairpin_parses as Hp.
  destruct (make_dssp_dict PyFloat.py_float hairpin_out "") as [[d km]|e] eqn:E;
    [|discriminate].
  exists d, km. split; [reflexivity|].
  apply (C10_key_map_inverts_dssp_dict PyFloat.py_float hairpin_out "" d km E).
  rewrite hairpin_seq_nums. apply NoDup_ListNoDup.
  repeat constructor; simpl; intuition discriminate.
Defined.

(** C5: the claim that a diagnostic text together with an output text lets
    parsing proceed fails.  The hairpin text parses when the diagnostic text
    is empty; with the same output and a non-blank diagnostic text,
    [make_dssp_dict] raises [NameError] at [warnings.warn], the name
    [warnings] being bound nowhere in the module.  With both texts empty it
    raises [IndexError] while looking for the header row. *)
Theorem C5_diagnostic_with_output_raises :
  (exists result, make_dssp_dict PyFloat.py_float hairpin_out "" = Ok result) /\
  strip hairpin_out <> "" /\
  strip "warning: ignoring residue" <> "" /\
  make_dssp_dict PyFloat.py_float hairpin_out "warning: ignoring residue"
    = Raise (NameError "warnings") /\
  make_dssp_dict PyFloat.py_float "" "" = Raise IndexError.
Proof.
  split; [|split; [|split; [|split]]]; [ | | | |reflexivity].
  - pose proof hairpin_parses as Hp.
    destruct (make_dssp_dict PyFloat.py_float hairpin_out "") as [r|e];
      [by exists r | discriminate].
  - vm_compute. discriminate.
  - vm_compute. discriminate.
  - apply make_dssp_dict_diagnostic. vm_compute. discriminate.
Qed.
End ParserFacts.

(** ** Segments *)

Module SegmentFacts.
Import PDB PyStr SecondaryStructures Examples.

(** In a state of [ss_map], [setdefault] answers the mapped class and leaves
    a state. *)
Lemma setdefault_state (m : gmap string string) (k : string) :
  ss_map_state m ->
  (setdefault m k " ").1 = mapped_class k /\ ss_map_state (setdefault m k " ").2.
Proof.
  intros [Hsub Hval]. unfold setdefault.
  destruct (m !! k) as [v|] eqn:Hk; simpl.
  - split; [by apply Hval | by split].
  - assert (Hinit : ss_map_init !! k = None).
    { destruct (ss_map_init !! k) as [v|] eqn:Hi; [|done].
      eapply lookup_weaken in Hi; [|exact Hsub]. congruence. }
    assert (Hc : mapped_class k = " ") by (unfold mapped_class; by rewrite Hinit).
    split; [done|]. split.
    + etrans; [exact Hsub|]. by apply insert_subseteq.
    + intros k' v. destruct (decide (k = k')) as [<-|Hne].
      * rewrite lookup_insert_eq. congruence.
      * rewrite lookup_insert_ne by done. apply Hval.
Qed.

Lemma ss_map_init_state : ss_map_state ss_map_init.
Proof.
  split; [done|]. intros k v Hk. unfold mapped_class. by rewrite Hk.
Qed.

Section Segments.
Context {Coord : Type}.

(** [same_ss] in a state of the shared dictionary. *)
Lemma same_ss_spec (ss_map : gmap string string)
    (dssp_dict : gmap dssp_key dssp_record) (key1 key2 : dssp_key)
    (d1 d2 : dssp_record) :
  ss_map_state ss_map ->
  dssp_dict !! key1 = Some d1 ->
  dssp_dict !! key2 = Some d2 ->
  exists (b : bool) (ss_map' : gmap string string),
    same_ss ss_map dssp_dict key1 key2 = Ok (b, ss_map') /\
    ss_map_state ss_map' /\
    (b = true <-> mapped_class (ss d1) = mapped_class (ss d2) /\ bsl d1 = bsl d2).
Proof.
  intros Hst H1 H2. unfold same_ss, py_getitem. rewrite H1, H2. simpl.
  destruct (setdefault_state ss_map (ss d1) Hst) as [Hc1 Hst1].
  destruct (setdefault ss_map (ss d1) " ") as [c1 m1]. simpl in Hc1, Hst1.
  destruct (setdefault_state m1 (ss d2) Hst1) as [Hc2 Hst2].
  destruct (setdefault m1 (ss d2) " ") as [c2 m2]. simpl in Hc2, Hst2.
  subst c1 c2.
  destruct (decide (mapped_class (ss d1) = mapped_class (ss d2))) as [E|E].
  - rewrite bool_decide_eq_true_2 by done.
    eexists _, m2. split; [reflexivity|]. split; [done|].
    rewrite bool_decide_eq_true. tauto.
  - rewrite bool_decide_eq_false_2 by done.
    exists false, m2. split; [reflexivity|]. split; [done|].
    split; [discriminate | tauto].
Qed.

(** The segment built for a run holds the run. *)
Lemma make_segment_spec (ss_map : gmap string string)
    (dssp_dict : gmap dssp_key dssp_record) (c_id : string) (start_r_id : Z)
    (d : dssp_record) (run : list (Residue Coord)) :
  ss_map_state ss_map ->
  dssp_dict !! (c_id, start_r_id) = Some d ->
  exists seg ss_map',
    make_segment ss_map dssp_dict c_id start_r_id (ss d) run = Ok (seg, ss_map') /\
    residue_list seg = run /\ ss_map_state ss_map'.
Proof.
  intros Hst Hd. unfold make_segment.
  destruct (bool_decide ("H" = ss d)); [by eexists _, _|].
  destruct (bool_decide ("E" = ss d) || bool_decide ("B" = ss d)).
  - unfold py_getitem. rewrite Hd. simpl. by eexists _, _.
  - destruct (setdefault_state ss_map (ss d) Hst) as [_ Hst'].
    destruct (setdefault ss_map (ss d) " ") as [t m]. by eexists _, _.
Qed.

(** What [same_ss] computes: it answers true exactly when the mapped classes
    of the two assignment symbols are equal (a symbol outside the map has the
    blank class) and the two sheet labels are equal; the sheet labels are
    compared for every pair of residues, strand or not, although the
    docstring asks for equal sheets of beta strands only.  Accordingly two
    consecutive residues of a chain form one segment when both conditions
    hold and two segments otherwise. *)
Lemma same_ss_iff_class_and_sheet_label (ss_map : gmap string string)
    (dssp_dict : gmap dssp_key dssp_record) (c_id : string)
    (r1 r2 : Residue Coord) (d1 d2 : dssp_record) :
  ss_map_state ss_map ->
  dssp_dict !! (c_id, resseq r1) = Some d1 ->
  dssp_dict !! (c_id, resseq r2) = Some d2 ->
  (exists (b : bool) (ss_map' : gmap string string),
     same_ss ss_map dssp_dict (c_id, resseq r1) (c_id, resseq r2) = Ok (b, ss_map') /\
     ss_map_state ss_map' /\
     (b = true <-> mapped_class (ss d1) = mapped_class (ss d2) /\ bsl d1 = bsl d2)) /\
  (exists ss_list ss_map',
     segment_chain dssp_dict c_id [r1; r2] ss_map [] = Ok (ss_list, ss_map') /\
     (mapped_class (ss d1) = mapped_class (ss d2) /\ bsl d1 = bsl d2 ->
      map residue_list ss_list = [[r1; r2]]) /\
     (~ (mapped_class (ss d1) = mapped_class (ss d2) /\ bsl d1 = bsl d2) ->
      map residue_list ss_list = [[r1]; [r2]])).
Proof.
  intros Hst H1 H2.
  destruct (same_ss_spec ss_map dssp_dict _ _ d1 d2 Hst H1 H2) as (b & m & Hs & Hm & Hb).
  split; [by exists b, m|].
  pose proof (proj2 (py_getitem_Ok _ _ _) H1) as G1.
  pose proof (proj2 (py_getitem_Ok _ _ _) H2) as G2.
  simpl. rewrite G1. simpl. rewrite Hs. simpl.
  destruct b.
  - destruct (make_segment_spec m dssp_dict c_id (resseq r1) d1 [r1; r2] Hm H1)
      as (seg & m' & -> & Hseg & _). simpl.
    eexists _, _. split; [reflexivity|]. simpl. rewrite Hseg.
    split; [done|]. intros Hn. destruct Hn. by apply Hb.
  - destruct (make_segment_spec m dssp_dict c_id (resseq r1) d1 [r1] Hm H1)
      as (seg1 & m1 & -> & Hseg1 & Hm1). simpl.
    rewrite G2. simpl.
    destruct (make_segment_spec m1 dssp_dict c_id (resseq r2) d2 [r2] Hm1 H2)
      as (seg2 & m2 & -> & Hseg2 & _). simpl.
    eexists _, _. split; [reflexivity|]. simpl. rewrite Hseg1, Hseg2.
    split; [|done]. intros Hy. apply Hb in Hy. discriminate.
Qed.
End Segments.

Lemma helix_records :
  dssp_dict_of helix_out !! ("A", 1) ≫= (fun d => Some (ss d, bsl d)) = Some ("H", "A") /\
  dssp_dict_of helix_out !! ("A", 2) ≫= (fun d => Some (ss d, bsl d)) = Some ("H", " ").
Proof. split; vm_compute; reflexivity. Qed.

(** The two helix residues. *)
Lemma same_ss_iff_class_and_sheet_label_example :
  exists d1 d2,
    dssp_dict_of helix_out !! ("A", 1) = Some d1 /\
    dssp_dict_of helix_out !! ("A", 2) = Some d2 /\
    (exists (b : bool) (ss_map' : gmap string string),
       same_ss ss_map_init (dssp_dict_of helix_out) ("A", 1) ("A", 2) = Ok (b, ss_map') /\
       ss_map_state ss_map' /\
       (b = true <-> mapped_class (ss d1) = mapped_class (ss d2) /\ bsl d1 = bsl d2)) /\
    (exists ss_list ss_map',
       segment_chain (dssp_dict_of helix_out) "A" [hairpin_residue 1; hairpin_residue 2]
         ss_map_init [] = Ok (ss_list, ss_map') /\
       (mapped_class (ss d1) = mapped_class (ss d2) /\ bsl d1 = bsl d2 ->
        map residue_list ss_list = [[hairpin_residue 1; hairpin_residue 2]]) /\
       (~ (mapped_class (ss d1) = mapped_class (ss d2) /\ bsl d1 = bsl d2) ->
        map residue_list ss_list = [[hairpin_residue 1]; [hairpin_residue 2]])).
Proof.
  destruct helix_records as [H1 H2].
  destruct (dssp_dict_of helix_out !! ("A", 1)) as [d1|] eqn:E1; [|discriminate].
  destruct (dssp_dict_of helix_out !! ("A", 2)) as [d2|] eqn:E2; [|discriminate].
  exists d1, d2. split; [done|]. split; [done|].
  exact (same_ss_iff_class_and_sheet_label ss_map_init (dssp_dict_of helix_out) "A"
           (hairpin_residue 1) (hairpin_residue 2) d1 d2 ss_map_init_state E1 E2).
Defined.

(** C6: the code departs from the claim, and from the docstring of [same_ss]
    ("for beta strands, they should be in the same sheet to be considered
    the same").  The two residues of [helix_out] are both of the helix class,
    neither is strand-classed, and their sheet labels differ; [same_ss]
    answers false and the chain is cut into two helices, where the claim
    keeps the two residues in one run. *)
Lemma C6_helix_split_by_sheet_label :
  (dssp_dict_of helix_out !! ("A", 1) ≫= (fun d => Some (ss d, bsl d, strand_classed d))
     = Some ("H", "A", false)) /\
  (dssp_dict_of helix_out !! ("A", 2) ≫= (fun d => Some (ss d, bsl d, strand_classed d))
     = Some ("H", " ", false)) /\
  mapped_class "H" = mapped_class "H" /\
  same_ss ss_map_init (dssp_dict_of helix_out) ("A", 1) ("A", 2)
    = Ok (false, ss_map_init) /\
  fst <$> pack_dssp_dict_into_ss_list helix_model (dssp_dict_of helix_out)
            (key_map_of helix_out)
    = Ok [AlphaHelix [hairpin_residue 1]; AlphaHelix [hairpin_residue 2]].
Proof. repeat split; vm_compute; reflexivity. Qed.
End SegmentFacts.

(** ** Sheet graphs *)

Module SheetGraphFacts.
Import PDB PyStr SecondaryStructures Examples.
Import PrimFloat.
#[local] Set Warnings "-inexact-float".

Section Graph.
Context {Coord : Type}.
Implicit Types (r u v n res : Residue Coord) (g : @MultiDiGraph Coord)
  (residues ns : list (Residue Coord)).

Lemma same_residue_refl r : same_residue r r = true.
Proof. unfold same_residue. by apply bool_decide_eq_true. Qed.

Lemma same_residue_sym r u : same_residue r u = true -> same_residue u r = true.
Proof. unfold same_residue. rewrite !bool_decide_eq_true. congruence. Qed.

Lemma same_residue_trans r u v :
  same_residue r u = true -> same_residue u v = true -> same_residue r v = true.
Proof. unfold same_residue. rewrite !bool_decide_eq_true. congruence. Qed.

Lemma residue_in_spec r ns :
  residue_in r ns = true <-> exists n, In n ns /\ same_residue r n = true.
Proof. unfold residue_in. apply existsb_exists. Qed.

Lemma residue_in_In r ns : In r ns -> residue_in r ns = true.
Proof. intros H. apply residue_in_spec. exists r. auto using same_residue_refl. Qed.

Lemma residue_in_same r u ns :
  same_residue r u = true -> residue_in u ns = true -> residue_in r ns = true.
Proof.
  intros Hru [n [Hn Hun]]%residue_in_spec. apply residue_in_spec.
  exists n. eauto using same_residue_trans.
Qed.

Lemma residue_in_add_node r n ns :
  residue_in r (add_node n ns) = true <->
  residue_in r ns = true \/ same_residue r n = true.
Proof.
  unfold add_node. destruct (residue_in n ns) eqn:Hn.
  - split; [auto|]. intros [H|H]; [done|]. eauto using residue_in_same.
  - unfold residue_in. rewrite existsb_app. simpl.
    rewrite orb_true_iff, orb_false_r. tauto.
Qed.

Lemma In_add_node r n ns : In r (add_node n ns) -> In r ns \/ r = n.
Proof.
  unfold add_node. destruct (residue_in n ns); [auto|].
  rewrite in_app_iff. simpl. intros [H|[H|[]]]; auto.
Qed.

(** Nodes are exactly the ends of edges. *)
Definition nodes_are_ends g : Prop :=
  forall r, is_node g r <-> exists e, In e (edges g) /\ endpoint r e.

Lemma empty_graph_ends : nodes_are_ends (@empty_graph Coord).
Proof. intros r. unfold is_node. simpl. split; [done | intros (e & [] & _)]. Qed.

Lemma add_edge_ends u v (t : string) g :
  nodes_are_ends g -> nodes_are_ends (add_edge u v t g).
Proof.
  intros Hg r. unfold is_node, add_edge. simpl.
  rewrite !residue_in_add_node. split.
  - intros [[H|H]|H].
    + apply Hg in H as (e & He & Hr). exists e. rewrite in_app_iff. auto.
    + exists (u, v, t). rewrite in_app_iff. simpl. unfold endpoint. simpl. auto.
    + exists (u, v, t). rewrite in_app_iff. simpl. unfold endpoint. simpl. auto.
  - intros (e & He & Hr). apply in_app_iff in He as [He|[<-|[]]].
    + left; left. apply Hg. eauto.
    + destruct Hr as [Hr|Hr]; simpl in Hr; auto.
Qed.

Lemma add_pp_bonds_ends (l : list (Residue Coord)) g :
  nodes_are_ends g -> nodes_are_ends (add_pp_bonds l g).
Proof.
  revert g. induction l as [|a l IH]; intros g Hg; [done|].
  destruct l as [|b l]; [done|]. simpl. apply IH. by apply add_edge_ends.
Qed.

Lemma add_strands_ends (sl : list SecondaryStructure) g :
  nodes_are_ends g -> nodes_are_ends (add_strands sl g).
Proof.
  revert g. induction sl as [|s sl IH]; intros g Hg; [done|].
  simpl. apply IH. by apply add_pp_bonds_ends.
Qed.

(** The edges after the backbone loop of one strand. *)
Lemma add_pp_bonds_edges (l : list (Residue Coord)) g e :
  In e (edges (add_pp_bonds l g)) <->
  In e (edges g) \/
  exists (i : nat) a b, l !! i = Some a /\ l !! S i = Some b /\ e = (a, b, "pp_bond").
Proof.
  revert g. induction l as [|a l IH]; intros g.
  - simpl. split; [auto|]. intros [H|(i & x & y & H & _)]; [done|].
    by rewrite lookup_nil in H.
  - destruct l as [|b l].
    + simpl. split; [auto|]. intros [H|(i & x & y & _ & H & _)]; [done|].
      simpl in H. by rewrite lookup_nil in H.
    + change (add_pp_bonds (a :: b :: l) g)
        with (add_pp_bonds (b :: l) (add_edge a b "pp_bond" g)).
      rewrite IH. unfold add_edge. simpl. rewrite in_app_iff. simpl. split.
      * intros [[H|[<-|[]]]|(i & x & y & Hx & Hy & ->)].
        -- auto.
        -- right. by exists 0%nat, a, b.
        -- right. by exists (S i), x, y.
      * intros [H|(i & x & y & Hx & Hy & ->)]; [auto|].
        destruct i as [|i].
        -- simpl in Hx, Hy. inversion Hx; inversion Hy; subst. auto.
        -- right. by exists i, x, y.
Qed.

Lemma add_strands_edges (sl : list SecondaryStructure) g e :
  In e (edges (add_strands sl g)) <->
  In e (edges g) \/
  exists strand (i : nat) a b,
    In strand sl /\ residue_list strand !! i = Some a /\
    residue_list strand !! S i = Some b /\ e = (a, b, "pp_bond").
Proof.
  revert g. induction sl as [|s sl IH]; intros g; simpl.
  - split; [auto|]. by intros [H|(? & ? & ? & ? & [] & _)].
  - rewrite IH, add_pp_bonds_edges. split.
    + intros [[H|(i & a & b & Ha & Hb & ->)]|(s' & i & a & b & Hs & Ha & Hb & ->)].
      * auto.
      * right. exists s, i, a, b. auto.
      * right. exists s', i, a, b. auto.
    + intros [H|(s' & i & a & b & [<-|Hs] & Ha & Hb & ->)].
      * auto.
      * left; right. by exists i, a, b.
      * right. exists s', i, a, b. auto.
Qed.

(** What one energy-gated block does. *)
Lemma add_hbond_spec (key_map : gmap Z dssp_key) (model : Model Coord) residues res
    (d : dssp_record) (hb : Z * float) (kind : string) g g' :
  add_hbond key_map model residues res d hb kind g = Ok g' ->
  (g' = g /\
   forall key res2, ltb hb.2 HB_ENERGY_LIMIT = true ->
     key_map !! (seq_num d + hb.1) = Some key ->
     model_residue model key = Ok res2 -> residue_in res2 residues = false) \/
  (exists key res2,
     ltb hb.2 HB_ENERGY_LIMIT = true /\
     key_map !! (seq_num d + hb.1) = Some key /\
     model_residue model key = Ok res2 /\ residue_in res2 residues = true /\
     g' = add_edge res res2 kind g).
Proof.
  unfold add_hbond. intros H.
  destruct (ltb hb.2 HB_ENERGY_LIMIT) eqn:Hlt.
  - apply py_bind_Ok in H as (key & Hkey%py_getitem_Ok & H).
    apply py_bind_Ok in H as (res2 & Hres2 & H).
    destruct (residue_in res2 residues) eqn:Hin; inversion H; subst.
    + right. by exists key, res2.
    + left. split; [done|]. intros key' res2' _ Hkey' Hres2'. congruence.
  - inversion H; subst. left. split; [done|]. intros ? ? ?. done.
Qed.

Lemma add_hbond_ends (key_map : gmap Z dssp_key) (model : Model Coord) residues res
    (d : dssp_record) (hb : Z * float) (kind : string) g g' :
  add_hbond key_map model residues res d hb kind g = Ok g' ->
  nodes_are_ends g -> nodes_are_ends g'.
Proof.
  intros [[-> _]|(key & res2 & _ & _ & _ & _ & ->)]%add_hbond_spec Hg; [done|].
  by apply add_edge_ends.
Qed.

Lemma add_hbond_edges (dssp_dict : gmap dssp_key dssp_record)
    (key_map : gmap Z dssp_key) (model : Model Coord) residues res
    (d : dssp_record) (hb : Z * float) (kind : string) g g' e :
  dssp_dict !! (res_chain res, resseq res) = Some d ->
  hbond_of d kind = Some hb ->
  add_hbond key_map model residues res d hb kind g = Ok g' ->
  In e (edges g') <->
  In e (edges g) \/
  exists res2, e = (res, res2, kind) /\
               gated_hbond dssp_dict key_map model residues res res2 kind.
Proof.
  intros Hd Hhb [[-> Hno]|(key & res2 & Hlt & Hkey & Hres2 & Hin & ->)]%add_hbond_spec.
  - split; [auto|]. intros [H|(res2 & -> & d' & hb' & key & Hd' & Hhb' & Hlt & Hkey & Hres2 & Hin)];
      [done|].
    assert (d' = d) by congruence. subst d'.
    assert (hb' = hb) by congruence. subst hb'.
    rewrite (Hno key res2 Hlt Hkey Hres2) in Hin. done.
  - unfold add_edge. simpl. rewrite in_app_iff. simpl. split.
    + intros [H|[<-|[]]]; [auto|]. right. exists res2. split; [done|].
      by exists d, hb, key.
    + intros [H|(res2' & -> & d' & hb' & key' & Hd' & Hhb' & _ & Hkey' & Hres2' & _)];
        [auto|].
      assert (d' = d) by congruence. subst d'.
      assert (hb' = hb) by congruence. subst hb'.
      assert (key' = key) by congruence. subst key'.
      assert (res2' = res2) by congruence. subst res2'. auto.
Qed.

Lemma add_hbonds_of_ends (dssp_dict : gmap dssp_key dssp_record)
    (key_map : gmap Z dssp_key) (model : Model Coord) residues res g g' :
  add_hbonds_of dssp_dict key_map model residues res g = Ok g' ->
  nodes_are_ends g -> nodes_are_ends g'.
Proof.
  unfold add_hbonds_of. intros H Hg.
  apply py_bind_Ok in H as (d & _ & H).
  apply py_bind_Ok in H as (g1 & H1 & H).
  apply py_bind_Ok in H as (g2 & H2 & H).
  apply py_bind_Ok in H as (g3 & H3 & H).
  eauto using add_hbond_ends.
Qed.

Lemma add_hbonds_of_edges (dssp_dict : gmap dssp_key dssp_record)
    (key_map : gmap Z dssp_key) (model : Model Coord) residues res g g' e :
  add_hbonds_of dssp_dict key_map model residues res g = Ok g' ->
  In e (edges g') <->
  In e (edges g) \/
  exists kind res2, In kind hbond_kinds /\ e = (res, res2, kind) /\
                    gated_hbond dssp_dict key_map model residues res res2 kind.
Proof.
  unfold add_hbonds_of. intros H.
  apply py_bind_Ok in H as (d & Hd%py_getitem_Ok & H).
  apply py_bind_Ok in H as (g1 & H1 & H).
  apply py_bind_Ok in H as (g2 & H2 & H).
  apply py_bind_Ok in H as (g3 & H3 & H).
  rewrite (add_hbond_edges dssp_dict _ _ _ _ d (o_to_nh2 d) "o_to_nh2" _ _ e Hd eq_refl H).
  rewrite (add_hbond_edges dssp_dict _ _ _ _ d (nh_to_o2 d) "nh_to_o2" _ _ e Hd eq_refl H3).
  rewrite (add_hbond_edges dssp_dict _ _ _ _ d (o_to_nh1 d) "o_to_nh1" _ _ e Hd eq_refl H2).
  rewrite (add_hbond_edges dssp_dict _ _ _ _ d (nh_to_o1 d) "nh_to_o1" _ _ e Hd eq_refl H1).
  unfold hbond_kinds. simpl. split.
  - intros [[[[H0|(r2 & ? & ?)]|(r2 & ? & ?)]|(r2 & ? & ?)]|(r2 & ? & ?)]; [auto|..];
      right; eexists _, r2; eauto 10.
  - intros [H0|(kind & r2 & [<-|[<-|[<-|[<-|[]]]]] & ? & ?)]; eauto 10.
Qed.

Lemma add_hbonds_ends (dssp_dict : gmap dssp_key dssp_record)
    (key_map : gmap Z dssp_key) (model : Model Coord) residues
    (todo : list (Residue Coord)) g g' :
  add_hbonds dssp_dict key_map model residues todo g = Ok g' ->
  nodes_are_ends g -> nodes_are_ends g'.
Proof.
  revert g. induction todo as [|res todo IH]; intros g H Hg; simpl in H.
  - by inversion H; subst.
  - apply py_bind_Ok in H as (g1 & H1 & H).
    eauto using add_hbonds_of_ends.
Qed.

Lemma add_hbonds_edges (dssp_dict : gmap dssp_key dssp_record)
    (key_map : gmap Z dssp_key) (model : Model Coord) residues
    (todo : list (Residue Coord)) g g' e :
  add_hbonds dssp_dict key_map model residues todo g = Ok g' ->
  In e (edges g') <->
  In e (edges g) \/
  exists res kind res2, In res todo /\ In kind hbond_kinds /\ e = (res, res2, kind) /\
                        gated_hbond dssp_dict key_map model residues res res2 kind.
Proof.
  revert g. induction todo as [|res todo IH]; intros g H; simpl in H.
  - inversion H; subst. split; [auto|]. by intros [?|(? & ? & ? & [] & _)].
  - apply py_bind_Ok in H as (g1 & H1 & H).
    rewrite (IH _ H), (add_hbonds_of_edges _ _ _ _ _ _ _ e H1). split.
    + intros [[H0|(kind & r2 & ? & ? & ?)]|(r & kind & r2 & ? & ? & ? & ?)]; [auto|..].
      * right. exists res, kind, r2. simpl. auto.
      * right. exists r, kind, r2. simpl. auto.
    + intros [H0|(r & kind & r2 & [<-|Hr] & ? & ? & ?)]; [auto|..].
      * left; right. eauto.
      * right. exists r, kind, r2. auto.
Qed.

Lemma In_sheet_residues (sl : list SecondaryStructure) strand r :
  In strand sl -> In r (residue_list strand) -> In r (sheet_residues sl).
Proof.
  intros Hs Hr. unfold sheet_residues. apply in_concat.
  exists (residue_list strand). split; [|done]. by apply in_map.
Qed.

Lemma hbond_kind_not_pp (kind : string) : In kind hbond_kinds -> kind <> "pp_bond".
Proof. unfold hbond_kinds. simpl. intros [<-|[<-|[<-|[<-|[]]]]]; discriminate. Qed.

(** The edges of a sheet graph: the backbone edges of its strands and the
    gated hydrogen-bond edges of its residues. *)
Lemma init_sheet_graph_edges (sl : list SecondaryStructure)
    (dssp_dict : gmap dssp_key dssp_record) (key_map : gmap Z dssp_key)
    (model : Model Coord) g e :
  init_sheet_graph sl dssp_dict key_map model = Ok g ->
  In e (edges g) <->
  (exists strand (i : nat) a b,
     In strand sl /\ residue_list strand !! i = Some a /\
     residue_list strand !! S i = Some b /\ e = (a, b, "pp_bond")) \/
  (exists res kind res2,
     In res (sheet_residues sl) /\ In kind hbond_kinds /\ e = (res, res2, kind) /\
     gated_hbond dssp_dict key_map model (sheet_residues sl) res res2 kind).
Proof.
  unfold init_sheet_graph. intros H.
  rewrite (add_hbonds_edges _ _ _ _ _ _ _ e H), add_strands_edges. simpl. tauto.
Qed.

Lemma init_sheet_graph_ends (sl : list SecondaryStructure)
    (dssp_dict : gmap dssp_key dssp_record) (key_map : gmap Z dssp_key)
    (model : Model Coord) g :
  init_sheet_graph sl dssp_dict key_map model = Ok g -> nodes_are_ends g.
Proof.
  unfold init_sheet_graph. intros H.
  eapply add_hbonds_ends; [exact H|]. apply add_strands_ends, empty_graph_ends.
Qed.

(** C7: [init_sheet_graph] puts a hydrogen-bond edge of one of the four kinds
    from a residue of the sheet to the partner resolved through the residue's
    own sequence number plus the offset exactly when the energy of the
    descriptor is below -1.5 and the partner is one of the residues of the
    strands of the sheet.  The comparison is strict: -1.5 does not pass,
    -1.51 does. *)
Theorem C7_hbond_edge_iff_gated (sl : list SecondaryStructure)
    (dssp_dict : gmap dssp_key dssp_record) (key_map : gmap Z dssp_key)
    (model : Model Coord) g (res res2 : Residue Coord) (kind : string) :
  init_sheet_graph sl dssp_dict key_map model = Ok g ->
  In kind hbond_kinds ->
  (In (res, res2, kind) (edges g) <->
   In res (sheet_residues sl) /\
   gated_hbond dssp_dict key_map model (sheet_residues sl) res res2 kind) /\
  ltb (-1.5) HB_ENERGY_LIMIT = false /\
  ltb (-1.51) HB_ENERGY_LIMIT = true.
Proof.
  intros H Hkind. split; [|split; reflexivity].
  rewrite (init_sheet_graph_edges _ _ _ _ _ _ H). split.
  - intros [(strand & i & a & b & _ & _ & _ & E)|(r & k & r2 & Hr & _ & E & Hg)].
    + apply hbond_kind_not_pp in Hkind. congruence.
    + by inversion E; subst.
  - intros [Hr Hg]. right. by exists res, kind, res2.
Qed.

(** The nodes of a sheet graph: residues of its strands, and exactly the ends
    of its edges; all residues of a strand of two or more residues are among
    them. *)
Lemma init_sheet_graph_nodes (sl : list SecondaryStructure)
    (dssp_dict : gmap dssp_key dssp_record) (key_map : gmap Z dssp_key)
    (model : Model Coord) g :
  init_sheet_graph sl dssp_dict key_map model = Ok g ->
  (forall n, In n (nodes g) -> residue_in n (sheet_residues sl) = true) /\
  (forall r, is_node g r <-> exists e, In e (edges g) /\ endpoint r e) /\
  (forall strand r, In strand sl -> (2 <= length (residue_list strand))%nat ->
                    In r (residue_list strand) -> is_node g r).
Proof.
  intros H. pose proof (init_sheet_graph_ends _ _ _ _ _ H) as Hends.
  split; [|split; [exact Hends|]].
  - intros n Hn. apply residue_in_In, Hends in Hn as (e & He & Hend).
    apply (init_sheet_graph_edges _ _ _ _ _ _ H) in He
      as [(strand & i & a & b & Hs & Ha & Hb & ->)|(r & k & r2 & Hr & _ & -> & Hg)].
    + apply list_elem_of_lookup_2, list_elem_of_In in Ha, Hb.
      destruct Hend as [E|E]; simpl in E;
        (eapply residue_in_same; [exact E|]); eapply residue_in_In, In_sheet_residues;
        eauto.
    + destruct Hg as (d & hb & key & _ & _ & _ & _ & _ & Hin).
      destruct Hend as [E|E]; simpl in E; (eapply residue_in_same; [exact E|]);
        [by apply residue_in_In | done].
  - intros strand r Hs Hlen Hr. apply Hends.
    apply list_elem_of_In, list_elem_of_lookup in Hr as [i Hi].
    destruct (residue_list strand !! S i) as [b|] eqn:Hb.
    + exists (r, b, "pp_bond"). split.
      * apply (init_sheet_graph_edges _ _ _ _ _ _ H). left. by exists strand, i, r, b.
      * left. apply same_residue_refl.
    + destruct i as [|i].
      * apply lookup_ge_None in Hb. lia.
      * destruct (residue_list strand !! i) as [a|] eqn:Ha.
        -- exists (a, r, "pp_bond"). split.
           ++ apply (init_sheet_graph_edges _ _ _ _ _ _ H). left.
              by exists strand, i, a, r.
           ++ right. apply same_residue_refl.
        -- apply lookup_ge_None in Ha. apply lookup_lt_Some in Hi. lia.
Qed.

Lemma sheet_ids_spec (ss_list : list (@SecondaryStructure Coord)) (ids : gset string)
    (label : string) :
  label ∈ sheet_ids ss_list ids <->
  label ∈ ids \/ exists l, In (BetaStrand l label) ss_list.
Proof.
  revert ids. induction ss_list as [|s ss_list IH]; intros ids; simpl.
  - split; [auto|]. by intros [?|[? []]].
  - destruct s as [l|l id|l t]; rewrite IH.
    + split; [intros [?|[l' ?]]; eauto|].
      intros [?|[l' [?|?]]]; [auto|done|eauto].
    + rewrite elem_of_union, elem_of_singleton. split.
      * intros [[->|?]|[l' ?]]; eauto.
      * intros [?|[l' [E|?]]]; [auto| |eauto]. inversion E; auto.
    + split; [intros [?|[l' ?]]; eauto|].
      intros [?|[l' [?|?]]]; [auto|done|eauto].
Qed.

Lemma build_sheets_spec (ss_list : list SecondaryStructure)
    (dssp_dict : gmap dssp_key dssp_record) (key_map : gmap Z dssp_key)
    (model : Model Coord) (ids : list string) (acc sheets : list BetaSheet) :
  build_sheets ss_list dssp_dict key_map model ids acc = Ok sheets ->
  forall label, In label ids ->
    exists sheet, In sheet sheets /\ sheet_id sheet = label /\
      strand_list sheet = List.filter (is_strand_of label) ss_list /\
      init_sheet_graph (strand_list sheet) dssp_dict key_map model = Ok (graph sheet).
Proof.
  assert (Hmono : forall ids acc sheets,
    build_sheets ss_list dssp_dict key_map model ids acc = Ok sheets ->
    forall s, In s acc -> In s sheets).
  { clear. induction ids as [|id ids IH]; intros acc sheets H s Hs; simpl in H.
    - by inversion H; subst.
    - apply py_bind_Ok in H as (sheet & _ & H).
      eapply IH; [exact H|]. apply in_app_iff. auto. }
  revert acc. induction ids as [|id ids IH]; intros acc H label Hl; simpl in H.
  - destruct Hl.
  - apply py_bind_Ok in H as (sheet & Hsheet & H).
    destruct Hl as [->|Hl]; [|by eapply IH].
    unfold new_BetaSheet in Hsheet.
    apply py_bind_Ok in Hsheet as (g & Hg & Hsheet). inversion Hsheet; subst sheet.
    exists (mkSheet label (List.filter (is_strand_of label) ss_list) g).
    split; [|by simpl].
    eapply Hmono; [exact H|]. apply in_app_iff. simpl. auto.
Qed.

(** C8, as the code has it: for every sheet label that occurs among the strand
    segments, [pack_dssp_dict_into_ss_list] builds a sheet from the strands
    with that label; every node of its graph is a residue of one of these
    strands; a residue is a node exactly when it is an end of some edge of the
    graph; and every residue of a strand with two or more residues is a
    node. *)
Theorem C8_nodes_are_strand_residues_with_an_edge (model : Model Coord)
    (dssp_dict : gmap dssp_key dssp_record) (key_map : gmap Z dssp_key)
    (ss_list : list SecondaryStructure) (sheet_list : list BetaSheet)
    (l : list (Residue Coord)) (label : string) :
  pack_dssp_dict_into_ss_list model dssp_dict key_map = Ok (ss_list, sheet_list) ->
  In (BetaStrand l label) ss_list ->
  exists sheet,
    In sheet sheet_list /\ sheet_id sheet = label /\
    strand_list sheet = List.filter (is_strand_of label) ss_list /\
    (forall n, In n (nodes (graph sheet)) ->
               residue_in n (sheet_residues (strand_list sheet)) = true) /\
    (forall r, is_node (graph sheet) r <->
               exists e, In e (edges (graph sheet)) /\ endpoint r e) /\
    (forall strand r, In strand (strand_list sheet) ->
                      (2 <= length (residue_list strand))%nat ->
                      In r (residue_list strand) -> is_node (graph sheet) r).
Proof.
  unfold pack_dssp_dict_into_ss_list. intros H Hl.
  apply py_bind_Ok in H as ([ss_list' ss_map] & _ & H).
  apply py_bind_Ok in H as (sheets & Hb & H). inversion H; subst.
  destruct (build_sheets_spec _ _ _ _ _ _ _ Hb label) as (sheet & Hin & Hid & Hsl & Hg).
  { apply list_elem_of_In, elem_of_elements, sheet_ids_spec. eauto. }
  exists sheet. split; [done|]. split; [done|]. split; [done|].
  by apply init_sheet_graph_nodes in Hg.
Qed.
End Graph.

(** The hairpin: its sheet graph exists, and its edges are the two backbone
    edges and the four hydrogen bonds that pass the gate and stay inside the
    sheet.  The bond of residue 2 at exactly -1.5 gives no edge, the bond of
    residue 4 at -1.51 gives one, and the bond of residue 5 to the turn
    residue 3 is dropped. *)
Lemma hairpin_sheet_graph :
  (fun g => (map resseq (nodes g),
             map (fun e => (resseq e.1.1, resseq e.1.2, e.2)) (edges g)))
    <$> init_sheet_graph hairpin_strands (dssp_dict_of hairpin_out)
          (key_map_of hairpin_out) hairpin_model
  = Ok ([1; 2; 4; 5],
        [(1, 2, "pp_bond"); (4, 5, "pp_bond");
         (1, 5, "nh_to_o1"); (1, 5, "o_to_nh1");
         (4, 2, "o_to_nh1"); (5, 1, "nh_to_o1")]).
Proof. vm_compute. reflexivity. Qed.

Lemma hairpin_sheet_graph_Ok :
  raises (init_sheet_graph hairpin_strands (dssp_dict_of hairpin_out)
            (key_map_of hairpin_out) hairpin_model) = false.
Proof. vm_compute. reflexivity. Qed.

(** The bond of residue 4 of the hairpin towards residue 2. *)
Lemma C7_hbond_edge_iff_gated_witness :
  exists g,
    init_sheet_graph hairpin_strands (dssp_dict_of hairpin_out)
      (key_map_of hairpin_out) hairpin_model = Ok g /\
    (In (hairpin_residue 4, hairpin_residue 2, "o_to_nh1") (edges g) <->
     In (hairpin_residue 4) (sheet_residues hairpin_strands) /\
     gated_hbond (dssp_dict_of hairpin_out) (key_map_of hairpin_out) hairpin_model
       (sheet_residues hairpin_strands) (hairpin_residue 4) (hairpin_residue 2)
       "o_to_nh1") /\
    ltb (-1.5) HB_ENERGY_LIMIT = false /\
    ltb (-1.51) HB_ENERGY_LIMIT = true.
Proof.
  pose proof hairpin_sheet_graph_Ok as Hok.
  destruct (init_sheet_graph hairpin_strands (dssp_dict_of hairpin_out)
              (key_map_of hairpin_out) hairpin_model) as [g|e] eqn:E; [|discriminate].
  exists g. split; [reflexivity|].
  apply (C7_hbond_edge_iff_gated hairpin_strands (dssp_dict_of hairpin_out)
           (key_map_of hairpin_out) hairpin_model g (hairpin_residue 4)
           (hairpin_residue 2) "o_to_nh1" E).
  unfold hbond_kinds. simpl. auto.
Defined.

(** The segments of the hairpin. *)
Lemma hairpin_segments :
  fst <$> pack_dssp_dict_into_ss_list hairpin_model (dssp_dict_of hairpin_out)
            (key_map_of hairpin_out)
  = Ok [BetaStrand [hairpin_residue 1; hairpin_residue 2] "A";
        Loop [hairpin_residue 3] "T";
        BetaStrand [hairpin_residue 4; hairpin_residue 5] "A"].
Proof. vm_compute. reflexivity. Qed.

(** The sheet A of the hairpin. *)
Lemma C8_nodes_are_strand_residues_with_an_edge_witness :
  exists ss_list sheet_list,
    pack_dssp_dict_into_ss_list hairpin_model (dssp_dict_of hairpin_out)
      (key_map_of hairpin_out) = Ok (ss_list, sheet_list) /\
    In (BetaStrand [hairpin_residue 1; hairpin_residue 2] "A") ss_list /\
    exists sheet,
      In sheet sheet_list /\ sheet_id sheet = "A" /\
      strand_list sheet = List.filter (is_strand_of "A") ss_list /\
      (forall n, In n (nodes (graph sheet)) ->
                 residue_in n (sheet_residues (strand_list sheet)) = true) /\
      (forall r, is_node (graph sheet) r <->
                 exists e, In e (edges (graph sheet)) /\ endpoint r e) /\
      (forall strand r, In strand (strand_list sheet) ->
                        (2 <= length (residue_list strand))%nat ->
                        In r (residue_list strand) -> is_node (graph sheet) r).
Proof.
  pose proof hairpin_segments as Hseg.
  destruct (pack_dssp_dict_into_ss_list hairpin_model (dssp_dict_of hairpin_out)
              (key_map_of hairpin_out)) as [[ss_list sheet_list]|e] eqn:E;
    [|discriminate].
  assert (Hin : In (BetaStrand [hairpin_residue 1; hairpin_residue 2] "A") ss_list).
  { simpl in Hseg. inversion Hseg. left. reflexivity. }
  exists ss_list, sheet_list. split; [reflexivity|]. split; [exact Hin|].
  exact (C8_nodes_are_strand_residues_with_an_edge hairpin_model _ _ ss_list sheet_list
           _ "A" E Hin).
Defined.

(** C8, as stated, fails: the isolated bridge residue 2 of [bridge_out] is the
    one strand of sheet A, so it belongs to the union of the residues of the
    strands with that label, but the graph of the sheet has no edge and
    therefore no node. *)
Lemma C8_single_residue_strand_is_no_node :
  pack_dssp_dict_into_ss_list bridge_model (dssp_dict_of bridge_out)
    (key_map_of bridge_out)
  = Ok ([Loop [hairpin_residue 1] " "; BetaStrand [hairpin_residue 2] "A";
         Loop [hairpin_residue 3] " "],
        [mkSheet "A" [BetaStrand [hairpin_residue 2] "A"] (mkGraph [] [])]) /\
  In (hairpin_residue 2) (sheet_residues [BetaStrand [hairpin_residue 2] "A"]) /\
  ~ is_node (mkGraph [] []) (hairpin_residue 2).
Proof.
  split; [vm_compute; reflexivity|]. split; [left; reflexivity|].
  unfold is_node. simpl. discriminate.
Qed.
End SheetGraphFacts.

(** ** Frames, Euler angles and random rotations *)

Module FrameMathMore.
Import PDB FrameMath FrameMathFacts RandomGeometry Examples.
Local Open Scope R_scope.

Ltac m33_unfold :=
  cbv [euler_angles_to_rotation_matrix rot_X rot_Y rot_Z matmul matvec identity
       det transpose col0 col1 col2 row0 row1 row2
       m00 m01 m02 m10 m11 m12 m20 m21 m22 dot cross vsub vx vy vz fst snd].

Lemma sin_cos_sq (x : R) : sin x * sin x + cos x * cos x = 1.
Proof. pose proof (sin2_cos2 x) as H. unfold Rsqr in H. exact H. Qed.

(** X1: Whatever the angles, [euler_angles_to_rotation_matrix] returns a rotation
    matrix. *)
Theorem euler_angles_give_rotation (theta_x theta_y theta_z : R) :
  is_rotation (euler_angles_to_rotation_matrix theta_x theta_y theta_z).
Proof.
  pose proof (sin_cos_sq theta_x) as Hx.
  pose proof (sin_cos_sq theta_y) as Hy.
  pose proof (sin_cos_sq theta_z) as Hz.
  split.
  - m33_unfold.
    generalize dependent (sin theta_x). generalize dependent (cos theta_x).
    generalize dependent (sin theta_y). generalize dependent (cos theta_y).
    generalize dependent (sin theta_z). generalize dependent (cos theta_z).
    intros cz sz Hz cy sy Hy cx sx Hx.
    f_equal; [f_equal|]; (f_equal; [f_equal|]); nsatz.
  - m33_unfold.
    generalize dependent (sin theta_x). generalize dependent (cos theta_x).
    generalize dependent (sin theta_y). generalize dependent (cos theta_y).
    generalize dependent (sin theta_z). generalize dependent (cos theta_z).
    intros cz sz Hz cy sy Hy cx sx Hx. nsatz.
Qed.




(** [np.arctan2] gives back an angle of (-pi, pi] from its sine and cosine,
    scaled by a positive factor. *)
Lemma arctan2_sin_cos (r theta : R) :
  0 < r -> - PI < theta <= PI ->
  arctan2 (r * sin theta) (r * cos theta) = theta.
Proof.
  intros Hr [Hlo Hhi]. pose proof PI_RGT_0 as Hpi.
  destruct (Rlt_dec (- (PI / 2)) theta) as [H1|H1];
    [destruct (Rlt_dec theta (PI / 2)) as [H2|H2]|].
  - (* the right half plane *)
    assert (Hc : 0 < cos theta) by (apply cos_gt_0; lra).
    unfold arctan2. destruct (Rlt_dec 0 (r * cos theta)) as [_|Hn]; [|nra].
    replace (r * sin theta / (r * cos theta)) with (tan theta)
      by (unfold tan; field; lra).
    apply atan_tan. lra.
  - destruct (Req_dec theta (PI / 2)) as [->|Hne].
    + rewrite cos_PI2, sin_PI2. unfold arctan2.
      destruct (Rlt_dec 0 (r * 0)) as [?|_]; [lra|].
      destruct (Rlt_dec (r * 0) 0) as [?|_]; [lra|].
      destruct (Rlt_dec 0 (r * 1)) as [_|?]; [done|lra].
    + (* the upper left quadrant *)
      assert (Hc : cos theta < 0) by (apply cos_lt_0; lra).
      assert (Hs : 0 <= sin theta) by (apply sin_ge_0; lra).
      unfold arctan2. destruct (Rlt_dec 0 (r * cos theta)) as [?|_]; [nra|].
      destruct (Rlt_dec (r * cos theta) 0) as [_|?]; [|nra].
      destruct (Rle_dec 0 (r * sin theta)) as [_|?]; [|nra].
      replace (r * sin theta / (r * cos theta)) with (tan (theta - PI)).
      * rewrite atan_tan by lra. ring.
      * unfold tan. rewrite sin_minus, cos_minus, cos_PI, sin_PI. field. lra.
  - destruct (Req_dec theta (- (PI / 2))) as [->|Hne].
    + rewrite cos_neg, sin_neg, cos_PI2, sin_PI2. unfold arctan2.
      destruct (Rlt_dec 0 (r * 0)) as [?|_]; [lra|].
      destruct (Rlt_dec (r * 0) 0) as [?|_]; [lra|].
      destruct (Rlt_dec 0 (r * - (1))) as [?|_]; [lra|].
      destruct (Rlt_dec (r * - (1)) 0) as [_|?]; [done|lra].
    + (* the lower left quadrant *)
      assert (Hc : cos theta < 0).
      { rewrite <- cos_neg. apply cos_lt_0; lra. }
      assert (Hs : sin theta < 0) by (apply sin_lt_0_var; lra).
      unfold arctan2. destruct (Rlt_dec 0 (r * cos theta)) as [?|_]; [nra|].
      destruct (Rlt_dec (r * cos theta) 0) as [_|?]; [|nra].
      destruct (Rle_dec 0 (r * sin theta)) as [?|_]; [nra|].
      replace (r * sin theta / (r * cos theta)) with (tan (theta + PI)).
      * rewrite atan_tan by lra. ring.
      * unfold tan. rewrite neg_sin, neg_cos. field. lra.
Qed.

(** X3: Angles to matrix and back: for theta_x and theta_z in (-pi, pi] and
    theta_y strictly between -pi/2 and pi/2, the angles extracted from
    [euler_angles_to_rotation_matrix] are the angles put in. *)
Theorem euler_angles_round_trip (theta_x theta_y theta_z : R) :
  - PI < theta_x <= PI ->
  - (PI / 2) < theta_y < PI / 2 ->
  - PI < theta_z <= PI ->
  rotation_matrix_to_euler_angles
    (euler_angles_to_rotation_matrix theta_x theta_y theta_z)
  = (theta_x, theta_y, theta_z).
Proof.
  intros Hx Hy Hz. pose proof PI_RGT_0 as Hpi.
  assert (Hcy : 0 < cos theta_y) by (apply cos_gt_0; lra).
  unfold rotation_matrix_to_euler_angles.
  set (m := euler_angles_to_rotation_matrix theta_x theta_y theta_z).
  assert (E21 : m21 m = cos theta_y * sin theta_x) by (subst m; m33_unfold; ring).
  assert (E22 : m22 m = cos theta_y * cos theta_x) by (subst m; m33_unfold; ring).
  assert (E20 : - m20 m = 1 * sin theta_y) by (subst m; m33_unfold; ring).
  assert (E10 : m10 m = cos theta_y * sin theta_z) by (subst m; m33_unfold; ring).
  assert (E00 : m00 m = cos theta_y * cos theta_z) by (subst m; m33_unfold; ring).
  assert (Es : sqrt (m21 m ^ 2 + m22 m ^ 2) = 1 * cos theta_y).
  { rewrite E21, E22.
    replace ((cos theta_y * sin theta_x) ^ 2 + (cos theta_y * cos theta_x) ^ 2)
      with (cos theta_y * cos theta_y).
    - rewrite sqrt_square by lra. ring.
    - pose proof (sin_cos_sq theta_x). nra. }
  rewrite Es, E20, E21, E22, E10, E00.
  rewrite !arctan2_sin_cos by lra. reflexivity.
Qed.

Lemma euler_angles_round_trip_witness :
  rotation_matrix_to_euler_angles
    (euler_angles_to_rotation_matrix PI 0 (- (PI / 2)))
  = (PI, 0, - (PI / 2)).
Proof.
  pose proof PI_RGT_0 as Hpi.
  apply (euler_angles_round_trip PI 0 (- (PI / 2))); lra.
Defined.

Lemma norm_zero_vector : norm (0, 0, 0) = 0.
Proof.
  unfold norm, dot, vx, vy, vz. simpl.
  replace (0 * 0 + 0 * 0 + 0 * 0) with 0 by ring. apply sqrt_0.
Qed.

Lemma norm_zero_inv (v : V3) : norm v = 0 -> v = (0, 0, 0).
Proof.
  intros H. apply dot_self_zero. unfold norm in H.
  apply sqrt_eq_0 in H; [done | apply dot_self_nonneg].
Qed.

Lemma normalize_zero : normalize (0, 0, 0) = (0, 0, 0).
Proof.
  unfold normalize. rewrite norm_zero_vector.
  destruct (Req_dec_T 0 0); [done | lra].
Qed.

Lemma norm_normalize (v : V3) : v <> (0, 0, 0) -> norm (normalize v) = 1.
Proof.
  intros Hv. unfold norm. rewrite normalize_unit by done. apply sqrt_1.
Qed.



Lemma cross_zero_l (w : V3) : cross (0, 0, 0) w = (0, 0, 0).
Proof. destruct w as [[a b] c]. unfold cross, vx, vy, vz. simpl. v3_eq; ring. Qed.


Lemma vsub_self (v : V3) : vsub v v = (0, 0, 0).
Proof. destruct v as [[a b] c]. unfold vsub, vx, vy, vz. simpl. v3_eq; ring. Qed.

Lemma cross_zero_r (w : V3) : cross w (0, 0, 0) = (0, 0, 0).
Proof. destruct w as [[a b] c]. unfold cross, vx, vy, vz. simpl. v3_eq; ring. Qed.

(** X5: A residue whose N atom or whose C atom has the coordinates of its CA
    atom raises nothing: [get_residue_stub_matrix] returns a singular basis,
    whose first column is normalize(N - CA) and whose second and third
    columns are zero. *)
Theorem stub_matrix_degenerate (residue : Residue V3) (n ca c : V3) :
  get_coord residue "N" = Ok n ->
  get_coord residue "CA" = Ok ca ->
  get_coord residue "C" = Ok c ->
  n = ca \/ c = ca ->
  exists basis,
    get_residue_stub_matrix residue = Ok (basis, ca) /\
    col0 basis = normalize (vsub n ca) /\
    col1 basis = (0, 0, 0) /\ col2 basis = (0, 0, 0) /\
    det basis = 0.
Proof.
  intros Hn Hca Hc Hsame.
  unfold get_residue_stub_matrix. rewrite Hn, Hca, Hc. simpl.
  eexists. split; [reflexivity|].
  assert (Hz : normalize (cross (normalize (vsub n ca)) (vsub c ca)) = (0, 0, 0)).
  { destruct Hsame as [->| ->].
    - by rewrite vsub_self, normalize_zero, cross_zero_l, normalize_zero.
    - by rewrite vsub_self, cross_zero_r, normalize_zero. }
  rewrite Hz, cross_zero_l.
  destruct (transpose_cols (normalize (vsub n ca)) (0, 0, 0) (0, 0, 0)) as (-> & -> & ->).
  repeat split; try done.
  rewrite det_transpose_rows, cross_zero_l.
  destruct (normalize (vsub n ca)) as [[a b] d]. unfold dot, vx, vy, vz. simpl. ring.
Qed.

(** A residue whose C atom lies on its CA atom. *)
Lemma stub_matrix_degenerate_witness :
  exists basis,
    get_residue_stub_matrix
      (mkResidue "A" (" ", 1%Z, " ")
         [mkAtom "N" (1, 0, 0); mkAtom "CA" (0, 0, 0); mkAtom "C" (0, 0, 0)])
      = Ok (basis, (0, 0, 0)) /\
    col0 basis = normalize (vsub (1, 0, 0) (0, 0, 0)) /\
    col1 basis = (0, 0, 0) /\ col2 basis = (0, 0, 0) /\
    det basis = 0.
Proof.
  apply (stub_matrix_degenerate _ (1, 0, 0) (0, 0, 0) (0, 0, 0)); try reflexivity.
  by right.
Defined.

(** X6: A residue that lacks one of the atoms N, CA, C has no frame: the lookup
    raises [KeyError]. *)
Theorem stub_matrix_missing_atom (residue : Residue V3) :
  (exists name, In name ["N"; "CA"; "C"] /\
                Forall (fun a => atom_id a <> name) (res_atoms residue)) ->
  get_residue_stub_matrix residue = Raise KeyError.
Proof.
  intros (name & Hname & Hno).
  assert (Hraise : get_coord residue name = Raise KeyError).
  { unfold get_coord, residue_getitem.
    destruct (find _ _) as [a|] eqn:Hf; [|done].
    apply find_some in Hf as [Hin Hid]. apply bool_decide_eq_true in Hid.
    rewrite Forall_forall in Hno. apply list_elem_of_In, Hno in Hin. done. }
  assert (Hany : forall nm, get_coord residue nm = Raise KeyError \/
                            exists v, get_coord residue nm = Ok v).
  { intros nm. unfold get_coord, residue_getitem.
    destruct (find _ _); simpl; eauto. }
  unfold get_residue_stub_matrix.
  destruct Hname as [<-|[<-|[<-|[]]]].
  - by rewrite Hraise.
  - destruct (Hany "N") as [->|[v ->]]; [done|]. simpl. by rewrite Hraise.
  - destruct (Hany "N") as [->|[v ->]]; [done|]. simpl.
    destruct (Hany "CA") as [->|[v' ->]]; [done|]. simpl. by rewrite Hraise.
Qed.

Lemma stub_matrix_missing_atom_witness :
  get_residue_stub_matrix
    (mkResidue "A" (" ", 1%Z, " ") [mkAtom "N" (1, 0, 0); mkAtom "CA" (0, 0, 0)])
  = Raise KeyError.
Proof.
  apply stub_matrix_missing_atom. exists "C". split; [simpl; auto|].
  repeat constructor; simpl; discriminate.
Defined.

Lemma norm_pos_iff (v : V3) : 0 < norm v <-> v <> (0, 0, 0).
Proof.
  split; [|apply norm_pos]. intros H ->. rewrite norm_zero_vector in H. lra.
Qed.

(** X7: [random_unit_vector] passes over the draws of norm zero and returns the
    first other draw, normalized: a vector of unit length.  It is still
    drawing at the end of the draws exactly when all of them are zero. *)
Theorem random_unit_vector_spec (draws : list V3) :
  match random_unit_vector draws with
  | Some (u, rest) =>
      exists skipped v,
        draws = (skipped ++ v :: rest)%list /\
        Forall (fun s => s = (0, 0, 0)) skipped /\
        v <> (0, 0, 0) /\ u = normalize v /\ norm u = 1
  | None => Forall (fun s => s = (0, 0, 0)) draws
  end.
Proof.
  induction draws as [|v draws IH]; simpl; [constructor|].
  destruct (Rlt_dec 0 (norm v)) as [Hv|Hv].
  - apply norm_pos_iff in Hv. exists [], v.
    repeat split; try done. by apply norm_normalize.
  - assert (Ez : v = (0, 0, 0)).
    { apply norm_zero_inv. pose proof (sqrt_pos (dot v v)). unfold norm in *. lra. }
    destruct (random_unit_vector draws) as [[u rest]|].
    + destruct IH as (skipped & w & -> & Hsk & Hw & Hu & Hn).
      exists (v :: skipped), w. repeat split; try done. by constructor.
    + by constructor.
Qed.

Lemma random_unit_vector_unit (draws : list V3) (u : V3) (rest : list V3) :
  random_unit_vector draws = Some (u, rest) -> norm u = 1.
Proof.
  induction draws as [|v draws IH]; simpl; [done|].
  destruct (Rlt_dec 0 (norm v)) as [Hv|Hv]; [|done].
  intros H. inversion H; subst. by apply norm_normalize, norm_pos_iff.
Qed.

(** The retry loop, one turn at a time: while [x - t] has norm zero, [t] is
    replaced by the next result of [random_unit_vector]. *)
Lemma redraw_t_unfold (x t : V3) (draws : list V3) :
  redraw_t x t draws =
  if Req_dec_T (norm (vsub x t)) 0
  then '(t', rest) ← random_unit_vector draws; redraw_t x t' rest
  else Some (t, draws).
Proof.
  revert t. induction draws as [|v draws IH]; intros t.
  - simpl. by destruct (Req_dec_T _ _).
  - simpl. destruct (Req_dec_T (norm (vsub x t)) 0) as [E|E]; [|done].
    destruct (Rlt_dec 0 (norm v)); [done|].
    rewrite IH. by destruct (Req_dec_T _ _).
Qed.

Lemma redraw_t_spec (x t : V3) (draws : list V3) (t' : V3) (rest : list V3) :
  norm t = 1 ->
  redraw_t x t draws = Some (t', rest) ->
  norm t' = 1 /\ vsub x t' <> (0, 0, 0).
Proof.
  revert t. induction draws as [|v draws IH]; intros t Ht H; simpl in H.
  - destruct (Req_dec_T (norm (vsub x t)) 0) as [E|E]; [done|].
    inversion H; subst. split; [done|]. intros E'. rewrite E' in E.
    by rewrite norm_zero_vector in E.
  - destruct (Req_dec_T (norm (vsub x t)) 0) as [E|E].
    + destruct (Rlt_dec 0 (norm v)) as [Hv|Hv].
      * apply (IH (normalize v)); [|done]. apply norm_normalize.
        by apply norm_pos_iff.
      * by apply (IH t).
    + inversion H; subst. split; [done|]. intros E'. rewrite E' in E.
      by rewrite norm_zero_vector in E.
Qed.

(** An orthonormal pair of rows and their cross product make a rotation. *)
Lemma is_rotation_rows (x y : V3) :
  dot x x = 1 -> dot y y = 1 -> dot x y = 0 -> is_rotation (x, y, cross x y).
Proof.
  destruct x as [[x1 x2] x3], y as [[y1 y2] y3].
  unfold is_rotation. m33_unfold. intros Hx Hy Hxy. split.
  - f_equal; [f_equal|]; (f_equal; [f_equal|]); nsatz.
  - nsatz.
Qed.

Lemma norm_one_dot (v : V3) : norm v = 1 -> dot v v = 1.
Proof. intros H. rewrite <- norm_sqr, H. ring. Qed.

(** X8: [random_rotation_matrix] returns the rows x, normalize(x × t) and their
    cross product for two unit vectors x and t that differ.  When x and t are
    not parallel this is a rotation matrix.  When t is the opposite of x,
    which the retry loop lets through, the second and third rows are zero. *)
Theorem random_rotation_matrix_spec (draws : list V3) (m : M33) (rest : list V3) :
  random_rotation_matrix draws = Some (m, rest) ->
  exists t,
    norm (row0 m) = 1 /\ norm t = 1 /\ t <> row0 m /\
    row1 m = normalize (cross (row0 m) t) /\
    row2 m = cross (row0 m) (row1 m) /\
    (cross (row0 m) t <> (0, 0, 0) -> is_rotation m) /\
    (cross (row0 m) t = (0, 0, 0) ->
     row1 m = (0, 0, 0) /\ row2 m = (0, 0, 0) /\ det m = 0).
Proof.
  unfold random_rotation_matrix. intros H.
  destruct (random_unit_vector draws) as [[x d1]|] eqn:Hx; [|done]. simpl in H.
  apply random_unit_vector_unit in Hx as Hnx.
  destruct (random_unit_vector d1) as [[t0 d2]|] eqn:Ht; [|done]. simpl in H.
  apply random_unit_vector_unit in Ht as Hnt0.
  destruct (redraw_t x t0 d2) as [[t d3]|] eqn:Hr; [|done]. simpl in H.
  inversion H; subst. clear H.
  apply redraw_t_spec in Hr as [Hnt Hdiff]; [|done].
  exists t. unfold row0, row1, row2. simpl.
  split; [done|]. split; [done|]. split.
  { intros ->. apply Hdiff. destruct x as [[a b] c].
    unfold vsub, vx, vy, vz. simpl. v3_eq; ring. }
  split; [done|]. split; [done|]. split.
  - intros Hc. apply is_rotation_rows.
    + by apply norm_one_dot.
    + by apply normalize_unit.
    + rewrite (normalize_nonzero _ Hc).
      pose proof (norm_pos _ Hc). rewrite dot_vdiv_r by lra.
      rewrite dot_cross_left. field. lra.
  - intros ->. rewrite normalize_zero. split; [done|].
    assert (E : cross x (0, 0, 0) = (0, 0, 0)).
    { destruct x as [[a b] c]. unfold cross, vx, vy, vz. simpl. v3_eq; ring. }
    rewrite E. split; [done|].
    destruct x as [[a b] c]. m33_unfold. ring.
Qed.

Lemma normalize_of_unit (v : V3) : norm v = 1 -> normalize v = v.
Proof.
  intros H. unfold normalize. rewrite H.
  destruct (Req_dec_T 1 0) as [?|_]; [lra|].
  destruct v as [[a b] c]. unfold vdiv, vx, vy, vz. simpl. v3_eq; field.
Qed.

Lemma random_unit_vector_unit_draw (v : V3) (rest : list V3) :
  norm v = 1 -> random_unit_vector (v :: rest) = Some (v, rest).
Proof.
  intros H. simpl. rewrite H. destruct (Rlt_dec 0 1) as [_|?]; [|lra].
  by rewrite normalize_of_unit.
Qed.

Lemma norm_axis (a : R) : a * a = 1 -> norm (a, 0, 0) = 1.
Proof.
  intros H. unfold norm, dot, vx, vy, vz. simpl.
  replace (a * a + 0 * 0 + 0 * 0) with 1 by lra. apply sqrt_1.
Qed.

Lemma opposite_draws :
  random_rotation_matrix [(1, 0, 0); (-1, 0, 0)]
  = Some (((1, 0, 0), (0, 0, 0), (0, 0, 0)), []).
Proof.
  unfold random_rotation_matrix.
  rewrite random_unit_vector_unit_draw by (apply norm_axis; lra). simpl option_bind.
  cbn [mbind option_bind].
  rewrite random_unit_vector_unit_draw by (apply norm_axis; lra).
  cbn [mbind option_bind redraw_t].
  destruct (Req_dec_T (norm (vsub (1, 0, 0) (-1, 0, 0))) 0) as [E|_].
  - apply norm_zero_inv in E. unfold vsub, vx, vy, vz in E. simpl in E.
    assert (1 - -1 = 0) by congruence. lra.
  - cbn [mbind option_bind].
    assert (Ec : cross (1, 0, 0) (-1, 0, 0) = (0, 0, 0)).
    { unfold cross, vx, vy, vz. simpl. v3_eq; ring. }
    rewrite Ec, normalize_zero.
    assert (Ez : cross (1, 0, 0) (0, 0, 0) = (0, 0, 0)).
    { unfold cross, vx, vy, vz. simpl. v3_eq; ring. }
    by rewrite Ez.
Qed.

(** Two opposite draws. *)
Lemma random_rotation_matrix_spec_witness :
  exists t,
    norm (row0 ((1, 0, 0), (0, 0, 0), (0, 0, 0))) = 1 /\ norm t = 1 /\
    t <> row0 ((1, 0, 0), (0, 0, 0), (0, 0, 0)) /\
    row1 ((1, 0, 0), (0, 0, 0), (0, 0, 0))
      = normalize (cross (row0 ((1, 0, 0), (0, 0, 0), (0, 0, 0))) t) /\
    row2 ((1, 0, 0), (0, 0, 0), (0, 0, 0))
      = cross (row0 ((1, 0, 0), (0, 0, 0), (0, 0, 0)))
              (row1 ((1, 0, 0), (0, 0, 0), (0, 0, 0))) /\
    (cross (row0 ((1, 0, 0), (0, 0, 0), (0, 0, 0))) t <> (0, 0, 0) ->
     is_rotation ((1, 0, 0), (0, 0, 0), (0, 0, 0))) /\
    (cross (row0 ((1, 0, 0), (0, 0, 0), (0, 0, 0))) t = (0, 0, 0) ->
     row1 ((1, 0, 0), (0, 0, 0), (0, 0, 0)) = (0, 0, 0) /\
     row2 ((1, 0, 0), (0, 0, 0), (0, 0, 0)) = (0, 0, 0) /\
     det ((1, 0, 0), (0, 0, 0), (0, 0, 0)) = 0).
Proof.
  apply (random_rotation_matrix_spec [(1, 0, 0); (-1, 0, 0)] _ []).
  apply opposite_draws.
Defined.
End FrameMathMore.

(** ** The neighbour search: what it returns and when it raises *)

Module NeighborFinderMore.
Import PDB NeighborFinder NeighborFinderFacts Examples.

Section Generic.
Context {Coord : Type}.
Variable kd_query : list Coord -> Coord -> list nat.

(** The centres: every entry of [ca_list] is a CA atom of a residue of the
    model that is neither solvent nor hetero. *)
Lemma ca_list_of_spec (model : Model Coord) (r : Residue Coord) (a : Atom Coord) :
  In (r, a) (ca_list_of model) ->
  In r (get_residues model) /\ is_hetero_flag (flag r) = false /\
  In a (res_atoms r) /\ atom_id a = "CA".
Proof.
  unfold ca_list_of. intros H. apply in_concat in H as (l & Hl & Hin).
  apply in_map_iff in Hl as (r' & <- & Hr').
  destruct (is_hetero_flag (flag r')) eqn:Hh; [done|].
  unfold ca_of_residue in Hin. apply in_map_iff in Hin as (a' & E & Ha').
  inversion E; subst. apply list_elem_of_In, list_elem_of_filter in Ha' as [Hid Ha'].
  apply list_elem_of_In in Ha'. auto.
Qed.

Lemma inspect_Ok_in (ca_list : list (Residue Coord * Atom Coord))
    (indices : list nat) (res1 : Residue Coord) (js : list nat)
    (res2 : option (Residue Coord)) (r : Residue Coord) :
  inspect ca_list indices res1 js res2 = Ok (Some r) ->
  res2 = Some r \/ exists a, In (r, a) ca_list.
Proof.
  revert res2. induction js as [|j js IH]; intros res2 H; simpl in H.
  - inversion H. auto.
  - apply py_bind_Ok in H as (k & _ & H).
    apply py_bind_Ok in H as (a & Ha%py_index_Ok & H). cbv zeta in H.
    assert (H' : inspect ca_list indices res1 js (Some a.1) = Ok (Some r))
      by (by destruct (bonded res1 a.1)).
    apply IH in H' as [E|?]; [|auto].
    inversion E; subst. right. exists a.2.
    apply list_elem_of_In, list_elem_of_lookup. exists k. by destruct a.
Qed.

(** X10: Both residues of every returned pair are residues of the model that are
    neither solvent nor hetero and that carry a CA atom. *)
Theorem pairs_are_ca_residues (model : Model Coord)
    (l : list (Residue Coord * Residue Coord)) (res1 res2 : Residue Coord) :
  get_nearest_nonbonded_residues kd_query model = Ok l ->
  In (res1, res2) l ->
  Forall (fun r => In r (get_residues model) /\ is_hetero_flag (flag r) = false /\
                   exists a, In a (res_atoms r) /\ atom_id a = "CA")
         [res1; res2].
Proof.
  intros H Hin.
  destruct (get_nearest_nonbonded_residues_one_pair_each kd_query model l H) as [_ Hq].
  apply list_elem_of_In, list_elem_of_lookup in Hin as [i Hi].
  specialize (Hq i _ Hi). unfold query_one in Hq.
  apply py_bind_Ok in Hq as (a1 & Ha1%py_index_Ok & Hq).
  apply py_bind_Ok in Hq as (x & _ & Hq).
  apply py_bind_Ok in Hq as (r2 & Hi2 & Hq).
  destruct r2 as [r2|]; [|done]. inversion Hq; subst.
  apply inspect_Ok_in in Hi2 as [?|[a2 Ha2]]; [done|].
  assert (Hin1 : In (a1.1, a1.2) (ca_list_of model)).
  { apply list_elem_of_In, list_elem_of_lookup. exists i. by destruct a1. }
  apply ca_list_of_spec in Hin1 as (? & ? & ? & ?).
  apply ca_list_of_spec in Ha2 as (? & ? & ? & ?).
  repeat constructor; eauto.
Qed.

(** X11: The function returns one pair for each centre, and the first residues of
    the pairs are the residues of the centres, in the order of the model. *)
Theorem one_pair_per_centre (model : Model Coord)
    (l : list (Residue Coord * Residue Coord)) :
  get_nearest_nonbonded_residues kd_query model = Ok l ->
  map fst l = map fst (ca_list_of model).
Proof.
  intros H.
  destruct (get_nearest_nonbonded_residues_one_pair_each kd_query model l H) as [Hlen Hq].
  apply list_eq. intros i. rewrite !list_lookup_fmap.
  destruct (l !! i) as [p|] eqn:Hp.
  - specialize (Hq i p Hp). unfold query_one in Hq.
    apply py_bind_Ok in Hq as (a1 & Ha1%py_index_Ok & Hq).
    apply py_bind_Ok in Hq as (x & _ & Hq).
    apply py_bind_Ok in Hq as (r2 & _ & Hq).
    destruct r2 as [r2|]; [|done]. inversion Hq; subst.
    by rewrite Ha1.
  - apply lookup_ge_None in Hp. rewrite Hlen in Hp.
    apply lookup_ge_None in Hp. by rewrite Hp.
Qed.

Lemma py_index_raises {A} (l : list A) (j : nat) (e : exn) :
  py_index l j = Raise e -> e = IndexError /\ (length l <= j)%nat.
Proof.
  unfold py_index. destruct (l !! j) eqn:E; [done|]. intros H. inversion H.
  split; [done|]. by apply lookup_ge_None.
Qed.

Lemma inspect_raises (ca_list : list (Residue Coord * Atom Coord))
    (indices : list nat) (res1 : Residue Coord) (js : list nat)
    (res2 : option (Residue Coord)) (e : exn) :
  inspect ca_list indices res1 js res2 = Raise e -> e = IndexError.
Proof.
  revert res2. induction js as [|j js IH]; intros res2 H; simpl in H; [done|].
  apply py_bind_Raise_inv in H as [H|(k & _ & H)]; [by apply py_index_raises in H as [? _]|].
  apply py_bind_Raise_inv in H as [H|(a & _ & H)]; [by apply py_index_raises in H as [? _]|].
  cbv zeta in H. destruct (bonded res1 a.1); by eapply IH.
Qed.

Lemma inspect_Ok_Some (ca_list : list (Residue Coord * Atom Coord))
    (indices : list nat) (res1 : Residue Coord) (js : list nat)
    (res2 r : option (Residue Coord)) :
  inspect ca_list indices res1 js res2 = Ok r -> is_Some res2 \/ js <> [] -> is_Some r.
Proof.
  revert res2. induction js as [|j js IH]; intros res2 H Hs; simpl in H.
  - inversion H; subst. by destruct Hs.
  - apply py_bind_Ok in H as (k & _ & H).
    apply py_bind_Ok in H as (a & _ & H). cbv zeta in H.
    destruct (bonded res1 a.1); (eapply IH; [exact H|]); left; eauto.
Qed.

(** The only exception that leaves the body of the outer loop is
    [IndexError]; it does when the fourth neighbour is no centre. *)
Lemma query_one_raises (ca_list : list (Residue Coord * Atom Coord))
    (ca_coords : list Coord) (i : nat) (e : exn) :
  query_one kd_query ca_list ca_coords i = Raise e -> e = IndexError.
Proof.
  unfold query_one. intros H.
  apply py_bind_Raise_inv in H as [H|(a & _ & H)]; [by apply py_index_raises in H as [? _]|].
  apply py_bind_Raise_inv in H as [H|(x & _ & H)]; [by apply py_index_raises in H as [? _]|].
  apply py_bind_Raise_inv in H as [H|(r2 & Hi & H)]; [by apply inspect_raises in H|].
  destruct r2 as [r2|]; [done|].
  apply inspect_Ok_Some in Hi as [? ?]; [done | by right].
Qed.

Lemma query_one_no_fourth (ca_list : list (Residue Coord * Atom Coord))
    (ca_coords : list Coord) (i : nat) (x : Coord) :
  ca_coords !! i = Some x ->
  kd_query ca_coords x !! 3%nat = Some (length ca_list) ->
  query_one kd_query ca_list ca_coords i = Raise IndexError.
Proof.
  intros Hx Hk.
  destruct (query_one kd_query ca_list ca_coords i) as [[r1 r2]|e] eqn:Hq.
  - apply query_one_third in Hq as (x' & k & a & Hx' & Hk' & Ha & _).
    assert (x' = x) by congruence. subst x'.
    assert (k = length ca_list) by congruence. subst k.
    apply lookup_lt_Some in Ha. lia.
  - by apply query_one_raises in Hq as ->.
Qed.

Lemma first_query_raises (model : Model Coord) (c0 : Residue Coord * Atom Coord)
    (cl : list (Residue Coord * Atom Coord)) :
  (forall data x, (length data < 4)%nat ->
                  kd_query data x !! 3%nat = Some (length data)) ->
  ca_list_of model = c0 :: cl -> (length (c0 :: cl) < 4)%nat ->
  get_nearest_nonbonded_residues kd_query model = Raise IndexError.
Proof.
  intros Hpad Hcl Hlen. unfold get_nearest_nonbonded_residues. rewrite Hcl.
  cbn [map length seq query_all].
  rewrite (query_one_no_fourth _ _ 0 (atom_coord c0.2)); [done|done|].
  change (atom_coord c0.2 :: map (fun a : Residue Coord * Atom Coord => atom_coord a.2) cl)
    with (map (fun a : Residue Coord * Atom Coord => atom_coord a.2) (c0 :: cl)).
  rewrite Hpad by (rewrite length_map; exact Hlen).
  by rewrite length_map.
Qed.

(** X12: With no centre at all the index cannot be built and the function raises
    [ValueError]; with one, two or three centres the fourth neighbour does
    not exist, the index answers [len(data)] in its place, and the function
    raises [IndexError]. *)
Theorem too_few_centres (model : Model Coord) :
  (forall data x, (length data < 4)%nat ->
                  kd_query data x !! 3%nat = Some (length data)) ->
  (length (ca_list_of model) < 4)%nat ->
  get_nearest_nonbonded_residues kd_query model =
  Raise (if bool_decide (length (ca_list_of model) = 0%nat)
         then ValueError else IndexError).
Proof.
  intros Hpad Hlen. destruct (ca_list_of model) as [|c0 cl] eqn:Hcl.
  - unfold get_nearest_nonbonded_residues. by rewrite Hcl.
  - rewrite bool_decide_eq_false_2 by done. by eapply first_query_raises.
Qed.
End Generic.

Lemma insert_by_length (d : nat -> Z) (i : nat) (l : list nat) :
  length (BruteForce.insert_by d i l) = S (length l).
Proof.
  induction l as [|j l IH]; simpl; [done|].
  destruct (d i <=? d j); simpl; by rewrite ?IH.
Qed.

(** The brute-force index answers [len(data)] for a missing neighbour. *)
Lemma brute_force_pads (data : list BruteForce.Z3) (x : BruteForce.Z3) :
  (length data < 4)%nat ->
  BruteForce.kd_query data x !! 3%nat = Some (length data).
Proof.
  intros Hlen. unfold BruteForce.kd_query.
  set (d := fun i : nat => match data !! i with
                           | Some p => BruteForce.sqdist p x
                           | None => 0
                           end).
  assert (Hs : length (foldr (BruteForce.insert_by d) [] (seq 0 (length data)))
               = length data).
  { transitivity (length (seq 0 (length data))); [|apply length_seq].
    induction (seq 0 (length data)) as [|i l IH]; simpl; [done|].
    by rewrite insert_by_length, IH. }
  rewrite lookup_take_lt by lia.
  rewrite lookup_app_r by lia. rewrite Hs.
  apply lookup_replicate_2. lia.
Qed.

Lemma insert_by_length_R (d : nat -> R) (i : nat) (l : list nat) :
  length (BruteForceR.insert_by d i l) = S (length l).
Proof.
  induction l as [|j l IH]; simpl; [done|].
  destruct (Rle_dec (d i) (d j)); simpl; by rewrite ?IH.
Qed.

Lemma brute_force_R_pads (data : list FrameMath.V3) (x : FrameMath.V3) :
  (length data < 4)%nat ->
  BruteForceR.kd_query data x !! 3%nat = Some (length data).
Proof.
  intros Hlen. unfold BruteForceR.kd_query.
  set (d := fun i : nat => match data !! i with
                           | Some p => BruteForceR.sqdist p x
                           | None => 0%R
                           end).
  assert (Hs : length (foldr (BruteForceR.insert_by d) [] (seq 0 (length data)))
               = length data).
  { transitivity (length (seq 0 (length data))); [|apply length_seq].
    induction (seq 0 (length data)) as [|i l IH]; simpl; [done|].
    by rewrite insert_by_length_R, IH. }
  rewrite lookup_take_lt by lia.
  rewrite lookup_app_r by lia. rewrite Hs.
  apply lookup_replicate_2. lia.
Qed.

Lemma far_model_pairs :
  raises (get_nearest_nonbonded_residues BruteForce.kd_query far_model) = false.
Proof. vm_compute. reflexivity. Qed.

Lemma pairs_are_ca_residues_witness :
  exists l,
    get_nearest_nonbonded_residues BruteForce.kd_query far_model = Ok l /\
    In (far_r1, far_r2) l /\
    Forall (fun r => In r (get_residues far_model) /\ is_hetero_flag (flag r) = false /\
                     exists a, In a (res_atoms r) /\ atom_id a = "CA")
           [far_r1; far_r2].
Proof.
  pose proof far_model_pairs as Hok.
  destruct (get_nearest_nonbonded_residues BruteForce.kd_query far_model) as [l|e] eqn:E;
    [|discriminate].
  assert (Hin : In (far_r1, far_r2) l).
  { assert (Hl : Ok l = get_nearest_nonbonded_residues BruteForce.kd_query far_model)
      by done.
    vm_compute in Hl. inversion Hl. left. reflexivity. }
  exists l. split; [reflexivity|]. split; [exact Hin|].
  exact (pairs_are_ca_residues BruteForce.kd_query far_model l far_r1 far_r2 E Hin).
Defined.

Lemma one_pair_per_centre_witness :
  exists l,
    get_nearest_nonbonded_residues BruteForce.kd_query far_model = Ok l /\
    map fst l = map fst (ca_list_of far_model).
Proof.
  pose proof far_model_pairs as Hok.
  destruct (get_nearest_nonbonded_residues BruteForce.kd_query far_model) as [l|e] eqn:E;
    [|discriminate].
  exists l. split; [reflexivity|].
  exact (one_pair_per_centre BruteForce.kd_query far_model l E).
Defined.

(** A chain of two residues. *)
Lemma too_few_centres_witness :
  get_nearest_nonbonded_residues BruteForce.kd_query [mkChain "A" [far_r1; far_r2]] =
  Raise (if bool_decide (length (ca_list_of [mkChain "A" [far_r1; far_r2]]) = 0%nat)
         then ValueError else IndexError).
Proof.
  apply (too_few_centres BruteForce.kd_query [mkChain "A" [far_r1; far_r2]]).
  - apply brute_force_pads.
  - vm_compute. lia.
Defined.
End NeighborFinderMore.

(** ** Backbone torsions *)

Module TorsionMore.
Import PDB FrameMath Torsion Examples.

Lemma chain_getitem_Ok (chain : Chain V3) (n : Z) (r : Residue V3) :
  chain_getitem chain n = Ok r ->
  In r (chain_residues chain) /\ res_id r = (" ", n, " ").
Proof.
  unfold chain_getitem. destruct (find _ _) as [r'|] eqn:Hf; [|done].
  intros H. inversion H; subst r'. apply find_some in Hf as [Hin Hid].
  by apply bool_decide_eq_true in Hid.
Qed.

Lemma chain_getitem_raises (chain : Chain V3) (n : Z) (e : exn) :
  chain_getitem chain n = Raise e -> e = KeyError.
Proof. unfold chain_getitem. destruct (find _ _); congruence. Qed.

Lemma get_coord_raises (r : Residue V3) (name : string) (e : exn) :
  get_coord r name = Raise e -> e = KeyError.
Proof.
  unfold get_coord, residue_getitem. destruct (find _ _); simpl; congruence.
Qed.

Section Dihedral.
Variable calc_dihedral : V3 -> V3 -> V3 -> V3 -> R.

(** X9: The hetero test of [get_phi] and [get_psi] never fires: [chain[n]] finds
    only a residue with a blank hetero flag, so a solvent or hetero neighbour
    is reported as missing.  The only exception of the two functions is
    [KeyError]. *)
Theorem torsion_raises_only_KeyError (chain : Chain V3) (r : Residue V3) (e : exn) :
  get_phi calc_dihedral chain r = Raise e \/ get_psi calc_dihedral chain r = Raise e ->
  e = KeyError.
Proof.
  assert (Hflag : forall n adj, chain_getitem chain n = Ok adj ->
                                is_hetero_flag (flag adj) = false).
  { intros n adj [_ Hid]%chain_getitem_Ok. unfold flag. by rewrite Hid. }
  unfold get_phi, get_psi, get_vector. intros [H|H].
  - apply py_bind_Raise_inv in H as [H|(prev & Hp & H)];
      [by apply chain_getitem_raises in H|].
    rewrite (Hflag _ _ Hp) in H.
    repeat (apply py_bind_Raise_inv in H as [H|(? & _ & H)];
            [by apply get_coord_raises in H|]).
    done.
  - apply py_bind_Raise_inv in H as [H|(next & Hp & H)];
      [by apply chain_getitem_raises in H|].
    rewrite (Hflag _ _ Hp) in H.
    repeat (apply py_bind_Raise_inv in H as [H|(? & _ & H)];
            [by apply get_coord_raises in H|]).
    done.
Qed.
End Dihedral.

(** Residue 2 after a hetero residue 1. *)
Lemma torsion_raises_only_KeyError_witness :
  exists e, get_phi zero_dihedral het_chain end_r2 = Raise e /\ e = KeyError.
Proof.
  eexists. split; [reflexivity|].
  apply (torsion_raises_only_KeyError zero_dihedral het_chain end_r2).
  left. reflexivity.
Defined.
End TorsionMore.

(** ** The records of the extraction loop *)

Module EncoderMore.
Import PDB FrameMath FrameMathFacts Torsion BackboneMicroEnvironmentFeature.
Import EncoderFacts NeighborFinder NeighborFinderFacts NeighborFinderMore FrameMathMore Examples.
Local Open Scope R_scope.





Section Encoder.
Variable calc_dihedral : V3 -> V3 -> V3 -> V3 -> R.

(** What an emitted record holds. *)
Lemma encode_pair_record (model : Model V3) (fl : list feature_dict)
    (res1 res2 : Residue V3) (rec : feature_dict) :
  encode_pair calc_dihedral model fl (res1, res2) = Ok (fl ++ [rec])%list ->
  exists s1 ca1 s2 ca2,
    get_residue_stub_matrix res1 = Ok (s1, ca1) /\
    get_residue_stub_matrix res2 = Ok (s2, ca2) /\
    get_coord res1 "CA" = Ok ca1 /\ get_coord res2 "CA" = Ok ca2 /\
    torsions calc_dihedral model res1 res2
      = Ok (phi1 rec, psi1 rec, phi2 rec, psi2 rec) /\
    shift rec = matvec (transpose s1) (vsub ca2 ca1) /\
    (theta_x rec, theta_y rec, theta_z rec)
      = rotation_matrix_to_euler_angles (matmul (transpose s1) s2).
Proof.
  unfold encode_pair. intros H.
  destruct (torsions _ _ _ _) as [[[[p1 q1] p2] q2]|e] eqn:Ht.
  - apply py_bind_Ok in H as ([s1 o1] & Hs1 & H).
    apply py_bind_Ok in H as (ca2 & Hca2 & H).
    apply py_bind_Ok in H as (ca1 & Hca1 & H).
    apply py_bind_Ok in H as ([s2 o2] & Hs2 & H).
    inversion H as [E]. apply app_inv_head in E. inversion E; subst rec. simpl.
    assert (o1 = ca1 /\ o2 = ca2) as [-> ->].
    { unfold get_residue_stub_matrix in Hs1, Hs2.
      apply py_bind_Ok in Hs1 as (? & _ & Hs1).
      apply py_bind_Ok in Hs1 as (c1' & Hc1' & Hs1).
      apply py_bind_Ok in Hs1 as (? & _ & Hs1).
      apply py_bind_Ok in Hs2 as (? & _ & Hs2).
      apply py_bind_Ok in Hs2 as (c2' & Hc2' & Hs2).
      apply py_bind_Ok in Hs2 as (? & _ & Hs2).
      inversion Hs1; inversion Hs2; subst. split; congruence. }
    by exists s1, ca1, s2, ca2.
  - inversion H as [E]. exfalso.
    assert (Hl : length fl = length (fl ++ [rec])%list) by (by rewrite <- E).
    rewrite length_app in Hl. simpl in Hl. lia.
Qed.



(** X15: One record for each pair whose four torsions are available, in the order
    of the pairs and holding these torsions; nothing for the other pairs. *)
Theorem one_record_per_available_pair (model : Model V3)
    (pairs : list (Residue V3 * Residue V3)) (fl : list feature_dict) :
  exists new,
    encode_pairs calc_dihedral model pairs fl = Ok (fl ++ new)%list /\
    Forall2 (fun p rec => torsions calc_dihedral model p.1 p.2
                          = Ok (phi1 rec, psi1 rec, phi2 rec, psi2 rec))
            (filter (fun p => raises (torsions calc_dihedral model p.1 p.2) = false) pairs)
            new.
Proof.
  revert fl. induction pairs as [|[res1 res2] pairs IH]; intros fl.
  - exists []. simpl. rewrite app_nil_r. split; [done|]. constructor.
  - cbn [encode_pairs].
    destruct (encode_pair_total calc_dihedral model fl (res1, res2))
      as (fl1 & Hfl1 & [->|[rec ->]]).
    + (* skipped *)
      rewrite Hfl1. cbn [mbind py_bind].
      destruct (IH fl) as (new & Hnew & Hall). exists new. split; [done|].
      rewrite filter_cons_False; [done|]. simpl.
      unfold encode_pair in Hfl1.
      destruct (torsions calc_dihedral model res1 res2) as [[[[p1 q1] p2] q2]|e];
        [|done].
      exfalso.
      apply py_bind_Ok in Hfl1 as ([s1 o1] & _ & H).
      apply py_bind_Ok in H as (ca2 & _ & H).
      apply py_bind_Ok in H as (ca1 & _ & H).
      apply py_bind_Ok in H as ([s2 o2] & _ & H).
      inversion H as [E].
      assert (Hl : length fl = S (length fl)).
      { rewrite <- E at 1. rewrite length_app. simpl. lia. }
      lia.
    + rewrite Hfl1. cbn [mbind py_bind].
      destruct (IH (fl ++ [rec])%list) as (new & Hnew & Hall).
      exists (rec :: new). rewrite <- app_assoc in Hnew. split; [done|].
      apply encode_pair_record in Hfl1
        as (s1 & ca1 & s2 & ca2 & _ & _ & _ & _ & Ht & _).
      rewrite filter_cons_True by (simpl; by rewrite Ht).
      by constructor.
Qed.
End Encoder.

Section File.
Variable calc_dihedral : V3 -> V3 -> V3 -> V3 -> R.
Variable kd_query : list V3 -> V3 -> list nat.

Lemma query_all_raises (ca_list : list (Residue V3 * Atom V3)) (ca_coords : list V3)
    (idxs : list nat) (acc : list (Residue V3 * Residue V3)) (e : exn) :
  query_all kd_query ca_list ca_coords idxs acc = Raise e -> e = IndexError.
Proof.
  revert acc. induction idxs as [|i idxs IH]; intros acc H; simpl in H; [done|].
  apply py_bind_Raise_inv in H as [H|(p & _ & H)].
  - by apply query_one_raises in H.
  - by eapply IH.
Qed.

Lemma get_nearest_raises (model : Model V3) (e : exn) :
  get_nearest_nonbonded_residues kd_query model = Raise e ->
  e = ValueError \/ e = IndexError.
Proof.
  unfold get_nearest_nonbonded_residues.
  destruct (map _ (ca_list_of model)) eqn:E.
  - intros H. inversion H. auto.
  - intros H. apply query_all_raises in H. auto.
Qed.

(** X16: The neighbour search lies outside the [try]: a structure with a model of
    fewer than four centres makes [extract_from_one_file] raise [ValueError]
    or [IndexError], whatever its other models hold. *)
Theorem small_model_aborts_file (structure : list (Model V3)) (model : Model V3)
    (fl : list feature_dict) :
  (forall data x, (length data < 4)%nat ->
                  kd_query data x !! 3%nat = Some (length data)) ->
  In model structure ->
  (length (ca_list_of model) < 4)%nat ->
  exists e, extract_from_structure calc_dihedral kd_query structure fl = Raise e /\
            (e = ValueError \/ e = IndexError).
Proof.
  intros Hpad Hin Hlen. revert fl.
  induction structure as [|m structure IH]; intros fl; [done|].
  cbn [extract_from_structure].
  destruct (get_nearest_nonbonded_residues kd_query m) as [nb|e] eqn:Hnb.
  - cbn [mbind py_bind].
    destruct (encode_pairs_total calc_dihedral m nb fl) as (fl' & -> & _).
    cbn [mbind py_bind].
    destruct Hin as [->|Hin]; [|by apply IH].
    destruct (ca_list_of model) as [|c0 cl] eqn:Hcl.
    + unfold get_nearest_nonbonded_residues in Hnb. by rewrite Hcl in Hnb.
    + by rewrite (first_query_raises kd_query model c0 cl Hpad Hcl Hlen) in Hnb.
  - exists e. split; [done|]. by eapply get_nearest_raises.
Qed.
End File.





(** A structure whose second model has two residues. *)
Lemma small_model_aborts_file_witness :
  exists e,
    extract_from_structure zero_dihedral BruteForceR.kd_query [mid_model; end_model] []
      = Raise e /\
    (e = ValueError \/ e = IndexError).
Proof.
  apply (small_model_aborts_file zero_dihedral BruteForceR.kd_query
           [mid_model; end_model] end_model []).
  - apply brute_force_R_pads.
  - right. left. reflexivity.
  - unfold end_model, ca_list_of, get_residues. simpl. lia.
Defined.
End EncoderMore.

(** ** The parser: header, rows and the two dictionaries *)

Module ParserMore.
Import PDB PyStr SecondaryStructures Examples ParserFacts.

Lemma header_test (l : string) :
  (length (split_ws l) <? 2)%nat
  || negb (bool_decide (split_ws l !! 1%nat = Some "RESIDUE")) = false
  <-> is_header l.
Proof.
  unfold is_header. rewrite orb_false_iff, negb_false_iff, bool_decide_eq_true.
  split; [tauto|]. intros H. split; [|done].
  apply Nat.ltb_ge. apply lookup_lt_Some in H. lia.
Qed.

(** X17: [skip_header] answers the lines after the first header row, and raises
    [IndexError] when there is none. *)
Theorem skip_header_spec (lines : list string) :
  match skip_header lines with
  | Ok rows =>
      exists before h, lines = (before ++ h :: rows)%list /\
                       Forall (fun l => ~ is_header l) before /\ is_header h
  | Raise e => e = IndexError /\ Forall (fun l => ~ is_header l) lines
  end.
Proof.
  induction lines as [|l lines IH]; simpl; [by split|].
  destruct ((length (split_ws l) <? 2)%nat
            || negb (bool_decide (split_ws l !! 1%nat = Some "RESIDUE"))) eqn:Ht.
  - assert (Hl : ~ is_header l).
    { intros Hh. apply header_test in Hh. congruence. }
    destruct (skip_header lines) as [rows|e].
    + destruct IH as (before & h & -> & Hb & Hh).
      exists (l :: before), h. split; [done|]. split; [by constructor | done].
    + destruct IH as [-> Hall]. split; [done | by constructor].
  - apply header_test in Ht. by exists [], l.
Qed.

Lemma skip_header_no_header (lines : list string) :
  Forall (fun l => ~ is_header l) lines -> skip_header lines = Raise IndexError.
Proof.
  induction 1 as [|l lines Hl _ IH]; simpl; [done|].
  destruct ((length (split_ws l) <? 2)%nat
            || negb (bool_decide (split_ws l !! 1%nat = Some "RESIDUE"))) eqn:Ht; [done|].
  by apply header_test in Ht.
Qed.

Section Parser.
Variable py_float : string -> py PrimFloat.float.

(** X18: A text without a header row, for instance an empty one, makes
    [make_dssp_dict] raise [IndexError] when the diagnostic text is blank. *)
Theorem no_header_raises (out err : string) :
  strip err = "" ->
  Forall (fun l => ~ is_header l) (split_on "010"%char out) ->
  make_dssp_dict py_float out err = Raise IndexError.
Proof.
  intros Herr Hno. unfold make_dssp_dict.
  rewrite bool_decide_eq_false_2 by (by intros H). cbn [mbind py_bind].
  by rewrite (skip_header_no_header _ Hno).
Qed.

(** The loop over the rows: for every key the record of the last row with
    that key, for every sequence number the key of the last row with that
    number, and the old entry where no row has it. *)
Lemma parse_rows_last (ls : list string)
    (dssp_dict dssp_dict' : gmap dssp_key dssp_record)
    (key_map key_map' : gmap Z dssp_key) :
  parse_rows py_float ls dssp_dict key_map = Ok (dssp_dict', key_map') ->
  (forall k, dssp_dict' !! k =
             match last (filter (fun kr => kr.1 = k) (parsed_rows py_float ls)) with
             | Some kr => Some kr.2
             | None => dssp_dict !! k
             end) /\
  (forall s, key_map' !! s =
             match last (filter (fun kr => seq_num kr.2 = s) (parsed_rows py_float ls)) with
             | Some kr => Some kr.1
             | None => key_map !! s
             end).
Proof.
  revert dssp_dict key_map.
  induction ls as [|l ls IH]; intros dssp_dict key_map H; simpl in H.
  - inversion H; subst. by split.
  - apply py_bind_Ok in H as (row & Hrow & H). simpl. rewrite Hrow.
    destruct row as [[key rec]|]; [|by apply IH].
    apply IH in H as [Hd Hk]. split.
    + intros k. rewrite Hd. rewrite filter_cons. simpl.
      destruct (decide (key = k)) as [->|Hne].
      * destruct (filter _ (parsed_rows py_float ls)) as [|kr rest] eqn:Hf.
        -- simpl. by rewrite lookup_insert_eq.
        -- change (last ((k, rec) :: kr :: rest)) with (last (kr :: rest)).
           destruct (last (kr :: rest)) eqn:El; [done|]. by apply last_None in El.
      * destruct (last _); [done|]. by rewrite lookup_insert_ne.
    + intros s. rewrite Hk. rewrite filter_cons. simpl.
      destruct (decide (seq_num rec = s)) as [->|Hne].
      * destruct (filter _ (parsed_rows py_float ls)) as [|kr rest] eqn:Hf.
        -- simpl. by rewrite lookup_insert_eq.
        -- change (last ((key, rec) :: kr :: rest)) with (last (kr :: rest)).
           destruct (last (kr :: rest)) eqn:El; [done|]. by apply last_None in El.
      * destruct (last _); [done|]. by rewrite lookup_insert_ne.
Qed.

(** X19: The two dictionaries that [make_dssp_dict] returns hold, for every residue
    key, the record of the last data row with that key and, for every
    sequence number, the key of the last data row with that number; keys and
    numbers of no row are absent. *)
Theorem last_row_wins (out err : string)
    (dssp_dict : gmap dssp_key dssp_record) (key_map : gmap Z dssp_key) :
  make_dssp_dict py_float out err = Ok (dssp_dict, key_map) ->
  (forall k, dssp_dict !! k =
             snd <$> last (filter (fun kr => kr.1 = k) (data_rows py_float out))) /\
  (forall s, key_map !! s =
             fst <$> last (filter (fun kr => seq_num kr.2 = s) (data_rows py_float out))).
Proof.
  unfold make_dssp_dict, data_rows. intros H.
  apply py_bind_Ok in H as (u & _ & H).
  apply py_bind_Ok in H as (rows & -> & H).
  apply parse_rows_last in H as [Hd Hk]. split.
  - intros k. rewrite Hd. by destruct (last _).
  - intros s. rewrite Hk. by destruct (last _).
Qed.

(** X20: Every key that the sequence-number index answers is a key of the
    dictionary of records. *)
Theorem key_map_values_have_records (out err : string)
    (dssp_dict : gmap dssp_key dssp_record) (key_map : gmap Z dssp_key)
    (s : Z) (k : dssp_key) :
  make_dssp_dict py_float out err = Ok (dssp_dict, key_map) ->
  key_map !! s = Some k -> is_Some (dssp_dict !! k).
Proof.
  unfold make_dssp_dict. intros H Hs.
  apply py_bind_Ok in H as (u & _ & H).
  apply py_bind_Ok in H as (rows & _ & H).
  apply parse_rows_last in H as [Hd Hk].
  rewrite Hk in Hs. rewrite Hd.
  destruct (last (filter (fun kr => seq_num kr.2 = s) _)) as [kr|] eqn:Hl; [|done].
  inversion Hs; subst k.
  apply last_Some in Hl as [pre Hl].
  assert (Hin : kr ∈ filter (fun kr => seq_num kr.2 = s) (parsed_rows py_float rows)).
  { rewrite Hl. apply elem_of_app. right. by apply list_elem_of_singleton. }
  apply list_elem_of_filter in Hin as [_ Hin].
  assert (Hin' : kr ∈ filter (fun kr' => kr'.1 = kr.1) (parsed_rows py_float rows)).
  { by apply list_elem_of_filter. }
  destruct (last (filter (fun kr' => kr'.1 = kr.1) _)) as [kr'|] eqn:Hl'; [by eexists|].
  apply last_None in Hl'. rewrite Hl' in Hin'. by apply not_elem_of_nil in Hin'.
Qed.
End Parser.

(** An empty output with an empty diagnostic text. *)
Lemma no_header_raises_witness :
  make_dssp_dict PyFloat.py_float "" "" = Raise IndexError.
Proof.
  apply no_header_raises; [reflexivity|].
  constructor; [|constructor]. unfold is_header. simpl. discriminate.
Defined.

Lemma last_row_wins_witness :
  exists dssp_dict key_map,
    make_dssp_dict PyFloat.py_float hairpin_out "" = Ok (dssp_dict, key_map) /\
    (forall k, dssp_dict !! k =
       snd <$> last (filter (fun kr => kr.1 = k) (data_rows PyFloat.py_float hairpin_out))) /\
    (forall s, key_map !! s =
       fst <$> last (filter (fun kr => seq_num kr.2 = s)
                       (data_rows PyFloat.py_float hairpin_out))).
Proof.
  pose proof hairpin_parses as Hp.
  destruct (make_dssp_dict PyFloat.py_float hairpin_out "") as [[d km]|e] eqn:E;
    [|discriminate].
  exists d, km. split; [reflexivity|].
  exact (last_row_wins PyFloat.py_float hairpin_out "" d km E).
Defined.

Lemma hairpin_key_4 : key_map_of hairpin_out !! 4 = Some ("A", 4).
Proof. vm_compute. reflexivity. Qed.

Lemma key_map_values_have_records_witness :
  exists dssp_dict key_map,
    make_dssp_dict PyFloat.py_float hairpin_out "" = Ok (dssp_dict, key_map) /\
    key_map !! 4 = Some ("A", 4) /\ is_Some (dssp_dict !! ("A", 4)).
Proof.
  pose proof hairpin_parses as Hp. pose proof hairpin_key_4 as Hk.
  unfold key_map_of in Hk.
  destruct (make_dssp_dict PyFloat.py_float hairpin_out "") as [[d km]|e] eqn:E;
    [|discriminate].
  exists d, km. split; [reflexivity|]. split; [exact Hk|].
  exact (key_map_values_have_records PyFloat.py_float hairpin_out "" d km 4 ("A", 4) E Hk).
Defined.
End ParserMore.

(** ** The segmentation of a model *)

Module SegmentMore.
Import PDB PyStr SecondaryStructures Examples SegmentFacts.

Section Segments.
Context {Coord : Type}.
Variable dssp_dict : gmap dssp_key dssp_record.
Variable c_id : string.

(** The inner loop of [segment_chain], by itself. *)
Definition scan (start_r_id : Z) (start_ss : string)
    (ss_list : list (@SecondaryStructure Coord)) :=
  fix scan (from_stop : list (Residue Coord)) (run : list (Residue Coord))
      (ss_map : gmap string string) {struct from_stop}
      : py (list SecondaryStructure * gmap string string) :=
    match from_stop with
    | [] =>
        '(seg, ss_map) ← make_segment ss_map dssp_dict c_id start_r_id start_ss run;
        Ok (ss_list ++ [seg], ss_map)%list
    | stop_r :: after_stop =>
        let stop_r_id := resseq stop_r in
        '(same, ss_map) ← same_ss ss_map dssp_dict (c_id, start_r_id) (c_id, stop_r_id);
        if (same : bool) then scan after_stop (run ++ [stop_r])%list ss_map
        else
          '(seg, ss_map) ← make_segment ss_map dssp_dict c_id start_r_id start_ss run;
          segment_chain dssp_dict c_id from_stop ss_map (ss_list ++ [seg])%list
    end.

Lemma elem_of_concat {A} (x : A) (ls : list (list A)) :
  x ∈ concat ls <-> exists l, x ∈ l /\ l ∈ ls.
Proof.
  rewrite list_elem_of_In, in_concat. split.
  - intros (l & Hl & Hx). exists l. by rewrite !list_elem_of_In.
  - intros (l & Hx & Hl). exists l. by rewrite <- !list_elem_of_In.
Qed.

Lemma bind_Ok {A B} (a : A) (f : A -> py B) : Ok a ≫= f = f a.
Proof. reflexivity. Qed.

Lemma segment_chain_cons (start_r : Residue Coord) (after_start : list (Residue Coord))
    (ss_map : gmap string string) (ss_list : list SecondaryStructure) :
  segment_chain dssp_dict c_id (start_r :: after_start) ss_map ss_list =
  d ← py_getitem dssp_dict (c_id, resseq start_r);
  scan (resseq start_r) (ss d) ss_list after_start [start_r] ss_map.
Proof. reflexivity. Qed.

Lemma scan_nil (start_r_id : Z) (start_ss : string) (ss_list : list SecondaryStructure)
    (run : list (Residue Coord)) (ss_map : gmap string string) :
  scan start_r_id start_ss ss_list [] run ss_map =
  '(seg, ss_map) ← make_segment ss_map dssp_dict c_id start_r_id start_ss run;
  Ok (ss_list ++ [seg], ss_map)%list.
Proof. reflexivity. Qed.

Lemma scan_cons (start_r_id : Z) (start_ss : string) (ss_list : list SecondaryStructure)
    (stop_r : Residue Coord) (after_stop run : list (Residue Coord))
    (ss_map : gmap string string) :
  scan start_r_id start_ss ss_list (stop_r :: after_stop) run ss_map =
  '(same, ss_map) ← same_ss ss_map dssp_dict (c_id, start_r_id) (c_id, resseq stop_r);
  if (same : bool) then scan start_r_id start_ss ss_list after_stop (run ++ [stop_r])%list ss_map
  else
    '(seg, ss_map) ← make_segment ss_map dssp_dict c_id start_r_id start_ss run;
    segment_chain dssp_dict c_id (stop_r :: after_stop) ss_map (ss_list ++ [seg])%list.
Proof. reflexivity. Qed.

(** [same_ss] on a second key without a record. *)
Lemma same_ss_missing (ss_map : gmap string string) (key1 key2 : dssp_key)
    (d1 : dssp_record) :
  dssp_dict !! key1 = Some d1 -> dssp_dict !! key2 = None ->
  same_ss ss_map dssp_dict key1 key2 = Raise KeyError.
Proof.
  intros H1 H2. unfold same_ss, py_getitem. rewrite H1, H2. simpl.
  by destruct (setdefault ss_map (ss d1) " ").
Qed.

(** The segment built for a run that starts at a residue with the record
    [d]. *)
Lemma make_segment_run (ss_map : gmap string string) (first : Residue Coord)
    (d : dssp_record) (rest : list (Residue Coord)) :
  ss_map_state ss_map ->
  dssp_dict !! (c_id, resseq first) = Some d ->
  Forall (fun r => exists d', dssp_dict !! (c_id, resseq r) = Some d' /\
                              segment_key d' = segment_key d) rest ->
  exists seg ss_map',
    make_segment ss_map dssp_dict c_id (resseq first) (ss d) (first :: rest)
      = Ok (seg, ss_map') /\
    residue_list seg = first :: rest /\ ss_map_state ss_map' /\
    segment_of_run dssp_dict c_id seg.
Proof.
  intros Hst Hd Hrest. unfold make_segment.
  destruct (decide ("H" = ss d)) as [EH|EH].
  { rewrite bool_decide_eq_true_2 by done.
    eexists _, _. split; [reflexivity|]. split; [done|]. split; [done|].
    exists first, rest, d. by repeat split. }
  rewrite bool_decide_eq_false_2 by done.
  destruct (decide ("E" = ss d)) as [EE|EE].
  { rewrite bool_decide_eq_true_2 by done. simpl.
    unfold py_getitem. rewrite Hd. simpl.
    eexists _, _. split; [reflexivity|]. split; [done|]. split; [done|].
    exists first, rest, d. repeat split; auto. }
  rewrite (bool_decide_eq_false_2 ("E" = ss d)) by done.
  destruct (decide ("B" = ss d)) as [EB|EB].
  { rewrite bool_decide_eq_true_2 by done. simpl.
    unfold py_getitem. rewrite Hd. simpl.
    eexists _, _. split; [reflexivity|]. split; [done|]. split; [done|].
    exists first, rest, d. repeat split; auto. }
  rewrite bool_decide_eq_false_2 by done. simpl.
  destruct (setdefault_state ss_map (ss d) Hst) as [Ht Hst'].
  destruct (setdefault ss_map (ss d) " ") as [t m]. simpl in Ht, Hst'.
  eexists _, _. split; [reflexivity|]. split; [done|]. split; [done|].
  exists first, rest, d. repeat split; auto.
Qed.

(** Neighbours in the list of segments differ. *)
Fixpoint neighbours_differ (l : list (@SecondaryStructure Coord)) : Prop :=
  match l with
  | s1 :: (s2 :: _) as rest => segments_differ dssp_dict c_id s1 s2 /\ neighbours_differ rest
  | _ => True
  end.

(** What one call of [segment_chain] adds to [ss_list]. *)
Definition chain_result (l : list (Residue Coord)) (ss_list : list SecondaryStructure)
    (res : py (list SecondaryStructure * gmap string string)) : Prop :=
  match res with
  | Ok (ss_list', ss_map') =>
      ss_map_state ss_map' /\
      exists new, ss_list' = (ss_list ++ new)%list /\
        concat (map residue_list new) = l /\
        Forall (segment_of_run dssp_dict c_id) new /\
        neighbours_differ new
  | Raise e =>
      e = KeyError /\ Exists (fun r => dssp_dict !! (c_id, resseq r) = None) l
  end.

Lemma first_segment_head (new : list SecondaryStructure) (r : Residue Coord)
    (l : list (Residue Coord)) :
  concat (map residue_list new) = r :: l ->
  Forall (segment_of_run dssp_dict c_id) new ->
  exists s rest, new = s :: rest /\ head (residue_list s) = Some r.
Proof.
  intros Hc Hf. destruct new as [|s rest]; [discriminate|].
  exists s, rest. split; [done|].
  apply Forall_cons in Hf as [(f & t & d & Hs & _) _].
  simpl in Hc. rewrite Hs in Hc. rewrite Hs. simpl in *. congruence.
Qed.

Lemma scan_result (n : nat) (start_r : Residue Coord) (d : dssp_record)
    (ss_list : list SecondaryStructure) :
  (forall l m sl, (length l <= n)%nat -> ss_map_state m ->
     chain_result l sl (segment_chain dssp_dict c_id l m sl)) ->
  dssp_dict !! (c_id, resseq start_r) = Some d ->
  forall from_stop rest m,
    (length from_stop <= n)%nat -> ss_map_state m ->
    Forall (fun r => exists d', dssp_dict !! (c_id, resseq r) = Some d' /\
                                segment_key d' = segment_key d) rest ->
    chain_result ((start_r :: rest) ++ from_stop) ss_list
      (scan (resseq start_r) (ss d) ss_list from_stop (start_r :: rest) m).
Proof.
  intros IH Hd from_stop.
  induction from_stop as [|stop_r after_stop IHs]; intros rest m Hlen Hst Hrest.
  - rewrite scan_nil.
    destruct (make_segment_run m start_r d rest Hst Hd Hrest)
      as (seg & m' & -> & Hseg & Hst' & Hrun).
    simpl. split; [done|]. exists [seg]. split; [done|].
    simpl. rewrite Hseg. rewrite !app_nil_r. split; [done|].
    split; [by constructor | done].
  - rewrite scan_cons.
    destruct (dssp_dict !! (c_id, resseq stop_r)) as [d2|] eqn:H2.
    2:{ rewrite (same_ss_missing m _ _ d Hd H2). simpl. split; [done|].
        apply Exists_cons_tl, Exists_app. right. by constructor. }
    destruct (same_ss_spec m dssp_dict _ _ d d2 Hst Hd H2) as (b & m1 & -> & Hm1 & Hb).
    rewrite bind_Ok. cbv beta iota. destruct b.
    + assert (Hk : segment_key d2 = segment_key d).
      { unfold segment_key. destruct Hb as [Hb _]. destruct (Hb eq_refl) as [-> ->]. done. }
      specialize (IHs (rest ++ [stop_r])%list m1).
      assert (Hl : ((start_r :: rest) ++ stop_r :: after_stop)%list
                   = ((start_r :: rest ++ [stop_r]) ++ after_stop)%list)
        by (simpl; by rewrite <- app_assoc).
      rewrite Hl. apply IHs; [simpl in Hlen; lia | done |].
      apply Forall_app. split; [done|]. constructor; [|done]. by exists d2.
    + destruct (make_segment_run m1 start_r d rest Hm1 Hd Hrest)
        as (seg & m2 & -> & Hseg & Hm2 & Hrun).
      rewrite bind_Ok. cbv beta iota.
      pose proof (IH (stop_r :: after_stop) m2 (ss_list ++ [seg])%list Hlen Hm2) as Hrec.
      destruct (segment_chain dssp_dict c_id (stop_r :: after_stop) m2 (ss_list ++ [seg]))
        as [[sl' m']|e].
      * destruct Hrec as (Hm' & new & -> & Hc & Hruns & Hnb).
        split; [done|]. exists (seg :: new). split; [by rewrite <- app_assoc|].
        split; [simpl; by rewrite Hseg, Hc|].
        split; [by constructor|].
        destruct (first_segment_head new stop_r after_stop Hc Hruns)
          as (s2 & new' & -> & Hh).
        split; [|done].
        exists start_r, stop_r, d, d2. rewrite Hseg. repeat split; try done.
        intros Hkey. unfold segment_key in Hkey.
        assert (false = true); [|discriminate].
        apply Hb. by inversion Hkey.
      * destruct Hrec as [-> Hex]. split; [done|].
        apply Exists_cons_tl, Exists_app. by right.
Qed.

Lemma segment_chain_result (l : list (Residue Coord)) (m : gmap string string)
    (sl : list SecondaryStructure) :
  ss_map_state m -> chain_result l sl (segment_chain dssp_dict c_id l m sl).
Proof.
  remember (length l) as n eqn:Hn.
  assert (Hle : (length l <= n)%nat) by lia. clear Hn.
  revert l m sl Hle. induction n as [|n IH]; intros l m sl Hle Hst.
  - destruct l; [|simpl in Hle; lia]. simpl. split; [done|].
    exists []. by rewrite app_nil_r.
  - destruct l as [|start_r after]; [simpl; split; [done|]; exists []; by rewrite app_nil_r|].
    rewrite segment_chain_cons.
    destruct (dssp_dict !! (c_id, resseq start_r)) as [d|] eqn:Hd.
    2:{ unfold py_getitem. rewrite Hd. simpl. split; [done|]. by constructor. }
    unfold py_getitem. rewrite Hd.
    change (Ok d ≫= _) with (scan (resseq start_r) (ss d) sl after [start_r] m).
    apply (scan_result n start_r d sl IH Hd after [] m);
      [simpl in Hle; lia | done | constructor].
Qed.

Lemma neighbours_differ_lookup (l : list SecondaryStructure) :
  neighbours_differ l ->
  forall (i : nat) s1 s2, l !! i = Some s1 -> l !! S i = Some s2 ->
    segments_differ dssp_dict c_id s1 s2.
Proof.
  induction l as [|a [|b l] IH]; intros Hn i s1 s2 H1 H2.
  - done.
  - by destruct i.
  - destruct Hn as [Hab Hn]. destruct i as [|i].
    + simpl in H1, H2. by simplify_eq.
    + exact (IH Hn i s1 s2 H1 H2).
Qed.

Lemma segment_of_run_records (s : @SecondaryStructure Coord) :
  segment_of_run dssp_dict c_id s ->
  residue_list s <> [] /\
  Forall (fun r => is_Some (dssp_dict !! (c_id, resseq r))) (residue_list s).
Proof.
  intros (f & t & d & Hs & Hd & Ht & _). rewrite Hs. split; [done|].
  constructor; [by exists d|].
  eapply Forall_impl; [exact Ht|]. intros r (d' & Hr & _). by exists d'.
Qed.
End Segments.

Section Model.
Context {Coord : Type}.
Variable dssp_dict : gmap dssp_key dssp_record.

Lemma segment_model_cons (chain : Chain Coord) (rest : list (Chain Coord))
    (m : gmap string string) (sl : list SecondaryStructure) :
  segment_model dssp_dict (chain :: rest) m sl =
  '(ss_list, ss_map) ←
     segment_chain dssp_dict (chain_id chain) (chain_residues chain) m sl;
  segment_model dssp_dict rest ss_map ss_list.
Proof. reflexivity. Qed.

(** What [segment_model] adds to [ss_list]. *)
Definition model_result (chains : list (Chain Coord)) (ss_list : list SecondaryStructure)
    (res : py (list SecondaryStructure * gmap string string)) : Prop :=
  match res with
  | Ok (ss_list', ss_map') =>
      ss_map_state ss_map' /\
      exists new, ss_list' = (ss_list ++ new)%list /\
        concat (map residue_list new) = get_residues chains /\
        Forall (fun s => exists c, c ∈ chains /\ segment_of_run dssp_dict (chain_id c) s) new /\
        (forall c r, c ∈ chains -> r ∈ chain_residues c ->
           is_Some (dssp_dict !! (chain_id c, resseq r))) /\
        exists groups, new = concat groups /\
          Forall2 (fun c g => concat (map residue_list g) = chain_residues c /\
                              Forall (segment_of_run dssp_dict (chain_id c)) g)
                  chains groups
  | Raise e =>
      e = KeyError /\
      exists c r, c ∈ chains /\ r ∈ chain_residues c /\
                  dssp_dict !! (chain_id c, resseq r) = None
  end.

Lemma segment_model_result (chains : list (Chain Coord)) (m : gmap string string)
    (sl : list SecondaryStructure) :
  ss_map_state m -> model_result chains sl (segment_model dssp_dict chains m sl).
Proof.
  revert m sl. induction chains as [|chain rest IH]; intros m sl Hst.
  - simpl. split; [done|]. exists []. rewrite app_nil_r. repeat split; try done.
    + intros c r Hc. by apply elem_of_nil in Hc.
    + exists []. split; [done | constructor].
  - rewrite segment_model_cons.
    pose proof (segment_chain_result dssp_dict (chain_id chain) (chain_residues chain)
                  m sl Hst) as Hc.
    destruct (segment_chain dssp_dict (chain_id chain) (chain_residues chain) m sl)
      as [[sl1 m1]|e].
    + destruct Hc as (Hm1 & new1 & -> & Hcat1 & Hruns1 & _).
      rewrite bind_Ok. cbv beta iota.
      specialize (IH m1 (sl ++ new1)%list Hm1).
      destruct (segment_model dssp_dict rest m1 (sl ++ new1)) as [[sl2 m2]|e].
      * destruct IH as (Hm2 & new2 & -> & Hcat2 & Hruns2 & Hrec2 & groups & Hg & Hall).
        split; [done|]. exists (new1 ++ new2)%list.
        split; [by rewrite app_assoc|]. split.
        { rewrite map_app, concat_app, Hcat1, Hcat2. reflexivity. }
        split.
        { apply Forall_app. split.
          -- eapply Forall_impl; [exact Hruns1|]. intros s Hs. exists chain.
             split; [apply list_elem_of_here | done].
          -- eapply Forall_impl; [exact Hruns2|]. intros s (c & Hin & Hs). exists c.
             split; [by apply list_elem_of_further | done]. }
        split.
        { intros c r Hc Hr. apply elem_of_cons in Hc as [->|Hc]; [|by apply Hrec2].
          rewrite <- Hcat1 in Hr. apply elem_of_concat in Hr as (rl & Hin & Hrl).
          apply list_elem_of_fmap in Hrl as (s & -> & Hs).
          rewrite Forall_forall in Hruns1.
          destruct (segment_of_run_records _ _ s (Hruns1 s Hs)) as [_ Hrec1].
          rewrite Forall_forall in Hrec1. by apply Hrec1. }
        exists (new1 :: groups). split; [simpl; by rewrite Hg|].
        by constructor.
      * destruct IH as (-> & c & r & Hin & Hr & Hnone). split; [done|].
        exists c, r. split; [by apply list_elem_of_further | done].
    + destruct Hc as [-> Hex]. split; [done|].
      apply Exists_exists in Hex as (r & Hr & Hnone).
      exists chain, r. split; [apply list_elem_of_here | done].
Qed.

Lemma pack_segments (model : Model Coord) (key_map : gmap Z dssp_key)
    (ss_list : list SecondaryStructure) (sheet_list : list BetaSheet) :
  pack_dssp_dict_into_ss_list model dssp_dict key_map = Ok (ss_list, sheet_list) ->
  exists m, segment_model dssp_dict model ss_map_init [] = Ok (ss_list, m).
Proof.
  unfold pack_dssp_dict_into_ss_list. intros H.
  apply py_bind_Ok in H as ([sl m] & Hseg & H).
  apply py_bind_Ok in H as (sheets & _ & H).
  exists m. by simplify_eq.
Qed.

(** X21: The segments of a model, read in order, are its residues in order: every
    residue lies in exactly one segment, and no segment is empty. *)
Theorem segments_partition_model (model : Model Coord) (key_map : gmap Z dssp_key)
    (ss_list : list SecondaryStructure) (sheet_list : list BetaSheet) :
  pack_dssp_dict_into_ss_list model dssp_dict key_map = Ok (ss_list, sheet_list) ->
  concat (map residue_list ss_list) = get_residues model /\
  Forall (fun s => residue_list s <> []) ss_list.
Proof.
  intros [m Hseg]%pack_segments.
  pose proof (segment_model_result model ss_map_init [] ss_map_init_state) as Hres.
  rewrite Hseg in Hres. destruct Hres as (_ & new & -> & Hcat & Hruns & _).
  split; [done|]. simpl.
  eapply Forall_impl; [exact Hruns|].
  intros s (c & _ & Hs). by apply segment_of_run_records in Hs as [Hne _].
Qed.

(** X22: No segment spans two chains, and every segment is a run: the list of
    segments splits into one group per chain, in the order of the chains; the
    group of a chain partitions the residues of that chain; and in each
    segment the record of the first residue decides the class (helix for H,
    strand with that record's sheet label for E and B, loop with the mapped
    class otherwise) while every other residue has the mapped class and the
    sheet label of the first. *)
Theorem segments_are_runs (model : Model Coord) (key_map : gmap Z dssp_key)
    (ss_list : list SecondaryStructure) (sheet_list : list BetaSheet) :
  pack_dssp_dict_into_ss_list model dssp_dict key_map = Ok (ss_list, sheet_list) ->
  exists groups, ss_list = concat groups /\
    Forall2 (fun c g => concat (map residue_list g) = chain_residues c /\
                        Forall (segment_of_run dssp_dict (chain_id c)) g)
            model groups.
Proof.
  intros [m Hseg]%pack_segments.
  pose proof (segment_model_result model ss_map_init [] ss_map_init_state) as Hres.
  rewrite Hseg in Hres.
  by destruct Hres as (_ & new & -> & _ & _ & _ & groups & -> & Hall); exists groups.
Qed.

(** X23: Segments are maximal: two segments that follow each other in one chain
    begin with residues that [same_ss] tells apart (their mapped classes or
    their sheet labels differ). *)
Theorem neighbouring_segments_differ (c_id : string) (l : list (Residue Coord))
    (m m' : gmap string string) (sl sl' : list SecondaryStructure) :
  ss_map_state m ->
  segment_chain dssp_dict c_id l m sl = Ok (sl', m') ->
  exists new, sl' = (sl ++ new)%list /\
    forall (i : nat) s1 s2, new !! i = Some s1 -> new !! S i = Some s2 ->
      segments_differ dssp_dict c_id s1 s2.
Proof.
  intros Hst Hseg.
  pose proof (segment_chain_result dssp_dict c_id l m sl Hst) as Hres.
  rewrite Hseg in Hres. destruct Hres as (_ & new & -> & _ & _ & Hnb).
  exists new. split; [done|]. by apply neighbours_differ_lookup.
Qed.

(** X24: A residue of the model without a record in [dssp_dict] (under the id of
    its chain and its sequence number) makes the segmentation, and with it
    [pack_dssp_dict_into_ss_list], raise [KeyError]. *)
Theorem missing_record_raises (model : Model Coord) (key_map : gmap Z dssp_key)
    (c : Chain Coord) (r : Residue Coord) :
  c ∈ model -> r ∈ chain_residues c ->
  dssp_dict !! (chain_id c, resseq r) = None ->
  segment_model dssp_dict model ss_map_init [] = Raise KeyError /\
  pack_dssp_dict_into_ss_list model dssp_dict key_map = Raise KeyError.
Proof.
  intros Hc Hr Hnone.
  pose proof (segment_model_result model ss_map_init [] ss_map_init_state) as Hres.
  assert (Hseg : segment_model dssp_dict model ss_map_init [] = Raise KeyError).
  { destruct (segment_model dssp_dict model ss_map_init []) as [[sl m]|e].
    - destruct Hres as (_ & new & -> & _ & _ & Hrec & _).
      destruct (Hrec c r Hc Hr) as [d Hd]. congruence.
    - by destruct Hres as [-> _]. }
  split; [done|]. unfold pack_dssp_dict_into_ss_list. by rewrite Hseg.
Qed.

(** X25: When every residue of the model has a record in [dssp_dict], the
    segmentation returns. *)
Theorem records_make_segmentation_return (model : Model Coord) :
  (forall c r, c ∈ model -> r ∈ chain_residues c ->
     is_Some (dssp_dict !! (chain_id c, resseq r))) ->
  exists ss_list ss_map,
    segment_model dssp_dict model ss_map_init [] = Ok (ss_list, ss_map).
Proof.
  intros Hall.
  pose proof (segment_model_result model ss_map_init [] ss_map_init_state) as Hres.
  destruct (segment_model dssp_dict model ss_map_init []) as [[sl m]|e].
  - by exists sl, m.
  - destruct Hres as (_ & c & r & Hc & Hr & Hnone).
    destruct (Hall c r Hc Hr) as [d Hd]. congruence.
Qed.
End Model.

Lemma hairpin_packs :
  raises (pack_dssp_dict_into_ss_list hairpin_model (dssp_dict_of hairpin_out)
            (key_map_of hairpin_out)) = false.
Proof. vm_compute. reflexivity. Qed.

Lemma segments_partition_model_witness :
  exists ss_list sheet_list,
    pack_dssp_dict_into_ss_list hairpin_model (dssp_dict_of hairpin_out)
      (key_map_of hairpin_out) = Ok (ss_list, sheet_list) /\
    concat (map residue_list ss_list) = get_residues hairpin_model /\
    Forall (fun s => residue_list s <> []) ss_list.
Proof.
  pose proof hairpin_packs as Hp.
  destruct (pack_dssp_dict_into_ss_list hairpin_model (dssp_dict_of hairpin_out)
              (key_map_of hairpin_out)) as [[ss_list sheet_list]|e] eqn:E;
    [|discriminate].
  exists ss_list, sheet_list. split; [reflexivity|].
  exact (segments_partition_model (dssp_dict_of hairpin_out) hairpin_model
           (key_map_of hairpin_out) ss_list sheet_list E).
Defined.

Lemma segments_are_runs_witness :
  exists ss_list sheet_list,
    pack_dssp_dict_into_ss_list hairpin_model (dssp_dict_of hairpin_out)
      (key_map_of hairpin_out) = Ok (ss_list, sheet_list) /\
    exists groups, ss_list = concat groups /\
      Forall2 (fun c g => concat (map residue_list g) = chain_residues c /\
                          Forall (segment_of_run (dssp_dict_of hairpin_out) (chain_id c)) g)
              hairpin_model groups.
Proof.
  pose proof hairpin_packs as Hp.
  destruct (pack_dssp_dict_into_ss_list hairpin_model (dssp_dict_of hairpin_out)
              (key_map_of hairpin_out)) as [[ss_list sheet_list]|e] eqn:E;
    [|discriminate].
  exists ss_list, sheet_list. split; [reflexivity|].
  exact (segments_are_runs (dssp_dict_of hairpin_out) hairpin_model
           (key_map_of hairpin_out) ss_list sheet_list E).
Defined.

Lemma hairpin_chain_segments :
  raises (segment_chain (dssp_dict_of hairpin_out) "A" (map hairpin_residue [1; 2; 3; 4; 5])
            ss_map_init []) = false.
Proof. vm_compute. reflexivity. Qed.

Lemma neighbouring_segments_differ_witness :
  exists sl' m',
    segment_chain (dssp_dict_of hairpin_out) "A" (map hairpin_residue [1; 2; 3; 4; 5])
      ss_map_init [] = Ok (sl', m') /\
    exists new, sl' = ([] ++ new)%list /\
      forall (i : nat) s1 s2, new !! i = Some s1 -> new !! S i = Some s2 ->
        segments_differ (dssp_dict_of hairpin_out) "A" s1 s2.
Proof.
  pose proof hairpin_chain_segments as Hp.
  destruct (segment_chain (dssp_dict_of hairpin_out) "A"
              (map hairpin_residue [1; 2; 3; 4; 5]) ss_map_init []) as [[sl' m']|e] eqn:E;
    [|discriminate].
  exists sl', m'. split; [reflexivity|].
  exact (neighbouring_segments_differ (dssp_dict_of hairpin_out) "A"
           (map hairpin_residue [1; 2; 3; 4; 5]) ss_map_init m' [] sl'
           ss_map_init_state E).
Defined.

(** The hairpin model against an empty dictionary. *)
Lemma missing_record_raises_witness :
  segment_model (∅ : gmap dssp_key dssp_record) hairpin_model ss_map_init []
    = Raise KeyError /\
  pack_dssp_dict_into_ss_list hairpin_model ∅ (key_map_of hairpin_out) = Raise KeyError.
Proof.
  apply (missing_record_raises ∅ hairpin_model (key_map_of hairpin_out)
           (mkChain "A" (map hairpin_residue [1; 2; 3; 4; 5])) (hairpin_residue 1)).
  - apply list_elem_of_here.
  - apply list_elem_of_here.
  - reflexivity.
Defined.

Lemma hairpin_records (n : Z) :
  n ∈ [1; 2; 3; 4; 5] -> is_Some (dssp_dict_of hairpin_out !! ("A", n)).
Proof.
  intros Hn.
  repeat (apply elem_of_cons in Hn as [->|Hn]; [vm_compute; eexists; reflexivity|]).
  by apply elem_of_nil in Hn.
Qed.

Lemma records_make_segmentation_return_witness :
  exists ss_list ss_map,
    segment_model (dssp_dict_of hairpin_out) hairpin_model ss_map_init []
      = Ok (ss_list, ss_map).
Proof.
  apply records_make_segmentation_return.
  intros c r Hc Hr. apply list_elem_of_singleton in Hc as ->.
  apply list_elem_of_fmap in Hr as (n & -> & Hn).
  by apply hairpin_records.
Defined.
End SegmentMore.

(** ** Sheets and their graphs *)

Module SheetGraphMore.
Import PDB PyStr SecondaryStructures Examples SegmentFacts SheetGraphFacts SegmentMore.
Import PrimFloat.
#[local] Set Warnings "-inexact-float".

Section Graph.
Context {Coord : Type}.
Variable dssp_dict : gmap dssp_key dssp_record.
Variable key_map : gmap Z dssp_key.
Variable model : Model Coord.

Lemma model_residue_raises (key : dssp_key) (e : exn) :
  model_residue model key = Raise e -> e = KeyError.
Proof.
  unfold model_residue, model_getitem, chain_getitem. intros H.
  destruct (find _ model) as [c|]; simpl in H; [|congruence].
  destruct (find _ (chain_residues c)); congruence.
Qed.

(** One energy-gated block returns exactly when its descriptor does not pass
    the gate or resolves; otherwise it raises [KeyError]. *)
Lemma add_hbond_result (residues : list (Residue Coord)) (res : Residue Coord)
    (d : dssp_record) (hb : Z * float) (kind : string) (g : MultiDiGraph) :
  match add_hbond key_map model residues res d hb kind g with
  | Ok _ => ltb hb.2 HB_ENERGY_LIMIT = true ->
            exists key res2, key_map !! (seq_num d + hb.1) = Some key /\
                             model_residue model key = Ok res2
  | Raise e => e = KeyError /\ ltb hb.2 HB_ENERGY_LIMIT = true /\
               ~ exists key res2, key_map !! (seq_num d + hb.1) = Some key /\
                                  model_residue model key = Ok res2
  end.
Proof.
  unfold add_hbond. destruct (ltb hb.2 HB_ENERGY_LIMIT); [|done].
  unfold py_getitem. destruct (key_map !! (seq_num d + hb.1)) as [key|] eqn:Hk; simpl.
  2:{ split; [done|]. split; [done|]. by intros (k & r & ? & _). }
  destruct (model_residue model key) as [res2|e] eqn:Hr; simpl.
  - destruct (residue_in res2 residues); intros _; by exists key, res2.
  - split; [by eapply model_residue_raises|]. split; [done|].
    intros (k & r & Hk' & Hr'). simplify_eq. congruence.
Qed.

Lemma add_hbonds_of_result (residues : list (Residue Coord)) (res : Residue Coord)
    (g : MultiDiGraph) :
  match add_hbonds_of dssp_dict key_map model residues res g with
  | Ok _ => hbonds_resolve dssp_dict key_map model res
  | Raise e => e = KeyError /\ ~ hbonds_resolve dssp_dict key_map model res
  end.
Proof.
  unfold add_hbonds_of, py_getitem.
  destruct (dssp_dict !! (res_chain res, resseq res)) as [d|] eqn:Hd; simpl.
  2:{ split; [done|]. intros (d & Hd' & _). congruence. }
  assert (Hno : forall kind hb, hbond_of d kind = Some hb ->
            ltb hb.2 HB_ENERGY_LIMIT = true ->
            (~ exists key res2, key_map !! (seq_num d + hb.1) = Some key /\
                                model_residue model key = Ok res2) ->
            ~ hbonds_resolve dssp_dict key_map model res).
  { intros kind hb Hk Hlt Hn (d' & Hd' & Hall). assert (d' = d) by congruence. subst d'.
    apply Hn. by eapply Hall. }
  pose proof (add_hbond_result residues res d (nh_to_o1 d) "nh_to_o1" g) as H1.
  destruct (add_hbond key_map model residues res d (nh_to_o1 d) "nh_to_o1" g) as [g1|e];
    simpl; [|destruct H1 as (-> & Hlt & Hn); split; [done|]; by eapply (Hno "nh_to_o1")].
  pose proof (add_hbond_result residues res d (o_to_nh1 d) "o_to_nh1" g1) as H2.
  destruct (add_hbond key_map model residues res d (o_to_nh1 d) "o_to_nh1" g1) as [g2|e];
    simpl; [|destruct H2 as (-> & Hlt & Hn); split; [done|]; by eapply (Hno "o_to_nh1")].
  pose proof (add_hbond_result residues res d (nh_to_o2 d) "nh_to_o2" g2) as H3.
  destruct (add_hbond key_map model residues res d (nh_to_o2 d) "nh_to_o2" g2) as [g3|e];
    simpl; [|destruct H3 as (-> & Hlt & Hn); split; [done|]; by eapply (Hno "nh_to_o2")].
  pose proof (add_hbond_result residues res d (o_to_nh2 d) "o_to_nh2" g3) as H4.
  destruct (add_hbond key_map model residues res d (o_to_nh2 d) "o_to_nh2" g3) as [g4|e];
    simpl; [|destruct H4 as (-> & Hlt & Hn); split; [done|]; by eapply (Hno "o_to_nh2")].
  exists d. split; [done|]. intros kind hb Hk Hlt. unfold hbond_of in Hk.
  repeat case_bool_decide; simplify_eq; auto.
Qed.

Lemma add_hbonds_result (residues todo : list (Residue Coord)) (g : MultiDiGraph) :
  match add_hbonds dssp_dict key_map model residues todo g with
  | Ok _ => Forall (hbonds_resolve dssp_dict key_map model) todo
  | Raise e => e = KeyError /\
               Exists (fun res => ~ hbonds_resolve dssp_dict key_map model res) todo
  end.
Proof.
  revert g. induction todo as [|res todo IH]; intros g; [by simpl|].
  change (add_hbonds dssp_dict key_map model residues (res :: todo) g)
    with (add_hbonds_of dssp_dict key_map model residues res g
          ≫= fun g => add_hbonds dssp_dict key_map model residues todo g).
  pose proof (add_hbonds_of_result residues res g) as H1.
  destruct (add_hbonds_of dssp_dict key_map model residues res g) as [g1|e].
  - change (Ok g1 ≫= _) with (add_hbonds dssp_dict key_map model residues todo g1).
    specialize (IH g1).
    destruct (add_hbonds dssp_dict key_map model residues todo g1) as [g2|e].
    + by constructor.
    + destruct IH as [-> Hex]. split; [done|]. by apply Exists_cons_tl.
  - destruct H1 as [-> Hn]. split; [done|]. by apply Exists_cons_hd.
Qed.

(** X26: [init_sheet_graph] returns exactly when every residue of the strands has
    a record and each of its descriptors that passes the energy gate leads,
    through [key_map], to a residue of the model; otherwise it raises
    [KeyError]. *)
Theorem sheet_graph_returns_iff_bonds_resolve (sl : list SecondaryStructure) :
  match init_sheet_graph sl dssp_dict key_map model with
  | Ok _ => Forall (hbonds_resolve dssp_dict key_map model) (sheet_residues sl)
  | Raise e => e = KeyError /\
               Exists (fun res => ~ hbonds_resolve dssp_dict key_map model res)
                 (sheet_residues sl)
  end.
Proof. unfold init_sheet_graph. apply add_hbonds_result. Qed.

(** X27: The backbone edges of a sheet graph join each residue of a strand to the
    next residue of the same strand, and only those; and every edge is a
    backbone edge or carries one of the four hydrogen-bond kinds. *)
Theorem backbone_edges_join_neighbours (sl : list SecondaryStructure)
    (g : MultiDiGraph) :
  init_sheet_graph sl dssp_dict key_map model = Ok g ->
  (forall a b, In (a, b, "pp_bond") (edges g) <->
     exists strand (i : nat), In strand sl /\ residue_list strand !! i = Some a /\
                              residue_list strand !! S i = Some b) /\
  (forall e, In e (edges g) -> e.2 = "pp_bond" \/ In e.2 hbond_kinds).
Proof.
  intros H. split.
  - intros a b. rewrite (init_sheet_graph_edges _ _ _ _ _ _ H). split.
    + intros [(strand & i & a' & b' & Hs & Ha & Hb & E)|(r & k & r2 & _ & Hk & E & _)].
      * inversion E; subst. by exists strand, i.
      * inversion E; subst. by apply hbond_kind_not_pp in Hk.
    + intros (strand & i & Hs & Ha & Hb). left. by exists strand, i, a, b.
  - intros e He. apply (init_sheet_graph_edges _ _ _ _ _ _ H) in He
      as [(strand & i & a & b & _ & _ & _ & ->)|(r & k & r2 & _ & Hk & -> & _)]; auto.
Qed.

Lemma build_sheets_all (ss_list : list SecondaryStructure)
    (ids : list string) (acc sheets : list BetaSheet) :
  build_sheets ss_list dssp_dict key_map model ids acc = Ok sheets ->
  exists new, sheets = (acc ++ new)%list /\ map sheet_id new = ids /\
    Forall (fun sheet =>
      strand_list sheet = List.filter (is_strand_of (sheet_id sheet)) ss_list /\
      init_sheet_graph (strand_list sheet) dssp_dict key_map model = Ok (graph sheet)) new.
Proof.
  revert acc. induction ids as [|id ids IH]; intros acc H; simpl in H.
  - inversion H; subst. exists []. by rewrite app_nil_r.
  - apply py_bind_Ok in H as (sheet & Hsheet & H).
    unfold new_BetaSheet in Hsheet.
    apply py_bind_Ok in Hsheet as (g & Hg & Hsheet). inversion Hsheet; subst sheet.
    destruct (IH _ H) as (new & -> & Hids & Hall).
    exists (mkSheet id (List.filter (is_strand_of id) ss_list) g :: new).
    split; [by rewrite <- app_assoc|]. split; [simpl; by rewrite Hids|].
    by constructor.
Qed.

(** X28: One sheet per sheet label: the labels of the sheets are the labels of the
    strand segments, each once; a sheet holds the strands with its label, in
    the order of the segments, and the graph built from them. *)
Theorem one_sheet_per_label (ss_list : list SecondaryStructure)
    (sheet_list : list BetaSheet) :
  pack_dssp_dict_into_ss_list model dssp_dict key_map = Ok (ss_list, sheet_list) ->
  NoDup (map sheet_id sheet_list) /\
  (forall label, In label (map sheet_id sheet_list) <->
                 exists l, In (BetaStrand l label) ss_list) /\
  Forall (fun sheet =>
    strand_list sheet = List.filter (is_strand_of (sheet_id sheet)) ss_list /\
    init_sheet_graph (strand_list sheet) dssp_dict key_map model = Ok (graph sheet))
    sheet_list.
Proof.
  unfold pack_dssp_dict_into_ss_list. intros H.
  apply py_bind_Ok in H as ([ss_list' ss_map] & _ & H).
  apply py_bind_Ok in H as (sheets & Hb & H). inversion H; subst.
  apply build_sheets_all in Hb as (new & -> & Hids & Hall). simpl.
  rewrite Hids. split; [apply NoDup_elements|]. split; [|done].
  intros label. rewrite <- list_elem_of_In, elem_of_elements, sheet_ids_spec.
  split; [intros [Hl|Hl]; [set_solver | done] | auto].
Qed.

Lemma build_sheets_raises (ss_list : list SecondaryStructure)
    (ids : list string) (acc : list BetaSheet) (e : exn) :
  build_sheets ss_list dssp_dict key_map model ids acc = Raise e -> e = KeyError.
Proof.
  revert acc. induction ids as [|id ids IH]; intros acc H; simpl in H; [done|].
  apply py_bind_Raise_inv in H as [H|(sheet & _ & H)]; [|by eapply IH].
  unfold new_BetaSheet in H.
  apply py_bind_Raise_inv in H as [H|(g & _ & H)]; [|done].
  unfold init_sheet_graph in H.
  pose proof (add_hbonds_result
                (sheet_residues (List.filter (is_strand_of id) ss_list))
                (sheet_residues (List.filter (is_strand_of id) ss_list))
                (add_strands (List.filter (is_strand_of id) ss_list) empty_graph)) as Hr.
  rewrite H in Hr. by destruct Hr as [-> _].
Qed.

(** X29: The dictionary lookups are the only source of exceptions:
    [pack_dssp_dict_into_ss_list] raises nothing but [KeyError]. *)
Theorem pack_raises_only_KeyError (e : exn) :
  pack_dssp_dict_into_ss_list model dssp_dict key_map = Raise e -> e = KeyError.
Proof.
  unfold pack_dssp_dict_into_ss_list. intros H.
  apply py_bind_Raise_inv in H as [H|([ss_list ss_map] & _ & H)].
  - pose proof (segment_model_result dssp_dict model ss_map_init [] ss_map_init_state)
      as Hr.
    rewrite H in Hr. by destruct Hr as [-> _].
  - apply py_bind_Raise_inv in H as [H|(sheets & _ & H)]; [|done].
    by apply build_sheets_raises in H.
Qed.
End Graph.

(** The hairpin model against an empty dictionary of records. *)
Lemma pack_raises_only_KeyError_witness :
  exists e,
    pack_dssp_dict_into_ss_list hairpin_model ∅ (key_map_of hairpin_out) = Raise e /\
    e = KeyError.
Proof.
  eexists. split; [reflexivity|].
  apply (pack_raises_only_KeyError ∅ (key_map_of hairpin_out) hairpin_model).
  reflexivity.
Defined.

Lemma backbone_edges_join_neighbours_witness :
  exists g,
    init_sheet_graph hairpin_strands (dssp_dict_of hairpin_out)
      (key_map_of hairpin_out) hairpin_model = Ok g /\
    (forall a b, In (a, b, "pp_bond") (edges g) <->
       exists strand (i : nat), In strand hairpin_strands /\
         residue_list strand !! i = Some a /\ residue_list strand !! S i = Some b) /\
    (forall e, In e (edges g) -> e.2 = "pp_bond" \/ In e.2 hbond_kinds).
Proof.
  pose proof hairpin_sheet_graph_Ok as Hok.
  destruct (init_sheet_graph hairpin_strands (dssp_dict_of hairpin_out)
              (key_map_of hairpin_out) hairpin_model) as [g|e] eqn:E; [|discriminate].
  exists g. split; [reflexivity|].
  exact (backbone_edges_join_neighbours (dssp_dict_of hairpin_out)
           (key_map_of hairpin_out) hairpin_model hairpin_strands g E).
Defined.

Lemma one_sheet_per_label_witness :
  exists ss_list sheet_list,
    pack_dssp_dict_into_ss_list hairpin_model (dssp_dict_of hairpin_out)
      (key_map_of hairpin_out) = Ok (ss_list, sheet_list) /\
    NoDup (map sheet_id sheet_list) /\
    (forall label, In label (map sheet_id sheet_list) <->
                   exists l, In (BetaStrand l label) ss_list) /\
    Forall (fun sheet =>
      strand_list sheet = List.filter (is_strand_of (sheet_id sheet)) ss_list /\
      init_sheet_graph (strand_list sheet) (dssp_dict_of hairpin_out)
        (key_map_of hairpin_out) hairpin_model = Ok (graph sheet))
      sheet_list.
Proof.
  pose proof hairpin_packs as Hp.
  destruct (pack_dssp_dict_into_ss_list hairpin_model (dssp_dict_of hairpin_out)
              (key_map_of hairpin_out)) as [[ss_list sheet_list]|e] eqn:E;
    [|discriminate].
  exists ss_list, sheet_list. split; [reflexivity|].
  exact (one_sheet_per_label (dssp_dict_of hairpin_out) (key_map_of hairpin_out)
           hairpin_model ss_list sheet_list E).
Defined.
End SheetGraphMore.
